(** * RadarChartWidget: validation and chart-geometry engine

    A shallow embedding of
      - [src/utils/validationUtils.ts]  (the Validator), and
      - the chart-calculation hooks [useChartCalculations] /
        [useChartDimensions] (Normalizer, GeometryEngine, PathBuilder),
    together with the properties stated about them; and further of
      - the formatting of validation results, the tests on the state of
        the data source and the accessible descriptions of
        [validationUtils.ts],
      - the grid, the spokes and the result of [useChartCalculations],
      - the placement of the tooltip ([calculateTooltipPosition]).

    Conventions.
      - A JavaScript [number] handled by the Validator is an IEEE-754
        binary64 value: Rocq's primitive [float].  Comparisons are the
        primitive ones, so NaN, the infinities and signed zeros behave as
        in the source.
      - The geometry code is written once over an interface [JsNumber] of
        the arithmetic it uses; it is instantiated with the doubles, which
        the program computes with, and with the real numbers (exact
        arithmetic: what holds there only is stated as holding there).
      - A JavaScript string is a sequence of code units; the code units
        modelled are the 8-bit ones (Latin-1), Rocq's [string].
      - An array reaching the Validator is the list of its slots, each an
        element or a hole: [length] counts the holes of a sparse array,
        [forEach] skips them.  The typed arrays of the geometry code and
        of the text functions are lists of their elements.
      - [Number.prototype.toString] and [Number.prototype.toFixed] are
        engine primitives: they are parameters of the sections using them. *)

From Stdlib Require Import ZArith QArith Qreals Reals Lra Lia Bool.
From Stdlib Require Import Ascii String DecimalString.
From Stdlib Require Import Floats.
From Equations Require Import Equations.
From stdpp Require Import base option list gmap strings.

#[local] Set Warnings "-register-all,-inexact-float".

Local Open Scope string_scope.
Local Open Scope list_scope.

(* ===================================================================== *)
(** ** Strings *)
(* ===================================================================== *)

Module JsString.

(** White space removed by [String.prototype.trim], on the code units
    modelled: TAB, LF, VT, FF, CR, SP and NBSP. *)
Definition isWhiteSpace (c : ascii) : bool :=
  let n := nat_of_ascii c in
  (Nat.leb 9 n && Nat.leb n 13) || Nat.eqb n 32 || Nat.eqb n 160.

Fixpoint trimStart (s : string) : string :=
  match s with
  | EmptyString => EmptyString
  | String c rest => if isWhiteSpace c then trimStart rest else s
  end.

Fixpoint allWhiteSpace (s : string) : bool :=
  match s with
  | EmptyString => true
  | String c rest => isWhiteSpace c && allWhiteSpace rest
  end.

Fixpoint trimEnd (s : string) : string :=
  match s with
  | EmptyString => EmptyString
  | String c rest =>
      if allWhiteSpace s then EmptyString else String c (trimEnd rest)
  end.

(** [s.trim()] *)
Definition trim (s : string) : string := trimEnd (trimStart s).

(** [toLowerCase] on one code unit: A-Z and the Latin-1 capitals
    (U+00C0 - U+00DE, the multiplication sign U+00D7 apart). *)
Definition lowerChar (c : ascii) : ascii :=
  let n := nat_of_ascii c in
  if (Nat.leb 65 n && Nat.leb n 90)
     || (Nat.leb 192 n && Nat.leb n 222 && negb (Nat.eqb n 215))
  then ascii_of_nat (n + 32) else c.

(** [s.toLowerCase()] *)
Fixpoint toLowerCase (s : string) : string :=
  match s with
  | EmptyString => EmptyString
  | String c rest => String (lowerChar c) (toLowerCase rest)
  end.

(** Decimal rendering of an array index inside a template literal. *)
Definition ofIndex (n : nat) : string :=
  NilZero.string_of_uint (Nat.to_uint n).

(** [VALIDATION_CONSTANTS.SPECIAL_CHAR_PATTERN.test(s)]: the pattern is
    the character class of less-than, greater-than, apostrophe, double
    quote and ampersand. *)
Definition isSpecialChar (c : ascii) : bool :=
  let n := nat_of_ascii c in
  Nat.eqb n 60 || Nat.eqb n 62 || Nat.eqb n 39 || Nat.eqb n 34
  || Nat.eqb n 38.

Fixpoint testSpecial (s : string) : bool :=
  match s with
  | EmptyString => false
  | String c rest => isSpecialChar c || testSpecial rest
  end.

(** The double-quote character, used by the message templates. *)
Definition dquote : string := String (ascii_of_nat 34) EmptyString.

End JsString.

(* ===================================================================== *)
(** ** JavaScript values reaching the Validator *)
(* ===================================================================== *)

(** The Validator receives data of unchecked shape ([any]).  An object is
    its list of own properties (first binding of a key wins on lookup); an
    array is the list of its slots, [Some] element or [None] for a hole
    (an index below [length] at which the array has no property). *)
Inductive JsValue : Type :=
| JUndefined
| JNull
| JBool (b : bool)
| JNum (n : float)
| JStr (s : string)
| JObj (props : list (string * JsValue))
| JArr (items : list (option JsValue))
| JFunction
| JSymbol
| JBigInt (z : Z).

(** [!!v] *)
Definition truthy (v : JsValue) : bool :=
  match v with
  | JUndefined | JNull => false
  | JBool b => b
  | JNum n => negb (PrimFloat.is_nan n || PrimFloat.is_zero n)
  | JStr s => negb (String.eqb s "")
  | JObj _ | JArr _ | JFunction | JSymbol => true
  | JBigInt z => negb (Z.eqb z 0)
  end.

(** [typeof v] *)
Definition typeof (v : JsValue) : string :=
  match v with
  | JUndefined => "undefined"
  | JNull => "object"
  | JBool _ => "boolean"
  | JNum _ => "number"
  | JStr _ => "string"
  | JObj _ | JArr _ => "object"
  | JFunction => "function"
  | JSymbol => "symbol"
  | JBigInt _ => "bigint"
  end.

(** [Array.isArray(v)] *)
Definition isArray (v : JsValue) : bool :=
  match v with
  | JArr _ => true
  | _ => false
  end.

(** [v === undefined] and [v === null] *)
Definition isUndefined (v : JsValue) : bool :=
  match v with
  | JUndefined => true
  | _ => false
  end.

Definition isNull (v : JsValue) : bool :=
  match v with
  | JNull => true
  | _ => false
  end.

(** [isNaN(v)], on a value that is a number (the only use made of it);
    other values would first be converted. *)
Definition isNaN (v : JsValue) : bool :=
  match v with
  | JNum n => PrimFloat.is_nan n
  | _ => false
  end.

Fixpoint lookupProp (key : string) (props : list (string * JsValue)) : JsValue :=
  match props with
  | [] => JUndefined
  | (k, v) :: rest => if String.eqb k key then v else lookupProp key rest
  end.

(** [v.key] of an object, for the property names the Validator reads
    ([name], [value]); an array has neither.  The Validator reads
    properties only past the test [typeof v === "object"]. *)
Definition getProp (v : JsValue) (key : string) : JsValue :=
  match v with
  | JObj props => lookupProp key props
  | _ => JUndefined
  end.

(** The object literal [{ name: n, value: v }]. *)
Definition rawPoint (n v : JsValue) : JsValue :=
  JObj [("name", n); ("value", v)].

(** [RadarChartDataPoint] of [RadarChartTypes.ts], over the number type. *)
Record RadarChartDataPoint (N : Type) : Type := mkPoint {
  name : string;
  value : N
}.
Arguments mkPoint {N} _ _.
Arguments name {N} _.
Arguments value {N} _.

(* ===================================================================== *)
(** ** The Validator ([validationUtils.ts]) *)
(* ===================================================================== *)

Module Validator.
Import JsString.

Inductive ErrorType : Set :=
| MISSING_DATA | INVALID_DATA_TYPE | EMPTY_VALUES | INVALID_RANGE
| DUPLICATE_NAMES.

Inductive WarningType : Set :=
| DATA_CLAMPED | EMPTY_NAME | SPECIAL_CHARACTERS | LONG_NAME.

(** [interface ValidationError]; the optional members are options. *)
Record ValidationError : Type := mkError {
  e_type : ErrorType;
  e_message : string;
  e_field : option string;
  e_index : option nat
}.

(** [interface ValidationWarning] *)
Record ValidationWarning : Type := mkWarning {
  w_type : WarningType;
  w_message : string;
  w_field : option string;
  w_index : option nat
}.

(** [interface ValidationResult]; [processedData] is [None] when the
    member is absent or [undefined]. *)
Record ValidationResult : Type := mkResult {
  isValid : bool;
  errors : list ValidationError;
  warnings : list ValidationWarning;
  processedData : option (list (RadarChartDataPoint float))
}.

(** [VALIDATION_CONSTANTS] of [chartConstants.ts] *)
Definition MAX_NAME_LENGTH : nat := 20.
Definition EMPTY_DATA_MESSAGE : string :=
  "Data source is empty. Please add data to display the chart.".
Definition NO_DATA_MESSAGE : string :=
  "No data points provided or data is not an array".

(** Return type of [validateDataPointName]. *)
Record NameValidation : Type := mkNameValidation {
  processedName : string;
  n_errors : list ValidationError;
  n_warnings : list ValidationWarning
}.

(** Return type of [validateDataPointValue]. *)
Record ValueValidation : Type := mkValueValidation {
  processedValue : float;
  v_errors : list ValidationError;
  v_warnings : list ValidationWarning
}.

(** The default name [`Category ${index + 1}`]. *)
Definition defaultName (index : nat) : string :=
  "Category " ++ ofIndex (index + 1).

(** [validateDataPointName(name, index, seenNames)].  The set
    [seenNames] is shared with the caller and mutated: it is threaded
    through, the second component being its state on return. *)
Definition validateDataPointName
    (name : JsValue) (index : nat) (seenNames : gset string)
  : NameValidation * gset string :=
  if negb (truthy name) || negb (String.eqb (typeof name) "string") then
    (mkNameValidation (defaultName index)
       [mkError INVALID_DATA_TYPE
          ("Name at index " ++ ofIndex index ++ " is missing or not a string")
          (Some "name") (Some index)]
       [],
     seenNames)
  else
    (* past the guard, [name] is a string *)
    let trimmed := trim (match name with JStr s => s | _ => "" end) in
    let '(processedName, warnings1) :=
      if Nat.eqb (String.length trimmed) 0 then
        (defaultName index,
         [mkWarning EMPTY_NAME
            ("Name at index " ++ ofIndex index ++ " is empty after trimming")
            (Some "name") (Some index)])
      else (trimmed, []) in
    let '(errors, seenNames') :=
      if decide (toLowerCase processedName ∈ seenNames) then
        ([mkError DUPLICATE_NAMES
            ("Duplicate name " ++ dquote ++ processedName ++ dquote
             ++ " found at index " ++ ofIndex index)
            (Some "name") (Some index)],
         seenNames)
      else ([], {[ toLowerCase processedName ]} ∪ seenNames) in
    let warnings2 :=
      if Nat.ltb MAX_NAME_LENGTH (String.length processedName) then
        [mkWarning LONG_NAME
           ("Name " ++ dquote ++ processedName ++ dquote
            ++ " is very long and may be truncated in display")
           (Some "name") (Some index)]
      else [] in
    let warnings3 :=
      if testSpecial processedName then
        [mkWarning SPECIAL_CHARACTERS
           ("Name " ++ dquote ++ processedName ++ dquote
            ++ " contains special characters that may affect display")
           (Some "name") (Some index)]
      else [] in
    (mkNameValidation processedName errors
       (warnings1 ++ warnings2 ++ warnings3),
     seenNames').

Section WithNumberToString.

(** [Number.prototype.toString], as applied by a template literal. *)
Variable Number_toString : float -> string.

(** [validateDataPointValue(value, index, maxValue, minValue)] *)
Definition validateDataPointValue
    (value : JsValue) (index : nat) (maxValue minValue : float)
  : ValueValidation :=
  if isUndefined value || isNull value then
    mkValueValidation 0%float
      [mkError INVALID_DATA_TYPE
         ("Value at index " ++ ofIndex index ++ " is missing")
         (Some "value") (Some index)]
      []
  else if negb (String.eqb (typeof value) "number") || isNaN value then
    mkValueValidation 0%float
      [mkError INVALID_DATA_TYPE
         ("Value at index " ++ ofIndex index ++ " is not a valid number")
         (Some "value") (Some index)]
      []
  else
    (* past the guards, [value] is a number *)
    let processedValue := match value with JNum n => n | _ => 0%float end in
    if (processedValue <? minValue)%float then
      mkValueValidation minValue []
        [mkWarning DATA_CLAMPED
           ("Value " ++ Number_toString processedValue ++ " at index "
            ++ ofIndex index ++ " is below minimum ("
            ++ Number_toString minValue ++ ") and will be clamped")
           (Some "value") (Some index)]
    else if (maxValue <? processedValue)%float then
      mkValueValidation maxValue []
        [mkWarning DATA_CLAMPED
           ("Value " ++ Number_toString processedValue ++ " at index "
            ++ ofIndex index ++ " is above maximum ("
            ++ Number_toString maxValue ++ ") and will be clamped")
           (Some "value") (Some index)]
    else mkValueValidation processedValue [] [].

(** The locals of [validateRadarChartData] that the [forEach] callback
    mutates. *)
Record LoopState : Type := mkState {
  st_errors : list ValidationError;
  st_warnings : list ValidationWarning;
  st_processedData : list (RadarChartDataPoint float);
  st_seenNames : gset string
}.

(** The [forEach] callback, for [point] at [index]. *)
Definition visitPoint (maxValue minValue : float)
    (point : JsValue) (index : nat) (st : LoopState) : LoopState :=
  if negb (truthy point) || negb (String.eqb (typeof point) "object") then
    mkState
      (st_errors st ++
         [mkError INVALID_DATA_TYPE
            ("Data point at index " ++ ofIndex index
             ++ " is not a valid object")
            None (Some index)])
      (st_warnings st) (st_processedData st) (st_seenNames st)
  else
    let '(nameValidation, seenNames') :=
      validateDataPointName (getProp point "name") index (st_seenNames st) in
    let valueValidation :=
      validateDataPointValue (getProp point "value") index maxValue minValue in
    mkState
      (st_errors st ++ n_errors nameValidation ++ v_errors valueValidation)
      (st_warnings st ++ n_warnings nameValidation
         ++ v_warnings valueValidation)
      (if truthy (JStr (processedName nameValidation))
          && negb (isNaN (JNum (processedValue valueValidation)))
       then st_processedData st ++
              [mkPoint (processedName nameValidation)
                 (processedValue valueValidation)]
       else st_processedData st)
      seenNames'.

(** [dataPoints.forEach((point, index) => ...)], from [index] on: the
    callback is called for the elements, in ascending order of the index,
    and not for the holes. *)
Fixpoint forEachPoint (maxValue minValue : float)
    (points : list (option JsValue)) (index : nat) (st : LoopState)
  : LoopState :=
  match points with
  | [] => st
  | Some point :: rest =>
      forEachPoint maxValue minValue rest (S index)
        (visitPoint maxValue minValue point index st)
  | None :: rest => forEachPoint maxValue minValue rest (S index) st
  end.

(** [validateRadarChartData(dataPoints, maxValue = 5, minValue = 0)];
    an omitted argument is [None]. *)
Definition validateRadarChartData
    (dataPoints : JsValue) (maxValue minValue : option float)
  : ValidationResult :=
  let maxValue := default 5%float maxValue in
  let minValue := default 0%float minValue in
  if negb (truthy dataPoints) || negb (isArray dataPoints) then
    mkResult false [mkError MISSING_DATA NO_DATA_MESSAGE None None] [] None
  else
    (* past the guard, [dataPoints] is an array *)
    let items := match dataPoints with JArr items => items | _ => [] end in
    if Nat.eqb (length items) 0 then
      mkResult false [mkError EMPTY_VALUES EMPTY_DATA_MESSAGE None None]
        [] None
    else
      let st := forEachPoint maxValue minValue items 0 (mkState [] [] [] ∅) in
      let errors :=
        if Nat.eqb (length (st_processedData st)) 0 then
          st_errors st ++
            [mkError EMPTY_VALUES
               "No valid data points found after processing" None None]
        else st_errors st in
      let isValid :=
        Nat.eqb (length errors) 0
        && Nat.ltb 0 (length (st_processedData st)) in
      mkResult isValid errors (st_warnings st)
        (if isValid then Some (st_processedData st) else None).

End WithNumberToString.

(** The clamping that [validateDataPointValue] performs on a number [v]:
    its processed value (the index only appears in messages). *)
Definition clamp (Number_toString : float -> string)
    (maxValue minValue : float) (v : float) : float :=
  processedValue
    (validateDataPointValue Number_toString (JNum v) 0 maxValue minValue).

(** [x] lies in the closed range from [lo] to [hi]. *)
Definition inRange (lo hi x : float) : Prop :=
  (lo <=? x)%float = true /\ (x <=? hi)%float = true.

End Validator.


(* ===================================================================== *)
(** ** Numbers of the geometry code *)
(* ===================================================================== *)

(** The arithmetic that [useChartCalculations] and [useChartDimensions]
    apply to a [number].  [lit q] stands for the numeric literal (or the
    integer count, such as an array index) of decimal value [q]. *)
Class JsNumber (N : Type) : Type := {
  lit : Q -> N;
  add : N -> N -> N;
  sub : N -> N -> N;
  mul : N -> N -> N;
  div : N -> N -> N;
  Math_min : N -> N -> N;
  Math_max : N -> N -> N;
  Math_PI : N
}.

(** [Math.cos] and [Math.sin]. *)
Class JsTrig (N : Type) : Type := {
  Math_cos : N -> N;
  Math_sin : N -> N
}.

Declare Scope js_scope.
Delimit Scope js_scope with js.
Infix "+" := add : js_scope.
Infix "-" := sub : js_scope.
Infix "*" := mul : js_scope.
Infix "/" := div : js_scope.

(** An array index or length used as a number. *)
Definition ofNat {N : Type} `{JsNumber N} (n : nat) : N :=
  lit (inject_Z (Z.of_nat n)).

(** *** The doubles *)

Module Double.

Definition ofZ (z : Z) : float :=
  match z with
  | Z0 => 0%float
  | Zpos _ => PrimFloat.of_uint63 (Uint63.of_Z z)
  | Zneg p => (- PrimFloat.of_uint63 (Uint63.of_Z (Zpos p)))%float
  end.

(** A decimal literal [n/d] with [n] and [d] below 2^53 denotes the
    double nearest to the quotient, which is what one correctly rounded
    division of the two (exact) integers gives. *)
Definition ofQ (q : Q) : float :=
  if Pos.eqb (Qden q) 1 then ofZ (Qnum q)
  else (ofZ (Qnum q) / ofZ (Zpos (Qden q)))%float.

(** [Math.max(a, b)]: NaN if either is NaN; +0 is larger than -0. *)
Definition max (a b : float) : float :=
  if PrimFloat.is_nan a || PrimFloat.is_nan b then PrimFloat.nan
  else if (a <? b)%float then b
  else if (b <? a)%float then a
  else if PrimFloat.is_zero a then (a + b)%float
  else a.

(** [Math.min(a, b)]: NaN if either is NaN; -0 is smaller than +0. *)
Definition min (a b : float) : float :=
  if PrimFloat.is_nan a || PrimFloat.is_nan b then PrimFloat.nan
  else if (a <? b)%float then a
  else if (b <? a)%float then b
  else if PrimFloat.is_zero a then (- ((- a) + (- b)))%float
  else a.

(** [Math.PI], the double nearest to pi. *)
Definition PI : float := 0x1.921fb54442d18p+1%float.

(** The specification values of the finite doubles (a zero, or a sign,
    mantissa and exponent), and of the zeros. *)
Definition finiteSF (a : spec_float) : Prop :=
  match a with
  | S754_zero _ | S754_finite _ _ _ => True
  | _ => False
  end.

Definition zeroSF (a : spec_float) : Prop :=
  match a with
  | S754_zero _ => True
  | _ => False
  end.

End Double.

#[export] Instance JsNumber_double : JsNumber float := {
  lit := Double.ofQ;
  add := PrimFloat.add;
  sub := PrimFloat.sub;
  mul := PrimFloat.mul;
  div := PrimFloat.div;
  Math_min := Double.min;
  Math_max := Double.max;
  Math_PI := Double.PI
}.

(** The spoke counts from 5 to 1004, as doubles. *)
Definition sampleSpokeCounts : list float :=
  map (fun n => ofNat (N := float) n) (seq 5 1000).

(** *** The real numbers: the same code without rounding *)

#[export] Instance JsNumber_real : JsNumber R := {
  lit := Q2R;
  add := Rplus;
  sub := Rminus;
  mul := Rmult;
  div := Rdiv;
  Math_min := Rmin;
  Math_max := Rmax;
  Math_PI := PI
}.

#[export] Instance JsTrig_real : JsTrig R := {
  Math_cos := cos;
  Math_sin := sin
}.

(** Partial sums, in the rationals, of the alternating series
    [2 atan(1/3) + atan(1/7) = pi/4]: they bracket [pi/4]. *)
Module PiSeries.

Fixpoint powQ (q : Q) (n : nat) : Q :=
  match n with
  | O => 1%Q
  | S i => (q * powQ q i)%Q
  end.

Definition term (n : nat) : Q :=
  (2 * (powQ (1 # 3) (2 * n + 1) / inject_Z (Z.of_nat (2 * n + 1)))
   + powQ (1 # 7) (2 * n + 1) / inject_Z (Z.of_nat (2 * n + 1)))%Q.

Fixpoint partialSum (n : nat) : Q :=
  match n with
  | O => term 0
  | S i => (partialSum i + powQ (-1) (S i) * term (S i))%Q
  end.

End PiSeries.

(* ===================================================================== *)
(** ** Constants ([chartConstants.ts]) *)
(* ===================================================================== *)

Module CHART_DEFAULTS.
Definition MINIMUM_SPOKES : nat := 5.
Definition GRID_LEVELS : nat := 5.
Definition PADDING : Q := 60.
End CHART_DEFAULTS.

Module ANIMATION_CONFIG.
Definition CONTROL_POINT_DISTANCE : Q := 0.15.
End ANIMATION_CONFIG.

(* ===================================================================== *)
(** ** Chart calculations ([useChartCalculations], [useChartDimensions]) *)
(* ===================================================================== *)

(** [interface Point] *)
Record Point (N : Type) : Type := mkXY {
  x : N;
  y : N
}.
Arguments mkXY {N} _ _.
Arguments x {N} _.
Arguments y {N} _.

(** [interface ChartDimensions] *)
Record ChartDimensions (N : Type) : Type := mkDimensions {
  centerX : N;
  centerY : N;
  radius : N;
  spokeCount : N;
  angleStep : N
}.
Arguments mkDimensions {N} _ _ _ _ _.
Arguments centerX {N} _.
Arguments centerY {N} _.
Arguments radius {N} _.
Arguments spokeCount {N} _.
Arguments angleStep {N} _.

(** An element of [staticDataPoints]. *)
Record StaticDataPoint (N : Type) : Type := mkStatic {
  s_angle : N;
  s_maxRadius : N;
  s_centerX : N;
  s_centerY : N;
  s_cos : N;
  s_sin : N
}.
Arguments mkStatic {N} _ _ _ _ _ _.
Arguments s_angle {N} _.
Arguments s_maxRadius {N} _.
Arguments s_centerX {N} _.
Arguments s_centerY {N} _.
Arguments s_cos {N} _.
Arguments s_sin {N} _.

Module Chart.
Import JsString CHART_DEFAULTS ANIMATION_CONFIG.

Section Normalizer.
Context {N : Type} `{JsNumber N}.

(** The point pushed by the padding loop when the array has [len]
    elements: [{ name: `Point ${len + 1}`, value: 0 }]. *)
Definition paddingPoint (len : nat) : RadarChartDataPoint N :=
  mkPoint ("Point " ++ ofIndex (len + 1)) (lit 0).

(** [while (processedData.length < MINIMUM_SPOKES) processedData.push(...)] *)
Equations normalizeLoop (processedData : list (RadarChartDataPoint N))
  : list (RadarChartDataPoint N)
  by wf (MINIMUM_SPOKES - length processedData) lt :=
normalizeLoop processedData with lt_dec (length processedData) MINIMUM_SPOKES := {
  | left _ =>
      normalizeLoop (processedData ++ [paddingPoint (length processedData)]);
  | right _ => processedData
}.
Next Obligation.
  intros processedData Hlt _. rewrite length_app. simpl.
  unfold MINIMUM_SPOKES in *. lia.
Qed.

(** [normalizedData]: the loop run on a copy of [data]. *)
Definition normalizedData (data : list (RadarChartDataPoint N))
  : list (RadarChartDataPoint N) :=
  normalizeLoop data.

End Normalizer.

Section Geometry.
Context {N : Type} `{JsNumber N}.
Local Open Scope js_scope.

(** [useChartDimensions(width, height, spokeCount)] *)
Definition useChartDimensions (width height spokeCount : N)
  : ChartDimensions N :=
  let centerX := width / lit 2 in
  let centerY := height / lit 2 in
  let radius := Math_min width height / lit 2 - lit PADDING in
  let actualSpokeCount := Math_max (ofNat MINIMUM_SPOKES) spokeCount in
  let angleStep := (lit 2 * Math_PI) / actualSpokeCount in
  mkDimensions centerX centerY radius actualSpokeCount angleStep.

(** [dimensions] of [useChartCalculations]: the spoke count is the length
    of the normalized data. *)
Definition dimensions (width height : N)
    (normalizedData : list (RadarChartDataPoint N)) : ChartDimensions N :=
  let centerX := width / lit 2 in
  let centerY := height / lit 2 in
  let radius := Math_min width height / lit 2 - lit PADDING in
  let spokeCount := ofNat (length normalizedData) in
  let angleStep := (lit 2 * Math_PI) / spokeCount in
  mkDimensions centerX centerY radius spokeCount angleStep.

Context `{JsTrig N}.

(** The callback of [normalizedData.map] in [staticDataPoints]. *)
Definition staticDataPoint (dims : ChartDimensions N) (maxValue : N)
    (index : nat) (dataPoint : RadarChartDataPoint N) : StaticDataPoint N :=
  let angle := ofNat index * angleStep dims - Math_PI / lit 2 in
  let clampedValue := Math_max (lit 0) (Math_min maxValue (value dataPoint)) in
  let maxPointRadius := (radius dims * clampedValue) / maxValue in
  mkStatic angle maxPointRadius (centerX dims) (centerY dims)
    (Math_cos angle) (Math_sin angle).

Definition staticDataPoints (dims : ChartDimensions N)
    (normalizedData : list (RadarChartDataPoint N)) (maxValue : N)
  : list (StaticDataPoint N) :=
  imap (staticDataPoint dims maxValue) normalizedData.

(** The callback of [staticDataPoints.map] in [dataPoints]. *)
Definition animatedPoint (animationProgress : N) (sp : StaticDataPoint N)
  : Point N :=
  let animatedRadius := s_maxRadius sp * animationProgress in
  mkXY (s_centerX sp + animatedRadius * s_cos sp)
       (s_centerY sp + animatedRadius * s_sin sp).

Definition dataPoints (staticDataPoints : list (StaticDataPoint N))
    (animationProgress : N) : list (Point N) :=
  map (animatedPoint animationProgress) staticDataPoints.

End Geometry.

(** The strings of a list, one after the other. *)
Definition joinAll (parts : list string) : string :=
  fold_right String.append "" parts.

Section PathBuilder.
Context {N : Type} `{JsNumber N}.
Local Open Scope js_scope.

(** [Number.prototype.toFixed]. *)
Variable Number_toFixed : N -> nat -> string.

Definition moveTo (p : Point N) : string :=
  "M " ++ Number_toFixed (x p) 2 ++ " " ++ Number_toFixed (y p) 2.

(** The text appended to [path] by one iteration of the loop of
    [radarPath], for the points [current] and [next]. *)
Definition curveTo (current next : Point N) : string :=
  let dx := x next - x current in
  let dy := y next - y current in
  let cp1x := x current + dx * lit CONTROL_POINT_DISTANCE in
  let cp1y := y current + dy * lit CONTROL_POINT_DISTANCE in
  let cp2x := x next - dx * lit CONTROL_POINT_DISTANCE in
  let cp2y := y next - dy * lit CONTROL_POINT_DISTANCE in
  " C " ++ Number_toFixed cp1x 2 ++ " " ++ Number_toFixed cp1y 2 ++ ", "
  ++ Number_toFixed cp2x 2 ++ " " ++ Number_toFixed cp2y 2 ++ ", "
  ++ Number_toFixed (x next) 2 ++ " " ++ Number_toFixed (y next) 2.

(** [for (let i = 0; i < dataPoints.length; i++)], over the values [i]
    still to come.  Reading a member of an absent element ([undefined])
    throws: the result is then [None]. *)
Fixpoint radarPathLoop (dataPoints : list (Point N)) (indices : list nat)
    (path : string) : option string :=
  match indices with
  | [] => Some path
  | i :: rest =>
      current ← dataPoints !! i;
      next ← dataPoints !! ((i + 1) mod length dataPoints);
      radarPathLoop dataPoints rest (path ++ curveTo current next)%string
  end.

(** [radarPath] *)
Definition radarPath (dataPoints : list (Point N)) : option string :=
  if Nat.eqb (length dataPoints) 0 then Some ""
  else
    first ← dataPoints !! 0;
    path ← radarPathLoop dataPoints (seq 0 (length dataPoints)) (moveTo first);
    Some (path ++ " Z")%string.

(** The path as the specification words it: a move to the first point,
    one curve per pair of consecutive points, the last point paired with
    the first, then the closing marker. *)
Definition consecutivePairs (points : list (Point N))
  : list (Point N * Point N) :=
  match points with
  | [] => []
  | first :: rest => zip points (rest ++ [first])
  end.

Definition smoothClosedPath_spec (points : list (Point N)) : string :=
  match points with
  | [] => ""
  | first :: _ =>
      (moveTo first
       ++ joinAll (map (fun cn => curveTo (fst cn) (snd cn))
                     (consecutivePairs points))
       ++ " Z")%string
  end.

End PathBuilder.

End Chart.

(* ===================================================================== *)
(** ** A rendering of integral doubles *)
(* ===================================================================== *)

(** [Number.prototype.toString] on the doubles whose rendering needs no
    digit generation: the integers below 10^21 in magnitude (decimal
    digits, as ECMAScript prints them), zero, NaN and the infinities.  The
    closed examples below instantiate the engine primitive with it; they
    only render integers.  Any other double is left unrendered (empty). *)
Module DoubleToString.

Definition ofInteger (negative : bool) (magnitude : Z) : string :=
  if (magnitude <? 10 ^ 21)%Z then
    ((if negative then "-" else "")
     ++ NilZero.string_of_uint (N.to_uint (Z.to_N magnitude)))%string
  else "".

Definition integralToString (d : float) : string :=
  match Prim2SF d with
  | S754_nan => "NaN"
  | S754_infinity false => "Infinity"
  | S754_infinity true => "-Infinity"
  | S754_zero _ => "0"
  | S754_finite s m e =>
      if (0 <=? e)%Z then ofInteger s (Zpos m * 2 ^ e)
      else if (Zpos m mod 2 ^ (- e) =? 0)%Z
           then ofInteger s (Zpos m / 2 ^ (- e))
           else ""
  end.

End DoubleToString.

(* ===================================================================== *)
(** ** Formatting of validation results ([validationUtils.ts]) *)
(* ===================================================================== *)

Module ValidationFormat.
Import JsString Validator.

(** The string of an error type, as it keys [errorsByType]. *)
Definition typeName (t : ErrorType) : string :=
  match t with
  | MISSING_DATA => "MISSING_DATA"
  | INVALID_DATA_TYPE => "INVALID_DATA_TYPE"
  | EMPTY_VALUES => "EMPTY_VALUES"
  | INVALID_RANGE => "INVALID_RANGE"
  | DUPLICATE_NAMES => "DUPLICATE_NAMES"
  end.

(** The callback of [errors.reduce]: the error is pushed on the array
    stored under its type, created when absent. *)
Definition groupStep (acc : gmap string (list ValidationError))
    (error : ValidationError) : gmap string (list ValidationError) :=
  let key := typeName (e_type error) in
  <[ key := default [] (acc !! key) ++ [error] ]> acc.

(** [errorsByType] *)
Definition groupByType (errors : list ValidationError)
  : gmap string (list ValidationError) :=
  fold_left groupStep errors ∅.

(** [formatValidationErrors(errors)] *)
Definition formatValidationErrors (errors : list ValidationError) : string :=
  if Nat.eqb (length errors) 0 then ""
  else
    let errorsByType := groupByType errors in
    let messages1 :=
      match errorsByType !! "MISSING_DATA" with
      | Some _ => ["Data source is not properly configured."]
      | None => []
      end in
    let messages2 :=
      match errorsByType !! "EMPTY_VALUES" with
      | Some _ => ["No data is available to display."]
      | None => []
      end in
    let messages3 :=
      match errorsByType !! "INVALID_DATA_TYPE" with
      | Some group =>
          let count := length group in
          [(ofIndex count ++ " data "
            ++ (if Nat.eqb count 1 then "point has" else "points have")
            ++ " invalid format.")%string]
      | None => []
      end in
    let messages4 :=
      match errorsByType !! "DUPLICATE_NAMES" with
      | Some _ => ["Some category names are duplicated."]
      | None => []
      end in
    let messages5 :=
      match errorsByType !! "INVALID_RANGE" with
      | Some _ => ["Some values are outside the valid range."]
      | None => []
      end in
    String.concat " "
      (messages1 ++ messages2 ++ messages3 ++ messages4 ++ messages5).

(** [formatValidationWarnings(warnings)] *)
Definition formatValidationWarnings (warnings : list ValidationWarning)
  : list string :=
  map w_message warnings.

(** The errors of a list that are stored under a given key. *)
Definition errorsUnder (key : string) (errors : list ValidationError)
  : list ValidationError :=
  filter (fun e => typeName (e_type e) = key) errors.

(** The group of a key, from the errors stored under it: absent when
    there is none. *)
Definition groupOf (under : list ValidationError)
  : option (list ValidationError) :=
  match under with
  | [] => None
  | _ => Some under
  end.

End ValidationFormat.

(** Vocabulary for the statements about the Validator. *)
Module ValidatorTerms.
Import JsString Validator.

(** The name a point gets from the string [s] at [index]: [s] trimmed, or
    the default name when nothing is left. *)
Definition expectedName (index : nat) (s : string) : string :=
  if Nat.eqb (String.length (trim s)) 0 then defaultName index else trim s.

(** The key under which a processed name counts as seen. *)
Definition nameKey (p : RadarChartDataPoint float) : string :=
  toLowerCase (name p).

(** The slot holds an element. *)
Definition is_Some_bool (slot : option JsValue) : bool :=
  match slot with
  | Some _ => true
  | None => false
  end.

(** The calls that [forEach] makes on the slots of an array, from [index]
    on: the elements with their indices, in order, the holes left out. *)
Fixpoint visited (slots : list (option JsValue)) (index : nat)
  : list (nat * JsValue) :=
  match slots with
  | [] => []
  | Some point :: rest => (index, point) :: visited rest (S index)
  | None :: rest => visited rest (S index)
  end.

(** The number of holes of an array. *)
Definition holes (slots : list (option JsValue)) : nat :=
  length (List.filter (fun slot => negb (is_Some_bool slot)) slots).

(** An array without holes. *)
Definition dense (slots : list (option JsValue)) : Prop :=
  Forall (fun slot => slot <> None) slots.

(** Two code units that differ at most by case: the same, or a capital
    letter (A-Z, or a Latin-1 capital) and its small letter, 32 further. *)
Definition isCapital (c : ascii) : bool :=
  let n := nat_of_ascii c in
  (Nat.leb 65 n && Nat.leb n 90)
  || (Nat.leb 192 n && Nat.leb n 222 && negb (Nat.eqb n 215)).

Definition sameLetter (a b : ascii) : bool :=
  Ascii.eqb a b
  || (isCapital a && Nat.eqb (nat_of_ascii b) (nat_of_ascii a + 32))
  || (isCapital b && Nat.eqb (nat_of_ascii a) (nat_of_ascii b + 32)).

(** Two names that are equal when case is ignored: of one length, and
    letter by letter the same up to case. *)
Fixpoint equalIgnoringCase (s t : string) : bool :=
  match s, t with
  | EmptyString, EmptyString => true
  | String a s', String b t' => sameLetter a b && equalIgnoringCase s' t'
  | _, _ => false
  end.

(** The element passes the test [point && typeof point === "object"]. *)
Definition isObjectPoint (point : JsValue) : bool :=
  truthy point && String.eqb (typeof point) "object".

(** The slot at [index] holds an object whose name is the non-empty
    string [s]: a point whose name the Validator processes. *)
Definition namedPoint (slots : list (option JsValue)) (index : nat)
    (s : string) : Prop :=
  exists point,
    slots !! index = Some (Some point)
    /\ isObjectPoint point = true
    /\ getProp point "name" = JStr s /\ s <> "".

(** A name that [validateDataPointName] accepts: a non-empty string. *)
Definition acceptedName (v : JsValue) : bool :=
  match v with
  | JStr s => negb (String.eqb s "")
  | _ => false
  end.

(** A value that [validateDataPointValue] accepts: a number, not NaN. *)
Definition acceptedValue (v : JsValue) : bool :=
  match v with
  | JNum n => negb (PrimFloat.is_nan n)
  | _ => false
  end.

(** The error is the type error reported for [field] of the element at
    [index] ([None]: for the element itself). *)
Definition reportsDefect (field : option string) (index : nat)
    (e : ValidationError) : Prop :=
  e_type e = INVALID_DATA_TYPE /\ e_index e = Some index /\ e_field e = field.

(** Every defect of the element [point] at [index] has its error among
    [errs]: not an object; or an object whose name, or whose value, is not
    accepted. *)
Definition defectsReported (point : JsValue) (index : nat)
    (errs : list ValidationError) : Prop :=
  (isObjectPoint point = false ->
   exists e, e ∈ errs /\ reportsDefect None index e)
  /\ (isObjectPoint point = true ->
      acceptedName (getProp point "name") = false ->
      exists e, e ∈ errs /\ reportsDefect (Some "name") index e)
  /\ (isObjectPoint point = true ->
      acceptedValue (getProp point "value") = false ->
      exists e, e ∈ errs /\ reportsDefect (Some "value") index e).

(** What the loop may report for the elements from [first] on, [count] of
    them: errors and warnings carry the index of their element; the errors
    are type errors or duplicate names. *)
Definition loopError (first count : nat) (e : ValidationError) : Prop :=
  (exists i, e_index e = Some i /\ first <= i < first + count)
  /\ (e_type e = INVALID_DATA_TYPE \/ e_type e = DUPLICATE_NAMES).

Definition loopWarning (first count : nat) (w : ValidationWarning) : Prop :=
  exists i, w_index w = Some i /\ first <= i < first + count.

End ValidatorTerms.

(* ===================================================================== *)
(** ** The rest of [useChartCalculations]: grid, spokes, the hook *)
(* ===================================================================== *)

(** [interface SpokeData] *)
Record SpokeData (N : Type) : Type := mkSpoke {
  x1 : N;
  y1 : N;
  x2 : N;
  y2 : N
}.
Arguments mkSpoke {N} _ _ _ _.
Arguments x1 {N} _.
Arguments y1 {N} _.
Arguments x2 {N} _.
Arguments y2 {N} _.

(** What [useChartCalculations] returns.  [radarPath] is [None] if building
    it throws. *)
Record ChartCalculations (N : Type) : Type := mkCalculations {
  c_dimensions : ChartDimensions N;
  c_gridPolygons : list string;
  c_dataPoints : list (Point N);
  c_radarPath : option string;
  c_spokes : list (SpokeData N);
  c_normalizedData : list (RadarChartDataPoint N)
}.
Arguments mkCalculations {N} _ _ _ _ _ _.
Arguments c_dimensions {N} _.
Arguments c_gridPolygons {N} _.
Arguments c_dataPoints {N} _.
Arguments c_radarPath {N} _.
Arguments c_spokes {N} _.
Arguments c_normalizedData {N} _.

Module ChartHook.
Import JsString CHART_DEFAULTS ANIMATION_CONFIG Chart.

Section Hook.
Context {N : Type} `{JsNumber N} `{JsTrig N}.
Local Open Scope js_scope.

Variable Number_toFixed : N -> nat -> string.

(** The point at distance [levelRadius] from the center on the spoke of
    index [spoke]: the [x] and [y] of the inner loop of [gridPolygons]. *)
Definition gridVertex (dims : ChartDimensions N) (levelRadius : N)
    (spoke : nat) : Point N :=
  let angle := ofNat spoke * angleStep dims - Math_PI / lit 2 in
  mkXY (centerX dims + levelRadius * Math_cos angle)
       (centerY dims + levelRadius * Math_sin angle).

(** [levelRadius] of the grid level [level]. *)
Definition levelRadius (dims : ChartDimensions N) (level : nat) : N :=
  (radius dims * ofNat level) / ofNat GRID_LEVELS.

(** One entry of [gridPolygons]: the vertices of the level, each printed
    as [x,y], joined by spaces.  [count] is the integer [spokeCount], the
    bound of the inner loop. *)
Definition gridPolygon (dims : ChartDimensions N) (count : nat)
    (level : nat) : string :=
  String.concat " "
    (map (fun spoke =>
            let v := gridVertex dims (levelRadius dims level) spoke in
            (Number_toFixed (x v) 2 ++ "," ++ Number_toFixed (y v) 2)%string)
       (seq 0 count)).

(** [gridPolygons]: the levels 1 to [GRID_LEVELS]. *)
Definition gridPolygons (dims : ChartDimensions N) (count : nat)
  : list string :=
  map (gridPolygon dims count) (seq 1 GRID_LEVELS).

(** One entry of [spokes]. *)
Definition spoke (dims : ChartDimensions N) (i : nat) : SpokeData N :=
  let angle := ofNat i * angleStep dims - Math_PI / lit 2 in
  let endX := centerX dims + radius dims * Math_cos angle in
  let endY := centerY dims + radius dims * Math_sin angle in
  mkSpoke (centerX dims) (centerY dims) endX endY.

(** [spokes] *)
Definition spokes (dims : ChartDimensions N) (count : nat)
  : list (SpokeData N) :=
  map (spoke dims) (seq 0 count).

(** [useChartCalculations(width, height, data, maxValue,
    animationProgress)].  The spoke count of the dimensions is the length of
    the normalized data, which bounds the loops over the spokes. *)
Definition useChartCalculations (width height : N)
    (data : list (RadarChartDataPoint N)) (maxValue animationProgress : N)
  : ChartCalculations N :=
  let normalizedData := normalizedData data in
  let dims := dimensions width height normalizedData in
  let count := length normalizedData in
  let gridPolygons := gridPolygons dims count in
  let staticDataPoints := staticDataPoints dims normalizedData maxValue in
  let dataPoints := dataPoints staticDataPoints animationProgress in
  let radarPath := radarPath Number_toFixed dataPoints in
  let spokes := spokes dims count in
  mkCalculations dims gridPolygons dataPoints radarPath spokes normalizedData.

End Hook.

End ChartHook.

(* ===================================================================== *)
(** ** Tooltip placement ([calculateTooltipPosition]) *)
(* ===================================================================== *)

(** The relational operator [<] of a [number]; [a > b] is [b < a]. *)
Class JsCompare (N : Type) : Type := {
  js_lt : N -> N -> bool
}.

Definition js_gt {N : Type} `{JsCompare N} (a b : N) : bool := js_lt b a.

#[export] Instance JsCompare_double : JsCompare float := {
  js_lt := PrimFloat.ltb
}.

#[export] Instance JsCompare_real : JsCompare R := {
  js_lt a b := if Rlt_dec a b then true else false
}.

Module TOOLTIP_CONFIG.
Definition WIDTH : Q := 80.
Definition HEIGHT : Q := 32.
Definition MARGIN : Q := 10.
Definition RIGHT_OFFSET : Q := 20.
End TOOLTIP_CONFIG.

(** The members of a [DOMRect] that give its size. *)
Record DOMRect (N : Type) : Type := mkRect {
  rect_width : N;
  rect_height : N
}.
Arguments mkRect {N} _ _.
Arguments rect_width {N} _.
Arguments rect_height {N} _.

Module Tooltip.
Import TOOLTIP_CONFIG.

Section Placement.
Context {N : Type} `{JsNumber N} `{JsCompare N}.
Local Open Scope js_scope.

(** [calculateTooltipPosition(mouseX, mouseY, containerRect)]; the three
    [if] statements reassign [tooltipX] and [tooltipY] in turn. *)
Definition calculateTooltipPosition (mouseX mouseY : N)
    (containerRect : DOMRect N) : Point N :=
  let tooltipWidth := lit WIDTH in
  let tooltipHeight := lit HEIGHT in
  let margin := lit MARGIN in
  let rightOffset := lit RIGHT_OFFSET in
  let tooltipX := mouseX - tooltipWidth / lit 2 + rightOffset in
  let tooltipY := mouseY - tooltipHeight - margin in
  let tooltipX :=
    if js_gt (tooltipX + tooltipWidth) (rect_width containerRect)
    then mouseX - tooltipWidth - margin else tooltipX in
  let tooltipX :=
    if js_lt tooltipX (lit 0) then mouseX + margin else tooltipX in
  let tooltipY :=
    if js_lt tooltipY (lit 0) then mouseY + margin else tooltipY in
  mkXY tooltipX tooltipY.

End Placement.

End Tooltip.

(* ===================================================================== *)
(** ** State of the data source ([isDataSourceLoading] and the like) *)
(* ===================================================================== *)

Module DataSource.

(** [a && b] on values: [a] if it is falsy, else [b]. *)
Definition js_and (a b : JsValue) : JsValue :=
  if truthy a then b else a.

(** [v === s] for a string literal [s]. *)
Definition strictEqualsString (v : JsValue) (s : string) : bool :=
  match v with
  | JStr t => String.eqb t s
  | _ => false
  end.

(** [dataSource && dataSource.status === "loading"] *)
Definition isDataSourceLoading (dataSource : JsValue) : JsValue :=
  js_and dataSource
    (JBool (strictEqualsString (getProp dataSource "status") "loading")).

(** [dataSource && dataSource.status === "available" && dataSource.items] *)
Definition isDataSourceAvailable (dataSource : JsValue) : JsValue :=
  js_and
    (js_and dataSource
       (JBool (strictEqualsString (getProp dataSource "status") "available")))
    (getProp dataSource "items").

(** [dataSource && dataSource.status === "unavailable"] *)
Definition hasDataSourceError (dataSource : JsValue) : JsValue :=
  js_and dataSource
    (JBool (strictEqualsString (getProp dataSource "status") "unavailable")).

End DataSource.

(* ===================================================================== *)
(** ** Accessible descriptions of the chart *)
(* ===================================================================== *)

(** The text functions that follow the Validator in [validationUtils.ts].
    Their data is typed ([RadarChartDataPoint[]], never null past the type
    checker) and its values are doubles.  An optional parameter left out is
    [None]. *)
Module A11y.
Import JsString.
Local Open Scope string_scope.

(** [polygonNames[effectiveSides] || `${effectiveSides}-sided polygon`],
    for the integer [data.length] every caller passes. *)
Definition getPolygonType (sides : nat) : string :=
  let effectiveSides := Nat.max 5 sides in
  match effectiveSides with
  | 5 => "Pentagon"
  | 6 => "Hexagon"
  | 7 => "Heptagon"
  | 8 => "Octagon"
  | 9 => "Nonagon"
  | 10 => "Decagon"
  | _ => ofIndex effectiveSides ++ "-sided polygon"
  end.

(** [point => point.value > 0] *)
Definition isPositive (point : RadarChartDataPoint float) : bool :=
  js_gt (value point) 0%float.

(** A number that is neither NaN nor a zero: what the positive values
    are, and the infinities the extremes start from. *)
Definition plain (v : float) : Prop :=
  PrimFloat.is_nan v = false /\ PrimFloat.is_zero v = false.

(** [title ? ... : ...] for the optional string [title]. *)
Definition hasTitle (title : option string) : bool :=
  match title with
  | Some t => negb (String.eqb t "")
  | None => false
  end.

(** [generateAriaLabel(data, title, hasClickAction)] *)
Definition generateAriaLabel (data : list (RadarChartDataPoint float))
    (title : option string) (hasClickAction : option bool) : string :=
  let polygonType := getPolygonType (length data) in
  let baseLabel :=
    if hasTitle title
    then default "" title ++ " " ++ toLowerCase polygonType ++ " radar chart"
    else polygonType ++ " radar chart" in
  let validDataCount := length (List.filter isPositive data) in
  let countLabel :=
    " with " ++ ofIndex validDataCount ++ " data "
    ++ (if Nat.eqb validDataCount 1 then "point" else "points") in
  let interactionLabel :=
    if default false hasClickAction then ", interactive" else "" in
  baseLabel ++ countLabel ++ interactionLabel.

(** The filter of [generateLiveRegionUpdate]: the new points whose value
    differs by more than 0.5 from the old point of the same index. *)
Definition significantChanges
    (oldData newData : list (RadarChartDataPoint float))
  : list (RadarChartDataPoint float) :=
  map snd
    (List.filter
       (fun '(index, newPoint) =>
          match oldData !! index with
          | Some oldPoint =>
              js_gt (PrimFloat.abs (value newPoint - value oldPoint)%float)
                    0.5%float
          | None => false
          end)
       (combine (seq 0 (length newData)) newData)).

(** [generateLiveRegionUpdate(oldData, newData)] *)
Definition generateLiveRegionUpdate
    (oldData newData : list (RadarChartDataPoint float)) : string :=
  if Nat.eqb (length oldData) 0 then
    "Chart updated with " ++ ofIndex (length newData) ++ " data points."
  else if negb (Nat.eqb (length newData) (length oldData)) then
    "Chart data changed from " ++ ofIndex (length oldData) ++ " to "
    ++ ofIndex (length newData) ++ " data points."
  else
    let changes := significantChanges oldData newData in
    if Nat.ltb 0 (length changes) then
      "Chart updated with " ++ ofIndex (length changes)
      ++ " significant value changes."
    else "Chart data updated.".

(** [Math.max(...values)] and [Math.min(...values)]: the arguments are
    taken in turn, from negative (positive) infinity. *)
Definition Math_max_of (values : list float) : float :=
  fold_left Double.max values PrimFloat.neg_infinity.

Definition Math_min_of (values : list float) : float :=
  fold_left Double.min values PrimFloat.infinity.

(** [validData.find(point => point.value === v)?.name] *)
Definition categoryOf (validData : list (RadarChartDataPoint float))
    (v : float) : option string :=
  match List.find (fun point => PrimFloat.eqb (value point) v) validData with
  | Some point => Some (name point)
  | None => None
  end.

(** An optional string inside a template literal. *)
Definition showCategory (category : option string) : string :=
  default "undefined" category.

Section WithToFixed.

Variable Number_toFixed : float -> nat -> string.

(** [generateChartSummary(data)] *)
Definition generateChartSummary (data : list (RadarChartDataPoint float))
  : string :=
  if Nat.eqb (length data) 0 then "No data available."
  else
    let validData := List.filter isPositive data in
    if Nat.eqb (length validData) 0 then "All data points are zero."
    else
      let values := map value validData in
      let sum := fold_left PrimFloat.add values 0%float in
      let average := (sum / ofNat (length values))%float in
      let highest := Math_max_of values in
      let lowest := Math_min_of values in
      let highestCategory := categoryOf validData highest in
      let lowestCategory := categoryOf validData lowest in
      "Average score: " ++ Number_toFixed average 1
      ++ ". Highest: " ++ showCategory highestCategory
      ++ " (" ++ Number_toFixed highest 1
      ++ "). Lowest: " ++ showCategory lowestCategory
      ++ " (" ++ Number_toFixed lowest 1 ++ ").".

End WithToFixed.

End A11y.
(* ===================================================================== *)
(** ** Order facts on doubles *)
(* ===================================================================== *)

(** The comparisons of binary64 values, read through their specification
    ([SpecFloat]): what the clamping code relies on. *)
Module JsNumberOrder.

Lemma SFcompare_antisym (x y : spec_float) :
  SFcompare y x = option_map CompOpp (SFcompare x y).
Proof.
  destruct x as [sx|sx| |sx mx ex], y as [sy|sy| |sy my ey]; simpl;
    try reflexivity;
    try (destruct sx; reflexivity); try (destruct sy; reflexivity);
    try (destruct sx, sy; reflexivity).
  destruct sx, sy; simpl; try reflexivity;
    rewrite (Z.compare_antisym ex ey);
    destruct (ex ?= ey)%Z; simpl; try reflexivity;
    change (Pos.compare_cont Eq my mx) with (Pos.compare my mx);
    change (Pos.compare_cont Eq mx my) with (Pos.compare mx my);
    rewrite (Pos.compare_antisym mx my);
    destruct (mx ?= my)%positive; reflexivity.
Qed.

Lemma SFcompare_refl (x : spec_float) :
  x <> S754_nan -> SFcompare x x = Some Eq.
Proof.
  destruct x as [sx|sx| |sx mx ex]; simpl; intros Hx;
    try congruence; try (destruct sx; reflexivity).
  destruct sx; rewrite Z.compare_refl;
    change (Pos.compare_cont Eq mx mx) with (Pos.compare mx mx);
    rewrite Pos.compare_refl; reflexivity.
Qed.

Lemma SFcompare_nan_l (x y : spec_float) (c : comparison) :
  SFcompare x y = Some c -> x <> S754_nan.
Proof. destruct x; simpl; congruence. Qed.

Lemma SFcompare_nan_r (x y : spec_float) (c : comparison) :
  SFcompare x y = Some c -> y <> S754_nan.
Proof. destruct x, y; simpl; congruence. Qed.

Lemma SFcompare_total (x y : spec_float) :
  x <> S754_nan -> y <> S754_nan -> exists c, SFcompare x y = Some c.
Proof.
  destruct x, y; simpl; intros Hx Hy; try congruence; eauto.
Qed.

(** [isNaN(x)] in terms of the specification. *)
Lemma is_nan_false (x : float) :
  PrimFloat.is_nan x = false <-> Prim2SF x <> S754_nan.
Proof.
  unfold PrimFloat.is_nan. rewrite FloatAxioms.eqb_spec. unfold SFeqb. split.
  - intros H Hn. rewrite Hn in H. discriminate H.
  - intros H. rewrite (SFcompare_refl _ H). reflexivity.
Qed.

Lemma ltb_not_nan (x y : float) :
  (x <? y)%float = true ->
  PrimFloat.is_nan x = false /\ PrimFloat.is_nan y = false.
Proof.
  rewrite FloatAxioms.ltb_spec. unfold SFltb.
  destruct (SFcompare (Prim2SF x) (Prim2SF y)) as [c|] eqn:E;
    [|discriminate].
  intros _. split; apply is_nan_false;
    [eapply SFcompare_nan_l | eapply SFcompare_nan_r]; exact E.
Qed.

Lemma leb_not_nan (x y : float) :
  (x <=? y)%float = true ->
  PrimFloat.is_nan x = false /\ PrimFloat.is_nan y = false.
Proof.
  rewrite FloatAxioms.leb_spec. unfold SFleb.
  destruct (SFcompare (Prim2SF x) (Prim2SF y)) as [c|] eqn:E;
    [|discriminate].
  intros _. split; apply is_nan_false;
    [eapply SFcompare_nan_l | eapply SFcompare_nan_r]; exact E.
Qed.

Lemma leb_refl (x : float) :
  PrimFloat.is_nan x = false -> (x <=? x)%float = true.
Proof.
  intros H. apply is_nan_false in H.
  rewrite FloatAxioms.leb_spec. unfold SFleb. rewrite (SFcompare_refl _ H). reflexivity.
Qed.

Lemma ltb_irrefl (x : float) : (x <? x)%float = false.
Proof.
  rewrite FloatAxioms.ltb_spec. unfold SFltb.
  destruct (SFcompare (Prim2SF x) (Prim2SF x)) as [c|] eqn:E;
    [|reflexivity].
  pose proof (SFcompare_refl _ (SFcompare_nan_l _ _ _ E)) as R.
  rewrite R in E. injection E as <-. reflexivity.
Qed.

(** On numbers, [not (x < y)] is [y <= x]. *)
Lemma not_ltb_leb (x y : float) :
  PrimFloat.is_nan x = false -> PrimFloat.is_nan y = false ->
  (x <? y)%float = false -> (y <=? x)%float = true.
Proof.
  intros Hx Hy. apply is_nan_false in Hx. apply is_nan_false in Hy.
  rewrite FloatAxioms.ltb_spec, FloatAxioms.leb_spec. unfold SFltb, SFleb.
  rewrite (SFcompare_antisym (Prim2SF x) (Prim2SF y)).
  destruct (SFcompare_total _ _ Hx Hy) as [c ->].
  destruct c; simpl; congruence.
Qed.

Lemma leb_not_gtb (x y : float) :
  (x <=? y)%float = true -> (y <? x)%float = false.
Proof.
  rewrite FloatAxioms.ltb_spec, FloatAxioms.leb_spec. unfold SFltb, SFleb.
  rewrite (SFcompare_antisym (Prim2SF x) (Prim2SF y)).
  destruct (SFcompare (Prim2SF x) (Prim2SF y)) as [[]|]; simpl; congruence.
Qed.

Lemma ltb_leb (a b : float) :
  (a <? b)%float = true -> (a <=? b)%float = true.
Proof.
  rewrite FloatAxioms.ltb_spec, FloatAxioms.leb_spec. unfold SFltb, SFleb.
  destruct (SFcompare (Prim2SF a) (Prim2SF b)) as [[]|]; congruence.
Qed.

End JsNumberOrder.

(* ===================================================================== *)
(** ** Arithmetic facts on doubles *)
(* ===================================================================== *)

(** Multiplication by one and by zero and addition of zero, read through
    the specification of binary64 arithmetic: the cases in which the
    animated point is computed without rounding. *)
Module DoubleArith.
Import JsNumberOrder Double.

Lemma Prim2SF_inj (a b : float) : Prim2SF a = Prim2SF b -> a = b.
Proof.
  intros E. rewrite <- (SF2Prim_Prim2SF a), <- (SF2Prim_Prim2SF b).
  now rewrite E.
Qed.

Lemma digits2_pos_shift52 (m : positive) :
  Zpos (digits2_pos (4503599627370496 * m)) = (Zpos (digits2_pos m) + 52)%Z.
Proof.
  change (4503599627370496 * m)%positive with (Pos.iter xO m 52).
  cbn [Pos.iter digits2_pos]. lia.
Qed.

Lemma shr_shift52 (m : positive) (e : Z) :
  shr (shr_record_of_loc (Zpos (4503599627370496 * m)) loc_Exact) e 52
  = (Build_shr_record (Zpos m) false false, (e + 52)%Z).
Proof. reflexivity. Qed.

Lemma SFmul_one_r (a : spec_float) :
  valid_binary a = true ->
  SF64mul a (S754_finite false 4503599627370496 (-52)) = a.
Proof.
  destruct a as [s|s| |s m e]; intros Hvalid;
    try (destruct s; reflexivity); try reflexivity.
  unfold SF64mul, SFmul. rewrite xorb_false_r, Pos.mul_comm.
  unfold valid_binary, SpecFloat.valid_binary, bounded, canonical_mantissa
    in Hvalid.
  apply andb_true_iff in Hvalid as [Hcanon Hle].
  apply Z.eqb_eq in Hcanon.
  unfold binary_round_aux, shr_fexp.
  unfold Zdigits2 at 1. rewrite digits2_pos_shift52.
  replace (Z.pos (digits2_pos m) + 52 + (e + -52))%Z
    with (Z.pos (digits2_pos m) + e)%Z by lia.
  rewrite Hcanon.
  replace (e - (e + -52))%Z with 52%Z by lia.
  rewrite shr_shift52.
  replace (e + -52 + 52)%Z with e by lia.
  cbn [shr_m loc_of_shr_record round_nearest_even Zdigits2 shr_record_of_loc].
  rewrite Hcanon, Z.sub_diag. cbn [shr shr_m].
  now rewrite Hle.
Qed.

(** [a * 1] is [a], for every double. *)
Lemma mul_one_r (a : float) : (a * 1)%float = a.
Proof.
  apply Prim2SF_inj. rewrite mul_spec.
  change (Prim2SF 1) with (S754_finite false 4503599627370496 (-52)).
  apply SFmul_one_r, Prim2SF_valid.
Qed.

Lemma is_finite_SF (a : float) :
  PrimFloat.is_finite a = true -> finiteSF (Prim2SF a).
Proof.
  unfold PrimFloat.is_finite, PrimFloat.is_nan, PrimFloat.is_infinity.
  rewrite !FloatAxioms.eqb_spec, abs_spec.
  change (Prim2SF infinity) with (S754_infinity false).
  destruct (Prim2SF a) as [s|s| |s m e]; try (intros _; exact I).
  - unfold SFabs, SFeqb, SFcompare. destruct s; discriminate.
  - unfold SFabs, SFeqb, SFcompare. discriminate.
Qed.

Lemma SFmul_zero (a b : spec_float) :
  finiteSF a -> zeroSF b -> zeroSF (SF64mul a b).
Proof. destruct a, b; simpl; intros Ha Hb; try contradiction; exact I. Qed.

Lemma SFmul_zero_l (a b : spec_float) :
  zeroSF a -> finiteSF b -> zeroSF (SF64mul a b).
Proof. destruct a, b; simpl; intros Ha Hb; try contradiction; exact I. Qed.

Lemma SFadd_zero_eqb (a b : spec_float) :
  finiteSF a -> zeroSF b -> SFeqb (SF64add a b) a = true.
Proof.
  destruct a as [sa|sa| |sa ma ea], b as [sb|sb| |sb mb eb]; simpl;
    intros Ha Hb; try contradiction.
  - destruct sa, sb; reflexivity.
  - unfold SFeqb.
    rewrite (SFcompare_refl (S754_finite sa ma ea)) by discriminate.
    reflexivity.
Qed.

(** [c + (r * 0) * t] is [c] (as [===] compares), for finite doubles. *)
Lemma add_mul_zero (c r t : float) :
  PrimFloat.is_finite c = true -> PrimFloat.is_finite r = true ->
  PrimFloat.is_finite t = true ->
  (c + r * 0 * t =? c)%float = true.
Proof.
  intros Hc Hr Ht.
  apply is_finite_SF in Hc. apply is_finite_SF in Hr. apply is_finite_SF in Ht.
  rewrite FloatAxioms.eqb_spec, add_spec, !mul_spec.
  change (Prim2SF 0) with (S754_zero false).
  apply SFadd_zero_eqb; [exact Hc|].
  apply SFmul_zero_l; [|exact Ht].
  apply SFmul_zero; [exact Hr | exact I].
Qed.

End DoubleArith.

(* ===================================================================== *)
(** ** Bounds on pi *)
(* ===================================================================== *)

Module PiBounds.
Import PiSeries.
Local Open Scope R_scope.

Lemma Q2R_powQ (q : Q) (n : nat) : Q2R (powQ q n) = Q2R q ^ n.
Proof. induction n as [|n IH]; simpl; [lra|]. now rewrite Q2R_mult, IH. Qed.

Lemma Q2R_term (n : nat) : Q2R (term n) = PI_2_3_7_tg n.
Proof.
  unfold term, PI_2_3_7_tg, Ratan_seq.
  assert (Hn : ~ (inject_Z (Z.of_nat (2 * n + 1)) == 0)%Q).
  { unfold Qeq. simpl. lia. }
  rewrite Q2R_plus, Q2R_mult, !Q2R_div, !Q2R_powQ by exact Hn.
  replace (Q2R (inject_Z (Z.of_nat (2 * n + 1)))) with (INR (2 * n + 1)).
  2:{ rewrite INR_IZR_INZ. unfold Q2R. simpl. lra. }
  replace (Q2R 2) with 2 by (unfold Q2R; simpl; lra).
  replace (Q2R (1 # 3)) with (/ 3) by (unfold Q2R; simpl; lra).
  replace (Q2R (1 # 7)) with (/ 7) by (unfold Q2R; simpl; lra).
  reflexivity.
Qed.

Lemma Q2R_partialSum (n : nat) :
  Q2R (partialSum n) = sum_f_R0 (tg_alt PI_2_3_7_tg) n.
Proof.
  induction n as [|n IH]; simpl.
  - rewrite Q2R_term. unfold tg_alt. simpl. lra.
  - rewrite Q2R_plus, Q2R_mult, IH, Q2R_mult, Q2R_powQ, Q2R_term.
    unfold tg_alt.
    replace (Q2R (-1)) with (-1) by (unfold Q2R; simpl; lra).
    simpl. lra.
Qed.

(** [pi/4] to ten decimals. *)
Lemma PI_4_bounds : 0.78539816335 <= PI / 4 <= 0.78539816345.
Proof.
  destruct (PI_2_3_7_ineq 5) as [Hlo Hhi].
  rewrite <- Q2R_partialSum in Hlo, Hhi.
  split.
  - eapply Rle_trans; [|exact Hlo].
    replace 0.78539816335 with (Q2R 0.78539816335)
      by (unfold Q2R; simpl; lra).
    apply Qle_Rle. vm_compute. discriminate.
  - eapply Rle_trans; [exact Hhi|].
    replace 0.78539816345 with (Q2R 0.78539816345)
      by (unfold Q2R; simpl; lra).
    apply Qle_Rle. vm_compute. discriminate.
Qed.

End PiBounds.

(* ===================================================================== *)
(** ** Properties of the Validator *)
(* ===================================================================== *)

Module ValidatorFacts.
Import JsString Validator JsNumberOrder ValidatorTerms.

(** The name handed back by [validateDataPointName] is never empty: it is
    the trimmed input when that is non-empty, the default otherwise. *)
Lemma processedName_truthy (name : JsValue) (index : nat) (seen : gset string) :
  String.eqb (processedName (fst (validateDataPointName name index seen))) ""
  = false.
Proof.
  unfold validateDataPointName.
  destruct (negb (truthy name) || negb (String.eqb (typeof name) "string"));
    [reflexivity|].
  set (trimmed := trim _).
  destruct (Nat.eqb (String.length trimmed) 0) eqn:Hlen.
  - destruct (decide _); reflexivity.
  - assert (Ht : String.eqb trimmed "" = false).
    { destruct trimmed; [discriminate Hlen | reflexivity]. }
    destruct (decide _); exact Ht.
Qed.

(** Duplicate detection compares lower-cased names: a name whose
    lower-case form has been seen gets the error DUPLICATE_NAMES at its own
    index and leaves the set as it is; another name gets no error and is
    recorded. *)
Lemma validateDataPointName_duplicates (s : string) (index : nat)
    (seen : gset string) :
  s <> "" ->
  let r := validateDataPointName (JStr s) index seen in
  let key := toLowerCase (processedName (fst r)) in
  (key ∈ seen ->
   snd r = seen
   /\ exists message,
        n_errors (fst r)
        = [mkError DUPLICATE_NAMES message (Some "name") (Some index)])
  /\ (key ∉ seen -> snd r = {[ key ]} ∪ seen /\ n_errors (fst r) = []).
Proof.
  intros Hs. unfold validateDataPointName.
  assert (Hguard : negb (truthy (JStr s))
                   || negb (String.eqb (typeof (JStr s)) "string") = false).
  { simpl. destruct s; [contradiction | reflexivity]. }
  rewrite Hguard. set (trimmed := trim _).
  destruct (Nat.eqb (String.length trimmed) 0);
    destruct (decide _) as [Hin|Hout]; simpl;
    (split; intros Hkey;
     [ first [ split; [reflexivity | eexists; reflexivity] | contradiction ]
     | first [ split; reflexivity | contradiction ] ]).
Qed.

(** A non-empty name of white space only gets the warning EMPTY_NAME, no
    type error, and the default name. *)
Lemma validateDataPointName_blank (s : string) (index : nat)
    (seen : gset string) :
  s <> "" -> trim s = "" ->
  let nv := fst (validateDataPointName (JStr s) index seen) in
  processedName nv = defaultName index
  /\ (exists w rest, n_warnings nv = w :: rest
                     /\ w_type w = EMPTY_NAME /\ w_index w = Some index)
  /\ Forall (fun e => e_type e <> INVALID_DATA_TYPE) (n_errors nv).
Proof.
  intros Hs Htrim. unfold validateDataPointName.
  assert (Hguard : negb (truthy (JStr s))
                   || negb (String.eqb (typeof (JStr s)) "string") = false).
  { simpl. destruct s; [contradiction | reflexivity]. }
  rewrite Hguard, Htrim. simpl String.length. cbn [Nat.eqb].
  destruct (decide _); simpl;
    (split; [reflexivity|]; split; [eexists; eexists; split; [reflexivity|];
       split; reflexivity|]).
  - constructor; [discriminate | constructor].
  - constructor.
Qed.

(** *** Names equal when case is ignored *)

(** The code units, all of them. *)
Lemma ascii_enumerated (c : ascii) :
  exists n, n < 256 /\ c = ascii_of_nat n.
Proof.
  exists (nat_of_ascii c). split.
  - apply nat_ascii_bounded.
  - symmetry. apply ascii_nat_embedding.
Qed.

(** Two code units are the same letter up to case exactly when
    [toLowerCase] sends them to the same code unit. *)
Lemma sameLetter_lowerChar (a b : ascii) :
  sameLetter a b = Ascii.eqb (lowerChar a) (lowerChar b).
Proof.
  assert (Hall : forallb
            (fun n =>
               forallb
                 (fun m =>
                    Bool.eqb
                      (sameLetter (ascii_of_nat n) (ascii_of_nat m))
                      (Ascii.eqb (lowerChar (ascii_of_nat n))
                         (lowerChar (ascii_of_nat m))))
                 (seq 0 256))
            (seq 0 256) = true) by (vm_compute; reflexivity).
  destruct (ascii_enumerated a) as (n & Hn & ->).
  destruct (ascii_enumerated b) as (m & Hm & ->).
  assert (Hn' : In n (seq 0 256)) by (apply in_seq; lia).
  assert (Hm' : In m (seq 0 256)) by (apply in_seq; lia).
  rewrite forallb_forall in Hall. specialize (Hall n Hn').
  rewrite forallb_forall in Hall. specialize (Hall m Hm').
  apply Bool.eqb_prop in Hall. exact Hall.
Qed.

(** Names are equal when case is ignored exactly when their lower-case
    forms, which the set of seen names holds, are equal. *)
Lemma equalIgnoringCase_toLowerCase (s t : string) :
  equalIgnoringCase s t = true <-> toLowerCase s = toLowerCase t.
Proof.
  revert t. induction s as [|a s IH]; intros [|b t]; simpl;
    try (split; [reflexivity | reflexivity]);
    try (split; discriminate).
  rewrite andb_true_iff, sameLetter_lowerChar, Ascii.eqb_eq, IH.
  split.
  - intros [-> ->]. reflexivity.
  - intros [= Ha Hs]. split; assumption.
Qed.

(** *** The visits that [forEach] makes *)

Lemma length_visited_holes (slots : list (option JsValue)) :
  forall index, length (visited slots index) + holes slots = length slots.
Proof.
  unfold holes.
  induction slots as [|[point|] rest IH]; intros index; simpl;
    [reflexivity | specialize (IH (S index)); lia
    | specialize (IH (S index)); lia].
Qed.

Lemma length_visited_dense (slots : list (option JsValue)) :
  dense slots -> forall index, length (visited slots index) = length slots.
Proof.
  unfold dense. induction slots as [|[point|] rest IH]; intros Hd index; simpl.
  - reflexivity.
  - f_equal. apply IH. exact (Forall_inv_tail Hd).
  - exfalso. exact (Forall_inv Hd eq_refl).
Qed.

(** A visit is made at an index exactly for the element of that index. *)
Lemma lookup_visited (slots : list (option JsValue)) :
  forall (index k i : nat) (point : JsValue),
    visited slots index !! k = Some (i, point) ->
    index <= i /\ k <= i - index /\ slots !! (i - index) = Some (Some point).
Proof.
  induction slots as [|[p|] rest IH]; intros index k i point; simpl.
  - discriminate.
  - destruct k as [|k]; simpl.
    + intros [= <- <-]. rewrite Nat.sub_diag. repeat split; lia.
    + intros Hk. apply IH in Hk as (Hle & Hk & Hl).
      replace (i - index) with (S (i - S index)) by lia.
      repeat split; [lia | lia | exact Hl].
  - intros Hk. apply IH in Hk as (Hle & Hk & Hl).
    replace (i - index) with (S (i - S index)) by lia.
    repeat split; [lia | lia | exact Hl].
Qed.

(** In an array without holes the visits are made in the order of the
    indices, one for each. *)
Lemma lookup_visited_dense (slots : list (option JsValue)) :
  dense slots ->
  forall (index i : nat) (point : JsValue),
    slots !! i = Some (Some point) ->
    visited slots index !! i = Some (index + i, point).
Proof.
  unfold dense. induction slots as [|[p|] rest IH]; intros Hd index i point.
  - discriminate.
  - destruct i as [|i]; simpl.
    + intros [= <-]. now rewrite Nat.add_0_r.
    + intros Hi. rewrite (IH (Forall_inv_tail Hd) (S index) i point Hi).
      do 2 f_equal. lia.
  - exfalso. exact (Forall_inv Hd eq_refl).
Qed.

Lemma namedPoint_tail (slot : option JsValue) (rest : list (option JsValue))
    (j : nat) (s : string) :
  namedPoint (slot :: rest) (S j) s <-> namedPoint rest j s.
Proof. unfold namedPoint. simpl. reflexivity. Qed.

Lemma namedPoint_inj (slots : list (option JsValue)) (j : nat) (s t : string) :
  namedPoint slots j s -> namedPoint slots j t -> s = t.
Proof.
  intros (p & Hp & _ & Hs & _) (q & Hq & _ & Ht & _).
  rewrite Hp in Hq. injection Hq as <-. rewrite Hs in Ht. now injection Ht.
Qed.

(** *** What the validation of a name does to the set of seen names *)

(** On a non-empty string the processed name is the expected one; it is
    reported as duplicate exactly when its lower-case form was seen, and
    recorded otherwise. *)
Lemma validateDataPointName_string (s : string) (index : nat)
    (seen : gset string) :
  s <> "" ->
  let r := validateDataPointName (JStr s) index seen in
  let key := toLowerCase (expectedName index s) in
  processedName (fst r) = expectedName index s
  /\ ((key ∈ seen /\ snd r = seen
       /\ exists message,
            n_errors (fst r)
            = [mkError DUPLICATE_NAMES message (Some "name") (Some index)])
      \/ ((key ∉ seen) /\ snd r = {[ key ]} ∪ seen /\ n_errors (fst r) = [])).
Proof.
  intros Hs. unfold validateDataPointName, expectedName.
  assert (Hguard : negb (truthy (JStr s))
                   || negb (String.eqb (typeof (JStr s)) "string") = false).
  { simpl. destruct s; [contradiction | reflexivity]. }
  rewrite Hguard.
  destruct (Nat.eqb (String.length (trim s)) 0);
    destruct (decide _) as [Hin|Hout]; simpl;
    (split; [reflexivity|]);
    first [ left; split; [exact Hin|]; split; [reflexivity|];
            eexists; reflexivity
          | right; split; [exact Hout|]; split; reflexivity ].
Qed.

(** What is not a non-empty string gets the type error and is not
    recorded. *)
Lemma validateDataPointName_rejected (v : JsValue) (index : nat)
    (seen : gset string) :
  acceptedName v = false ->
  snd (validateDataPointName v index seen) = seen
  /\ Forall (fun e => e_type e = INVALID_DATA_TYPE)
       (n_errors (fst (validateDataPointName v index seen))).
Proof.
  intros Hv. unfold validateDataPointName.
  assert (Hguard : negb (truthy v)
                   || negb (String.eqb (typeof v) "string") = true).
  { destruct v as [| | b | n | s | props | items | | | z]; simpl in *;
      rewrite ?orb_true_r; try reflexivity.
    rewrite Hv. reflexivity. }
  rewrite Hguard. simpl. split; [reflexivity|].
  constructor; [reflexivity | constructor].
Qed.

Lemma acceptedName_string (v : JsValue) :
  acceptedName v = true -> exists s, v = JStr s /\ s <> "".
Proof.
  destruct v as [| | b | n | s | props | items | | | z]; simpl;
    try discriminate.
  intros H. exists s. split; [reflexivity|]. intros ->. discriminate H.
Qed.

Section WithNumberToString.
Variable show : float -> string.

(** [validateDataPointValue] reports type errors only. *)
Lemma validateDataPointValue_type_errors (v : JsValue) (index : nat)
    (maxValue minValue : float) :
  Forall (fun e => e_type e = INVALID_DATA_TYPE)
    (v_errors (validateDataPointValue show v index maxValue minValue)).
Proof.
  unfold validateDataPointValue.
  destruct (isUndefined v || isNull v);
    [constructor; [reflexivity | constructor]|].
  destruct (negb (String.eqb (typeof v) "number") || isNaN v);
    [constructor; [reflexivity | constructor]|].
  destruct (_ <? minValue)%float; [constructor|].
  destruct (maxValue <? _)%float; constructor.
Qed.

(** One visit, as to names: the set of seen names and the errors only
    grow; the name of a named point is in the set afterwards, and is
    reported as duplicate if it was there before; a name enters the set,
    and a duplicate is reported, only so. *)
Lemma visitPoint_names (maxValue minValue : float)
    (point : JsValue) (index : nat) (st : LoopState) :
  let st' := visitPoint show maxValue minValue point index st in
  (forall key, key ∈ st_seenNames st -> key ∈ st_seenNames st')
  /\ (forall e, e ∈ st_errors st -> e ∈ st_errors st')
  /\ (forall s,
        isObjectPoint point = true -> getProp point "name" = JStr s ->
        s <> "" ->
        let key := toLowerCase (expectedName index s) in
        key ∈ st_seenNames st'
        /\ (key ∈ st_seenNames st ->
            exists message,
              mkError DUPLICATE_NAMES message (Some "name") (Some index)
              ∈ st_errors st'))
  /\ (forall key,
        key ∈ st_seenNames st' ->
        key ∈ st_seenNames st
        \/ exists s,
             isObjectPoint point = true /\ getProp point "name" = JStr s
             /\ s <> "" /\ key = toLowerCase (expectedName index s))
  /\ (forall e,
        e ∈ st_errors st' -> e_type e = DUPLICATE_NAMES ->
        e ∈ st_errors st
        \/ (e_index e = Some index
            /\ exists s,
                 isObjectPoint point = true /\ getProp point "name" = JStr s
                 /\ s <> ""
                 /\ toLowerCase (expectedName index s) ∈ st_seenNames st)).
Proof.
  unfold visitPoint, isObjectPoint.
  rewrite <- negb_andb.
  destruct (truthy point && String.eqb (typeof point) "object") eqn:Hobj;
    simpl.
  2:{ split; [auto|]. split; [intros e He; apply elem_of_app; now left|].
      split; [discriminate|]. split; [auto|].
      intros e He Ht. apply elem_of_app in He as [He|He]; [now left|].
      apply list_elem_of_singleton in He. subst e. discriminate Ht. }
  pose proof (validateDataPointValue_type_errors (getProp point "value")
                index maxValue minValue) as Hvalue.
  rewrite List.Forall_forall in Hvalue.
  assert (Hvalue' : forall e,
            e ∈ v_errors (validateDataPointValue show (getProp point "value")
                            index maxValue minValue) ->
            e_type e = DUPLICATE_NAMES -> False).
  { intros e He Ht. apply list_elem_of_In in He. apply Hvalue in He.
    rewrite He in Ht. discriminate Ht. }
  destruct (acceptedName (getProp point "name")) eqn:Hacc.
  - apply acceptedName_string in Hacc as (s0 & Hname & Hne).
    rewrite Hname.
    pose proof (validateDataPointName_string s0 index (st_seenNames st) Hne)
      as Hs. cbv zeta in Hs.
    destruct (validateDataPointName (JStr s0) index (st_seenNames st))
      as [nameValidation seenNames'].
    simpl in Hs. simpl. destruct Hs as [Hpn Hcases].
    split; [|split; [|split; [|split]]].
    + intros key Hkey.
      destruct Hcases as [(_ & -> & _)|(_ & -> & _)];
        [exact Hkey | apply elem_of_union_r, Hkey].
    + intros e He. apply elem_of_app. now left.
    + intros s _ [= <-] _. split.
      * destruct Hcases as [(Hin & -> & _)|(_ & -> & _)];
          [exact Hin | apply elem_of_union_l, elem_of_singleton; reflexivity].
      * intros Hin.
        destruct Hcases as [(_ & _ & message & Herr)|(Hout & _)];
          [|contradiction].
        exists message. rewrite Herr.
        apply elem_of_app. right. apply elem_of_app. left.
        apply list_elem_of_singleton. reflexivity.
    + intros key Hkey.
      destruct Hcases as [(_ & -> & _)|(_ & -> & _)]; [now left|].
      apply elem_of_union in Hkey as [Hkey|Hkey]; [|now left].
      apply elem_of_singleton in Hkey. right. exists s0.
      repeat split; assumption.
    + intros e He Ht.
      apply elem_of_app in He as [He|He]; [now left|].
      apply elem_of_app in He as [He|He];
        [|exfalso; exact (Hvalue' e He Ht)].
      destruct Hcases as [(Hin & _ & message & Herr)|(_ & _ & Herr)];
        rewrite Herr in He; [|inversion He].
      apply list_elem_of_singleton in He. subst e. right.
      split; [reflexivity|]. exists s0. repeat split; assumption.
  - pose proof (validateDataPointName_rejected (getProp point "name") index
                  (st_seenNames st) Hacc) as [Hseen Herrs].
    destruct (validateDataPointName (getProp point "name") index
                (st_seenNames st)) as [nameValidation seenNames'].
    simpl in Hseen, Herrs. simpl. subst seenNames'.
    rewrite List.Forall_forall in Herrs.
    split; [auto|]. split; [intros e He; apply elem_of_app; now left|].
    split; [|split; [auto|]].
    + intros s _ Hname Hne. rewrite Hname in Hacc. simpl in Hacc.
      destruct s; [contradiction | discriminate Hacc].
    + intros e He Ht.
      apply elem_of_app in He as [He|He]; [now left|].
      apply elem_of_app in He as [He|He];
        [|exfalso; exact (Hvalue' e He Ht)].
      apply list_elem_of_In in He. apply Herrs in He.
      rewrite He in Ht. discriminate Ht.
Qed.

(** The loop, as to names.  The set of seen names and the errors only
    grow; the name of every named point is in the set at the end; a later
    point whose name, in lower case, is that of an earlier one (or was in
    the set from the start) has its DUPLICATE_NAMES error; and such an
    error is reported for that reason only. *)
Lemma forEachPoint_names (maxValue minValue : float)
    (slots : list (option JsValue)) :
  forall (index : nat) (st : LoopState),
  let st' := forEachPoint show maxValue minValue slots index st in
  (forall key, key ∈ st_seenNames st -> key ∈ st_seenNames st')
  /\ (forall e, e ∈ st_errors st -> e ∈ st_errors st')
  /\ (forall j s,
        namedPoint slots j s ->
        let key := toLowerCase (expectedName (index + j) s) in
        key ∈ st_seenNames st'
        /\ (key ∈ st_seenNames st
            \/ (exists i t, i < j /\ namedPoint slots i t
                            /\ toLowerCase (expectedName (index + i) t) = key) ->
            exists message,
              mkError DUPLICATE_NAMES message (Some "name") (Some (index + j))
              ∈ st_errors st'))
  /\ (forall e,
        e ∈ st_errors st' -> e_type e = DUPLICATE_NAMES ->
        e ∈ st_errors st
        \/ exists j s,
             e_index e = Some (index + j) /\ namedPoint slots j s
             /\ (toLowerCase (expectedName (index + j) s) ∈ st_seenNames st
                 \/ exists i t,
                      i < j /\ namedPoint slots i t
                      /\ toLowerCase (expectedName (index + i) t)
                         = toLowerCase (expectedName (index + j) s))).
Proof.
  induction slots as [|[point|] rest IH]; intros index st; cbv zeta.
  - simpl. split; [auto|]. split; [auto|]. split; [|auto].
    intros j s (p & Hp & _). discriminate Hp.
  - simpl forEachPoint.
    pose proof (visitPoint_names maxValue minValue point index st) as Hv.
    cbv zeta in Hv. destruct Hv as (Hv1 & Hv2 & Hv3 & Hv4 & Hv5).
    specialize (IH (S index) (visitPoint show maxValue minValue point index st)).
    cbv zeta in IH. destruct IH as (IH1 & IH2 & IH3 & IH4).
    split; [auto|]. split; [auto|]. split.
    + intros [|j] s Hnamed.
      * destruct Hnamed as (p & [= <-] & Hobj & Hname & Hne).
        rewrite Nat.add_0_r.
        destruct (Hv3 s Hobj Hname Hne) as [Hin Hdup].
        split; [apply IH1, Hin|].
        intros [Hseen|(i & t & Hi & _)]; [|lia].
        destruct (Hdup Hseen) as (message & He).
        exists message. apply IH2, He.
      * apply namedPoint_tail in Hnamed.
        replace (index + S j) with (S index + j) by lia.
        destruct (IH3 j s Hnamed) as [Hin Hdup].
        split; [exact Hin|].
        intros [Hseen|(i & t & Hi & Hnamed' & Hkey)].
        -- apply Hdup. left. apply Hv1, Hseen.
        -- apply Hdup. destruct i as [|i].
           ++ left. destruct Hnamed' as (p & [= <-] & Hobj & Hname & Hne).
              rewrite Nat.add_0_r in Hkey. rewrite <- Hkey.
              apply (Hv3 t Hobj Hname Hne).
           ++ right. apply namedPoint_tail in Hnamed'.
              exists i, t. split; [lia|]. split; [exact Hnamed'|].
              replace (S index + i) with (index + S i) by lia. exact Hkey.
    + intros e He Ht.
      destruct (IH4 e He Ht) as [Hold|(j & s & Hidx & Hnamed & Hwhy)].
      * destruct (Hv5 e Hold Ht) as [Hst|(Hidx & s & Hobj & Hname & Hne & Hseen)];
          [now left|].
        right. exists 0, s. rewrite Nat.add_0_r.
        split; [exact Hidx|]. split; [|now left].
        exists point. repeat split; assumption.
      * right. exists (S j), s.
        replace (index + S j) with (S index + j) by lia.
        split; [exact Hidx|]. split; [now apply namedPoint_tail|].
        destruct Hwhy as [Hseen|(i & t & Hi & Hnamed' & Hkey)].
        -- destruct (Hv4 _ Hseen) as [Hst|(t & Hobj & Hname & Hne & Hkey)];
             [now left|].
           right. exists 0, t. split; [lia|]. split.
           ++ exists point. repeat split; assumption.
           ++ rewrite Nat.add_0_r. symmetry. exact Hkey.
        -- right. exists (S i), t. split; [lia|].
           split; [now apply namedPoint_tail|].
           replace (index + S i) with (S index + i) by lia. exact Hkey.
  - simpl forEachPoint.
    specialize (IH (S index) st). cbv zeta in IH.
    destruct IH as (IH1 & IH2 & IH3 & IH4).
    split; [auto|]. split; [auto|]. split.
    + intros [|j] s Hnamed.
      * destruct Hnamed as (p & Hp & _). discriminate Hp.
      * apply namedPoint_tail in Hnamed.
        replace (index + S j) with (S index + j) by lia.
        destruct (IH3 j s Hnamed) as [Hin Hdup].
        split; [exact Hin|].
        intros [Hseen|(i & t & Hi & Hnamed' & Hkey)].
        -- apply Hdup. now left.
        -- apply Hdup. destruct i as [|i].
           ++ destruct Hnamed' as (p & Hp & _). discriminate Hp.
           ++ right. apply namedPoint_tail in Hnamed'.
              exists i, t. split; [lia|]. split; [exact Hnamed'|].
              replace (S index + i) with (index + S i) by lia. exact Hkey.
    + intros e He Ht.
      destruct (IH4 e He Ht) as [Hold|(j & s & Hidx & Hnamed & Hwhy)];
        [now left|].
      right. exists (S j), s.
      replace (index + S j) with (S index + j) by lia.
      split; [exact Hidx|]. split; [now apply namedPoint_tail|].
      destruct Hwhy as [Hseen|(i & t & Hi & Hnamed' & Hkey)]; [now left|].
      right. exists (S i), t. split; [lia|].
      split; [now apply namedPoint_tail|].
      replace (index + S i) with (S index + i) by lia. exact Hkey.
Qed.

(** The value handed back by [validateDataPointValue] is never NaN. *)
Lemma processedValue_not_nan (v : JsValue) (index : nat) (maxValue minValue : float) :
  PrimFloat.is_nan
    (processedValue (validateDataPointValue show v index maxValue minValue))
  = false.
Proof.
  destruct v as [| | b | n | s | props | items | | | z]; try reflexivity.
  unfold validateDataPointValue. simpl.
  destruct (PrimFloat.is_nan n) eqn:Hn; [reflexivity|].
  destruct (n <? minValue)%float eqn:Hlo.
  { simpl. apply (ltb_not_nan _ _ Hlo). }
  destruct (maxValue <? n)%float eqn:Hhi; simpl.
  - apply (ltb_not_nan _ _ Hhi).
  - exact Hn.
Qed.

(** Without error, the value handed back lies between the bounds, when
    these are ordered. *)
Lemma processedValue_in_range (v : JsValue) (index : nat) (maxValue minValue : float) :
  v_errors (validateDataPointValue show v index maxValue minValue) = [] ->
  (minValue <=? maxValue)%float = true ->
  let pv := processedValue (validateDataPointValue show v index maxValue minValue) in
  (minValue <=? pv)%float = true /\ (pv <=? maxValue)%float = true.
Proof.
  intros Herr Hord.
  destruct (leb_not_nan _ _ Hord) as [Hmin Hmax].
  destruct v as [| | b | n | s | props | items | | | z]; try discriminate Herr.
  unfold validateDataPointValue in *. simpl in *.
  destruct (PrimFloat.is_nan n) eqn:Hn; [discriminate Herr|].
  destruct (n <? minValue)%float eqn:Hlo; simpl.
  { split; [apply leb_refl; exact Hmin | exact Hord]. }
  destruct (maxValue <? n)%float eqn:Hhi; simpl.
  - split; [exact Hord | apply leb_refl; exact Hmax].
  - split; apply not_ltb_leb; assumption.
Qed.

(** What one visit without error does to the loop state. *)
Lemma visitPoint_no_error (maxValue minValue : float)
    (point : JsValue) (index : nat) (st : LoopState) :
  st_errors (visitPoint show maxValue minValue point index st) = [] ->
  st_errors st = []
  /\ exists p,
       st_processedData (visitPoint show maxValue minValue point index st)
       = st_processedData st ++ [p]
       /\ exists v,
            v_errors (validateDataPointValue show v index maxValue minValue) = []
            /\ value p
               = processedValue
                   (validateDataPointValue show v index maxValue minValue).
Proof.
  unfold visitPoint.
  destruct (negb (truthy point) || negb (String.eqb (typeof point) "object")).
  { simpl. intros H. apply app_eq_nil in H as [_ H]. discriminate H. }
  pose proof (processedName_truthy (getProp point "name") index (st_seenNames st))
    as Hname.
  destruct (validateDataPointName (getProp point "name") index (st_seenNames st))
    as [nameValidation seenNames'].
  simpl in Hname. simpl. intros H.
  apply app_eq_nil in H as [Hst H]. apply app_eq_nil in H as [_ Hv].
  split; [exact Hst|].
  unfold truthy, isNaN. rewrite Hname, processedValue_not_nan. simpl.
  eexists. split; [reflexivity|].
  exists (getProp point "value"). split; [exact Hv | reflexivity].
Qed.

(** The loop, when it ends without error: there was none before, and every
    element visited has appended one point, whose value is a validated
    one. *)
Lemma forEachPoint_no_error (maxValue minValue : float)
    (points : list (option JsValue)) :
  forall (index : nat) (st : LoopState),
  st_errors (forEachPoint show maxValue minValue points index st) = [] ->
  st_errors st = []
  /\ exists added,
       st_processedData (forEachPoint show maxValue minValue points index st)
       = st_processedData st ++ added
       /\ length added = length (visited points index)
       /\ Forall
            (fun p => exists v i,
               v_errors (validateDataPointValue show v i maxValue minValue) = []
               /\ value p
                  = processedValue
                      (validateDataPointValue show v i maxValue minValue))
            added.
Proof.
  induction points as [|[point|] rest IH]; intros index st; simpl.
  - intros Hst. split; [exact Hst|].
    exists []. rewrite app_nil_r. repeat split. constructor.
  - intros H. destruct (IH _ _ H) as (Hvisit & added & Hpd & Hlen & Hall).
    destruct (visitPoint_no_error _ _ _ _ _ Hvisit) as (Hst & p & Hp & v & Hv & Hval).
    split; [exact Hst|].
    exists (p :: added). rewrite Hpd, Hp, <- app_assoc. simpl.
    repeat split.
    + now rewrite Hlen.
    + constructor; [|exact Hall]. exists v, index. split; assumption.
  - intros H. exact (IH _ _ H).
Qed.

(** Anything but an array is answered by the single error MISSING_DATA. *)
Lemma not_array_missing_data (raw : JsValue) (maxValue minValue : option float) :
  isArray raw = false ->
  validateRadarChartData show raw maxValue minValue
  = mkResult false [mkError MISSING_DATA NO_DATA_MESSAGE None None] [] None.
Proof.
  intros Hraw. unfold validateRadarChartData.
  rewrite Hraw, orb_true_r. reflexivity.
Qed.

(** The shape of every result: [processedData] is there exactly when
    [isValid] holds; a valid result comes from a non-empty array whose
    loop ended without error, and carries the points the loop collected. *)
Lemma validateRadarChartData_valid (raw : JsValue) (maxValue minValue : option float) :
  let r := validateRadarChartData show raw maxValue minValue in
  isValid r = true ->
  exists items st,
    raw = JArr items
    /\ st = forEachPoint show (default 5%float maxValue)
              (default 0%float minValue) items 0 (mkState [] [] [] ∅)
    /\ st_errors st = []
    /\ 1 <= length (st_processedData st)
    /\ processedData r = Some (st_processedData st).
Proof.
  destruct raw as [| | b | n | s | props | items | | | z];
    try (rewrite not_array_missing_data by reflexivity; discriminate).
  unfold validateRadarChartData. simpl.
  destruct (Nat.eqb (length items) 0); simpl; [discriminate|].
  set (st := forEachPoint _ _ _ _ _ _).
  destruct (Nat.eqb (length (st_processedData st)) 0) eqn:Hempty.
  { rewrite length_app. simpl.
    replace (Nat.eqb (length (st_errors st) + 1) 0) with false
      by (symmetry; apply Nat.eqb_neq; lia).
    discriminate. }
  intros Hvalid. rewrite Hvalid.
  apply andb_true_iff in Hvalid as [Herr Hlen].
  exists items, st. repeat split.
  - apply Nat.eqb_eq in Herr. now destruct (st_errors st).
  - apply Nat.ltb_lt in Hlen. lia.
Qed.

Lemma processedData_iff_valid (raw : JsValue) (maxValue minValue : option float) :
  let r := validateRadarChartData show raw maxValue minValue in
  processedData r <> None <-> isValid r = true.
Proof.
  destruct raw as [| | b | n | s | props | items | | | z];
    try (rewrite not_array_missing_data by reflexivity;
         split; [intros H; now contradict H | discriminate]).
  unfold validateRadarChartData. simpl.
  destruct (Nat.eqb (length items) 0); simpl;
    [split; [intros H; now contradict H | discriminate]|].
  match goal with |- context [if ?c then Some _ else None] => destruct c end;
    split; intros H; congruence.
Qed.

(** The result on a non-empty array, from the state the loop ends in: its
    errors are those of the loop and at most the final EMPTY_VALUES; with
    an error it is invalid and has no [processedData]. *)
Lemma result_of_loop (slots : list (option JsValue))
    (maxValue minValue : option float) :
  slots <> [] ->
  let st := forEachPoint show (default 5%float maxValue)
              (default 0%float minValue) slots 0 (mkState [] [] [] ∅) in
  let r := validateRadarChartData show (JArr slots) maxValue minValue in
  (forall e, e ∈ st_errors st -> e ∈ errors r)
  /\ (forall e, e ∈ errors r -> e ∈ st_errors st \/ e_type e = EMPTY_VALUES)
  /\ (errors r <> [] -> isValid r = false /\ processedData r = None).
Proof.
  intros Hne. unfold validateRadarChartData. simpl.
  destruct slots as [|slot slots']; [contradiction|].
  change (Nat.eqb (length (slot :: slots')) 0) with false. cbv iota.
  set (st := forEachPoint _ _ _ _ _ _).
  destruct (Nat.eqb (length (st_processedData st)) 0); simpl.
  - split; [intros e He; apply elem_of_app; now left|]. split.
    + intros e He. apply elem_of_app in He as [He|He]; [now left|].
      apply list_elem_of_singleton in He. subst e. now right.
    + intros _. rewrite length_app. simpl.
      replace (Nat.eqb (length (st_errors st) + 1) 0) with false
        by (symmetry; apply Nat.eqb_neq; lia).
      split; reflexivity.
  - split; [auto|]. split; [auto|].
    intros Herr. destruct (st_errors st); [contradiction|].
    split; reflexivity.
Qed.

End WithNumberToString.

End ValidatorFacts.

(* ===================================================================== *)
(** ** The Validator: the stated properties *)
(* ===================================================================== *)

Module ValidatorProperties.
Import JsString Validator JsNumberOrder ValidatorTerms ValidatorFacts.

Section WithNumberToString.
Variable show : float -> string.

(** C1 (as amended).  For every raw input, [maxValue] and [minValue]: a
    valid result has its [processedData], with at least one element, and
    every value in it lies in the range from [minValue] to [maxValue]
    whenever [minValue <= maxValue] (so in the range from 0 to [maxValue]
    for the default [minValue]); and [processedData] is defined exactly
    when [isValid] is true. *)
Theorem valid_result_values_in_range
    (raw : JsValue) (maxValue minValue : option float) :
  let r := validateRadarChartData show raw maxValue minValue in
  let lo := default 0%float minValue in
  let hi := default 5%float maxValue in
  (isValid r = true ->
   exists pd,
     processedData r = Some pd
     /\ 1 <= length pd
     /\ ((lo <=? hi)%float = true -> Forall (fun p => inRange lo hi (value p)) pd))
  /\ (processedData r <> None <-> isValid r = true).
Proof.
  intros r lo hi. split; [|apply processedData_iff_valid].
  intros Hvalid.
  destruct (validateRadarChartData_valid show raw maxValue minValue Hvalid)
    as (items & st & -> & Hst & Herr & Hlen & Hpd).
  exists (st_processedData st). repeat split; try assumption.
  intros Hord. subst st.
  destruct (forEachPoint_no_error show _ _ _ _ _ Herr)
    as (_ & added & Hadded & _ & Hall).
  rewrite Hadded. simpl.
  eapply Forall_impl; [exact Hall|].
  intros p (v & i & Hv & ->). unfold inRange.
  apply processedValue_in_range; assumption.
Qed.

(** C5 (as amended).  Clamping is idempotent whenever [maxValue] is not
    below [minValue]: for every number [v] (not NaN),
    [clamp (clamp v) = clamp v]. *)
Theorem clamp_idempotent (maxValue minValue v : float) :
  (maxValue <? minValue)%float = false ->
  PrimFloat.is_nan v = false ->
  clamp show maxValue minValue (clamp show maxValue minValue v)
  = clamp show maxValue minValue v.
Proof.
  intros Hord Hv. unfold clamp, validateDataPointValue. simpl. rewrite Hv.
  destruct (v <? minValue)%float eqn:Hlo; simpl.
  { destruct (ltb_not_nan _ _ Hlo) as [_ Hmin].
    rewrite Hmin, ltb_irrefl, Hord. reflexivity. }
  destruct (maxValue <? v)%float eqn:Hhi; simpl.
  - destruct (ltb_not_nan _ _ Hhi) as [Hmax _].
    rewrite Hmax, Hord, ltb_irrefl. reflexivity.
  - rewrite Hv, Hlo, Hhi. reflexivity.
Qed.

(** C10 (as amended).  A valid result has exactly one processed point for
    each element of the input array, that is for each call [forEach]
    makes: validation drops no element and adds none.  So [processedData]
    is as long as the input array when the array has no hole, and shorter
    by the number of holes in general. *)
Theorem valid_result_preserves_length
    (raw : JsValue) (maxValue minValue : option float) :
  let r := validateRadarChartData show raw maxValue minValue in
  isValid r = true ->
  exists slots pd,
    raw = JArr slots /\ processedData r = Some pd
    /\ length pd = length (visited slots 0)
    /\ length pd + holes slots = length slots
    /\ (dense slots -> length pd = length slots).
Proof.
  intros r Hvalid.
  destruct (validateRadarChartData_valid show raw maxValue minValue Hvalid)
    as (slots & st & -> & Hst & Herr & _ & Hpd).
  exists slots, (st_processedData st).
  split; [reflexivity|]. split; [exact Hpd|].
  subst st.
  destruct (forEachPoint_no_error show _ _ _ _ _ Herr)
    as (_ & added & Hadded & Hlen & _).
  rewrite Hadded. simpl. rewrite Hlen. split; [reflexivity|]. split.
  - apply length_visited_holes.
  - intros Hdense. now apply length_visited_dense.
Qed.

(** C2 (the code departs from it).  The empty string is a string that
    trims to the empty string, yet it is rejected by the guard [!name]:
    the result carries the error INVALID_DATA_TYPE and no EMPTY_NAME
    warning.  A non-empty string of white space does get the warning and
    the default name. *)
Theorem empty_string_name_is_type_error :
  validateRadarChartData show
    (JArr [Some (rawPoint (JStr "") (JNum 1%float))]) None None
  = mkResult false
      [mkError INVALID_DATA_TYPE "Name at index 0 is missing or not a string"
         (Some "name") (Some 0)]
      [] None
  /\ validateRadarChartData show
       (JArr [Some (rawPoint (JStr "   ") (JNum 1%float))]) None None
     = mkResult true []
         [mkWarning EMPTY_NAME "Name at index 0 is empty after trimming"
            (Some "name") (Some 0)]
         (Some [mkPoint "Category 1" 1%float]).
Proof. split; vm_compute; reflexivity. Qed.


(** The trace of the scenario of C3: the only error is the
    DUPLICATE_NAMES of index 1; inside the loop the earlier point has kept
    its name [A], the set of seen names holding the lower-case [a]. *)
Example duplicate_name_scenario :
  let input :=
    [Some (rawPoint (JStr "A") (JNum 1%float));
     Some (rawPoint (JStr "a") (JNum 2%float))] in
  validateRadarChartData show (JArr input) None None
  = mkResult false
      [mkError DUPLICATE_NAMES
         ("Duplicate name " ++ dquote ++ "a" ++ dquote ++ " found at index 1")
         (Some "name") (Some 1)]
      [] None
  /\ (let st := forEachPoint show 5%float 0%float input 0 (mkState [] [] [] ∅) in
      map name (st_processedData st) = ["A"; "a"]
      /\ elements (st_seenNames st) = ["a"]).
Proof. repeat split; vm_compute; reflexivity. Qed.

(** C4.  [validate([{name:A, value:7}], 5)]: exactly one warning,
    DATA_CLAMPED at index 0, whose message shows the original value 7 and
    the bound 5 it is clamped to; the processed value is 5 and the result
    is valid.  With integers rendered in decimal the message reads
    [Value 7 at index 0 is above maximum (5) and will be clamped]. *)
Theorem clamped_value_scenario :
  let input := JArr [Some (rawPoint (JStr "A") (JNum 7%float))] in
  validateRadarChartData show input (Some 5%float) None
  = mkResult true []
      [mkWarning DATA_CLAMPED
         ("Value " ++ show 7%float ++ " at index 0 is above maximum ("
          ++ show 5%float ++ ") and will be clamped")
         (Some "value") (Some 0)]
      (Some [mkPoint "A" 5%float])
  /\ map w_message
       (warnings
          (validateRadarChartData DoubleToString.integralToString input
             (Some 5%float) None))
     = ["Value 7 at index 0 is above maximum (5) and will be clamped"].
Proof. split; vm_compute; reflexivity. Qed.

End WithNumberToString.

(** C1 as stated fails: with [minValue = -5] the point of value -3 is
    valid and kept, below 0. *)
Lemma valid_result_value_below_zero :
  let r :=
    validateRadarChartData DoubleToString.integralToString
      (JArr [Some (rawPoint (JStr "A") (JNum (-3)%float))])
      (Some 5%float) (Some (-5)%float) in
  ~ (isValid r = true ->
     exists pd,
       processedData r = Some pd /\ 1 <= length pd
       /\ Forall (fun p => inRange 0%float 5%float (value p)) pd).
Proof.
  intros r H.
  destruct (H eq_refl) as (pd & Hpd & _ & Hall).
  vm_compute in Hpd. injection Hpd as <-.
  apply Forall_inv in Hall. destruct Hall as [Hlo _].
  vm_compute in Hlo. discriminate Hlo.
Qed.

(** [valid_result_values_in_range] on two points, one above the maximum
    and one below the minimum, with the default [minValue]. *)
Lemma valid_result_values_in_range_witness :
  exists pd,
    processedData
      (validateRadarChartData DoubleToString.integralToString
         (JArr [Some (rawPoint (JStr "A") (JNum 7%float));
                Some (rawPoint (JStr "B") (JNum (-1)%float))])
         (Some 5%float) None)
    = Some pd
    /\ 1 <= length pd
    /\ Forall (fun p => inRange 0%float 5%float (value p)) pd.
Proof.
  destruct (valid_result_values_in_range DoubleToString.integralToString
              (JArr [Some (rawPoint (JStr "A") (JNum 7%float));
                     Some (rawPoint (JStr "B") (JNum (-1)%float))])
              (Some 5%float) None) as [H _].
  destruct (H eq_refl) as (pd & Hpd & Hlen & Hrange).
  exists pd. repeat split; [exact Hpd | exact Hlen |].
  apply Hrange. reflexivity.
Defined.

(** C5 as stated fails: with [minValue = 10] above [maxValue = 5], 7 is
    clamped to 10, and 10 to 5. *)
Lemma clamp_not_idempotent_on_inverted_bounds :
  let c := clamp DoubleToString.integralToString 5%float 10%float in
  c 7%float = 10%float /\ c (c 7%float) = 5%float
  /\ (c (c 7%float) =? c 7%float)%float = false
  /\ c (c 7%float) <> c 7%float.
Proof.
  intros c.
  assert (H1 : c 7%float = 10%float) by (vm_compute; reflexivity).
  assert (H2 : c (c 7%float) = 5%float) by (vm_compute; reflexivity).
  assert (H3 : (c (c 7%float) =? c 7%float)%float = false)
    by (vm_compute; reflexivity).
  repeat split; try assumption.
  intros E. rewrite E in H3. rewrite H1 in H3. vm_compute in H3.
  discriminate H3.
Qed.

(** [clamp_idempotent] at 7, with the bounds 0 and 5. *)
Lemma clamp_idempotent_witness :
  clamp DoubleToString.integralToString 5%float 0%float
    (clamp DoubleToString.integralToString 5%float 0%float 7%float)
  = clamp DoubleToString.integralToString 5%float 0%float 7%float.
Proof.
  apply (clamp_idempotent DoubleToString.integralToString 5%float 0%float 7%float);
    reflexivity.
Defined.

(** C10 as stated fails on a sparse array: of the three slots of
    [[{A, 1}, , {blank, 2}]] the second is a hole, which [forEach] skips;
    the result is valid and has two points. *)
Lemma valid_result_shorter_than_sparse_array :
  let slots :=
    [Some (rawPoint (JStr "A") (JNum 1%float)); None;
     Some (rawPoint (JStr " ") (JNum 2%float))] in
  let r :=
    validateRadarChartData DoubleToString.integralToString (JArr slots)
      None None in
  isValid r = true
  /\ processedData r
     = Some [mkPoint "A" 1%float; mkPoint "Category 3" 2%float]
  /\ length slots = 3
  /\ ~ (exists pd, processedData r = Some pd /\ length pd = length slots).
Proof.
  intros slots r.
  assert (Hpd : processedData r
                = Some [mkPoint "A" 1%float; mkPoint "Category 3" 2%float])
    by (vm_compute; reflexivity).
  split; [vm_compute; reflexivity|]. split; [exact Hpd|].
  split; [reflexivity|].
  intros (pd & Hpd' & Hlen). rewrite Hpd in Hpd'. injection Hpd' as <-.
  discriminate Hlen.
Qed.

(** [valid_result_preserves_length] on two points, the second with a
    blank name. *)
Lemma valid_result_preserves_length_witness :
  exists slots pd,
    JArr [Some (rawPoint (JStr "A") (JNum 7%float));
          Some (rawPoint (JStr "  ") (JNum 2%float))] = JArr slots
    /\ processedData
         (validateRadarChartData DoubleToString.integralToString
            (JArr [Some (rawPoint (JStr "A") (JNum 7%float));
                   Some (rawPoint (JStr "  ") (JNum 2%float))])
            None None)
       = Some pd
    /\ length pd = length slots.
Proof.
  destruct (valid_result_preserves_length DoubleToString.integralToString
              (JArr [Some (rawPoint (JStr "A") (JNum 7%float));
                     Some (rawPoint (JStr "  ") (JNum 2%float))])
              None None eq_refl)
    as (slots & pd & Hraw & Hpd & _ & _ & Hdense).
  exists slots, pd. split; [exact Hraw|]. split; [exact Hpd|].
  apply Hdense. injection Hraw as <-.
  repeat constructor; discriminate.
Defined.


End ValidatorProperties.

(* ===================================================================== *)
(** ** Properties of the chart calculations *)
(* ===================================================================== *)

Module ChartFacts.
Import JsString CHART_DEFAULTS ANIMATION_CONFIG Chart.

Section Normalizer.
Context {N : Type} `{JsNumber N}.

(** The padding loop appends the points numbered from the current length
    on, for as many rounds as the minimum requires. *)
Lemma normalizeLoop_pads (k : nat) :
  forall processedData : list (RadarChartDataPoint N),
  k = MINIMUM_SPOKES - length processedData ->
  normalizeLoop processedData
  = processedData ++ map paddingPoint (seq (length processedData) k).
Proof.
  induction k as [|k IH]; intros processedData Hk; simp normalizeLoop;
    destruct (lt_dec (length processedData) MINIMUM_SPOKES) as [Hlt|Hge];
    simpl; try lia.
  - now rewrite app_nil_r.
  - rewrite IH by (rewrite length_app; simpl; lia).
    rewrite length_app, <- app_assoc. simpl.
    now replace (length processedData + 1) with (S (length processedData)) by lia.
Qed.

(** C6.  [normalizedData] has length [max (length data) 5]; it is [data]
    itself, unchanged and in order, followed by the points named
    [Point n] of value 0, [n] running from [length data + 1] to 5.  A
    2-element input gets [Point 3], [Point 4] and [Point 5]. *)
Theorem normalizedData_pads_to_minimum :
  (forall data : list (RadarChartDataPoint N),
     length (normalizedData data) = Nat.max (length data) 5
     /\ normalizedData data
        = data ++ map (fun n => mkPoint ("Point " ++ ofIndex n) (lit 0))
                    (seq (length data + 1) (5 - length data)))
  /\ (forall a b : RadarChartDataPoint N,
        normalizedData [a; b]
        = [a; b; mkPoint "Point 3" (lit 0); mkPoint "Point 4" (lit 0);
           mkPoint "Point 5" (lit 0)]).
Proof.
  assert (Hpad : forall data : list (RadarChartDataPoint N),
            normalizedData data
            = data ++ map (fun n => mkPoint ("Point " ++ ofIndex n) (lit 0))
                        (seq (length data + 1) (5 - length data))).
  { intros data. unfold normalizedData.
    rewrite (normalizeLoop_pads (MINIMUM_SPOKES - length data)) by reflexivity.
    f_equal. unfold MINIMUM_SPOKES.
    replace (length data + 1) with (S (length data)) by lia.
    rewrite <- seq_shift, map_map. apply map_ext. intros n.
    unfold paddingPoint. now replace (n + 1) with (S n) by lia. }
  split.
  - intros data. split; [|apply Hpad].
    rewrite Hpad, length_app, length_map, length_seq. lia.
  - intros a b. rewrite Hpad. reflexivity.
Qed.

End Normalizer.

(** *** Dimensions *)

Lemma lit_real_integer (z : Z) : lit (N := R) (inject_Z z) = IZR z.
Proof. unfold lit, JsNumber_real, Q2R. simpl. now rewrite Rinv_1, Rmult_1_r. Qed.

(** [useChartDimensions] over the reals, literals evaluated. *)
Lemma useChartDimensions_real (width height spokeCount : R) :
  useChartDimensions width height spokeCount
  = mkDimensions (width / 2)%R (height / 2)%R (Rmin width height / 2 - 60)%R
      (Rmax 5 spokeCount) (2 * PI / Rmax 5 spokeCount)%R.
Proof.
  unfold useChartDimensions, ofNat, MINIMUM_SPOKES, PADDING.
  change 2%Q with (inject_Z 2). change 60%Q with (inject_Z 60).
  rewrite !lit_real_integer. reflexivity.
Qed.

(** [Math.max(5, hint)] is at least 5, and is the hint or 5, unless the
    hint is NaN. *)
Lemma spokeCount_at_least_5 (hint : float) :
  PrimFloat.is_nan hint = false ->
  (5 <=? Double.max 5 hint)%float = true
  /\ (Double.max 5 hint = hint \/ Double.max 5 hint = 5%float).
Proof.
  intros Hhint.
  assert (H5 : PrimFloat.is_nan 5 = false) by reflexivity.
  unfold Double.max. rewrite H5, Hhint.
  change (PrimFloat.is_zero 5) with false.
  cbn [orb].
  destruct (5 <? hint)%float eqn:Hlt.
  - split; [now apply JsNumberOrder.ltb_leb | now left].
  - destruct (hint <? 5)%float;
      (split; [now apply JsNumberOrder.leb_refl | now right]).
Qed.




(** Over the doubles the product is [2 * Math.PI] up to rounding only:
    for 25 spokes it differs from it, by less than 1e-15. *)
Example angleStep_product_rounded :
  let d := useChartDimensions 400%float 400%float 25%float in
  (angleStep d * spokeCount d =? 2 * Double.PI)%float = false
  /\ (PrimFloat.abs (angleStep d * spokeCount d - 2 * Double.PI)
      <? 1e-15)%float = true.
Proof. split; vm_compute; reflexivity. Qed.

(** *** Animated points, over the reals *)

Section AnimatedPoints.
Local Open Scope R_scope.

Lemma ofNat_real (n : nat) : ofNat (N := R) n = INR n.
Proof. unfold ofNat. rewrite lit_real_integer. symmetry. apply INR_IZR_INZ. Qed.

(** [staticDataPoint] over the reals, literals evaluated. *)
Lemma staticDataPoint_real (dims : ChartDimensions R) (maxValue : R)
    (index : nat) (dataPoint : RadarChartDataPoint R) :
  staticDataPoint dims maxValue index dataPoint
  = let angle := INR index * angleStep dims - PI / 2 in
    mkStatic angle
      (radius dims * Rmax 0 (Rmin maxValue (value dataPoint)) / maxValue)
      (centerX dims) (centerY dims) (cos angle) (sin angle).
Proof.
  unfold staticDataPoint. rewrite ofNat_real.
  change 2%Q with (inject_Z 2). change 0%Q with (inject_Z 0).
  rewrite !lit_real_integer. reflexivity.
Qed.

(** Points that are each the center at progress 0 are all mapped to it. *)
Lemma dataPoints_collapse (center : Point R)
    (data : list (RadarChartDataPoint R)) :
  forall g : nat -> RadarChartDataPoint R -> StaticDataPoint R,
  (forall i p, animatedPoint 0 (g i p) = center) ->
  dataPoints (imap g data) 0 = map (fun _ => center) data.
Proof.
  unfold dataPoints.
  induction data as [|p data IH]; intros g Hg; [reflexivity|].
  simpl. rewrite Hg. f_equal. apply IH. intros i q. apply Hg.
Qed.

(** Over the reals, under [maxValue > 0], for the static point [sp] of any
    data point: the animated point at [progress] is
    [(centerX + maxRadius*progress*cos, centerY + maxRadius*progress*sin)];
    at progress 0 it is the center, so that [dataPoints] at progress 0 is
    the center repeated; at progress 1 it is
    [(centerX + maxRadius*cos, centerY + maxRadius*sin)], at distance
    [maxRadius] from the center, where [maxRadius] is the share
    [clamp(value)/maxValue], between 0 and 1, of the radius. *)
Lemma animatedPoint_real (dims : ChartDimensions R) (maxValue : R)
    (index : nat) (dataPoint : RadarChartDataPoint R) (progress : R) :
  0 < maxValue ->
  let sp := staticDataPoint dims maxValue index dataPoint in
  let full := animatedPoint 1 sp in
  animatedPoint progress sp
  = mkXY (centerX dims + s_maxRadius sp * progress * s_cos sp)
         (centerY dims + s_maxRadius sp * progress * s_sin sp)
  /\ animatedPoint 0 sp = mkXY (centerX dims) (centerY dims)
  /\ (forall data : list (RadarChartDataPoint R),
        dataPoints (staticDataPoints dims data maxValue) 0
        = map (fun _ => mkXY (centerX dims) (centerY dims)) data)
  /\ full = mkXY (centerX dims + s_maxRadius sp * s_cos sp)
                 (centerY dims + s_maxRadius sp * s_sin sp)
  /\ (x full - centerX dims) ^ 2 + (y full - centerY dims) ^ 2
     = s_maxRadius sp ^ 2
  /\ (exists share, 0 <= share <= 1 /\ s_maxRadius sp = radius dims * share).
Proof.
  intros Hmax sp full.
  assert (Hcollapse : forall i p,
            animatedPoint 0 (staticDataPoint dims maxValue i p)
            = mkXY (centerX dims) (centerY dims)).
  { intros i p. rewrite staticDataPoint_real. unfold animatedPoint. simpl.
    f_equal; ring. }
  split; [|split; [|split; [|split; [|split]]]].
  - unfold animatedPoint. reflexivity.
  - apply Hcollapse.
  - intros data. apply dataPoints_collapse, Hcollapse.
  - subst full sp. rewrite staticDataPoint_real. unfold animatedPoint. simpl.
    f_equal; ring.
  - subst full sp. rewrite staticDataPoint_real. unfold animatedPoint. simpl.
    set (angle := INR index * angleStep dims - PI / 2).
    set (clamped := Rmax 0 (Rmin maxValue (value dataPoint))).
    pose proof (sin2_cos2 angle) as Hsc. unfold Rsqr in Hsc.
    transitivity
      ((radius dims * clamped / maxValue) ^ 2
       * (sin angle * sin angle + cos angle * cos angle)); [ring|].
    rewrite Hsc. ring.
  - subst sp. rewrite staticDataPoint_real. simpl.
    set (clamped := Rmax 0 (Rmin maxValue (value dataPoint))).
    exists (clamped / maxValue).
    assert (H0 : 0 <= clamped) by apply Rmax_l.
    assert (H1 : clamped <= maxValue).
    { unfold clamped. apply Rmax_lub; [lra | apply Rmin_l]. }
    repeat split.
    + apply Rmult_le_pos; [exact H0 | left; apply Rinv_0_lt_compat; exact Hmax].
    + apply (Rmult_le_reg_r maxValue); [exact Hmax|].
      unfold Rdiv. rewrite Rmult_assoc, Rinv_l by lra. lra.
    + unfold Rdiv. ring.
Qed.

End AnimatedPoints.

(** *** Animated points, over the doubles *)

(** The animated point as the doubles compute it: the same formula, each
    operation rounded.  At progress 1 the product [maxRadius * 1] is
    [maxRadius] itself, so the point is
    [(centerX + maxRadius*cos, centerY + maxRadius*sin)], whatever the
    static point.  At progress 0 the point compares equal ([===]) to the
    center, when the members of the static point are finite. *)
Lemma animatedPoint_double (sp : StaticDataPoint float) :
  (forall progress : float,
     animatedPoint progress sp
     = mkXY (s_centerX sp + s_maxRadius sp * progress * s_cos sp)%float
            (s_centerY sp + s_maxRadius sp * progress * s_sin sp)%float)
  /\ animatedPoint 1%float sp
     = mkXY (s_centerX sp + s_maxRadius sp * s_cos sp)%float
            (s_centerY sp + s_maxRadius sp * s_sin sp)%float
  /\ (PrimFloat.is_finite (s_centerX sp) = true ->
      PrimFloat.is_finite (s_centerY sp) = true ->
      PrimFloat.is_finite (s_maxRadius sp) = true ->
      PrimFloat.is_finite (s_cos sp) = true ->
      PrimFloat.is_finite (s_sin sp) = true ->
      let p := animatedPoint 0%float sp in
      (x p =? s_centerX sp)%float = true
      /\ (y p =? s_centerY sp)%float = true).
Proof.
  split; [|split].
  - intros progress. reflexivity.
  - unfold animatedPoint. simpl. now rewrite DoubleArith.mul_one_r.
  - intros Hcx Hcy Hr Hcos Hsin p. subst p. unfold animatedPoint. simpl.
    split; apply DoubleArith.add_mul_zero; assumption.
Qed.

(** Members that are not finite do break the collapse to the center: an
    infinite [maxRadius] gives NaN coordinates at progress 0. *)
Example animatedPoint_double_infinite :
  let sp := mkStatic 0%float infinity 200%float 200%float 1%float 0%float in
  (x (animatedPoint 0%float sp) =? 200)%float = false.
Proof. vm_compute. reflexivity. Qed.

(** A sum with a product of NaN compares equal to nothing. *)
Lemma nan_product_not_equal (a b c : float) :
  (a + PrimFloat.nan * c =? b)%float = false.
Proof.
  rewrite FloatAxioms.eqb_spec, add_spec, mul_spec.
  change (Prim2SF PrimFloat.nan) with S754_nan.
  unfold SF64mul, SFmul. cbn [SFeqb].
  destruct (Prim2SF a); reflexivity.
Qed.




(** *** The path *)

Lemma append_assoc (s1 s2 s3 : string) :
  ((s1 ++ s2) ++ s3 = s1 ++ (s2 ++ s3))%string.
Proof.
  induction s1 as [|c s1 IH]; [reflexivity|].
  change (String c ((s1 ++ s2) ++ s3) = String c (s1 ++ (s2 ++ s3)))%string.
  now rewrite IH.
Qed.

Lemma append_empty_r (s : string) : (s ++ "")%string = s.
Proof.
  induction s as [|c s IH]; [reflexivity|].
  change (String c (s ++ "") = String c s)%string. now rewrite IH.
Qed.

Section PathBuilder.
Context {N : Type} `{JsNumber N}.
Variable toFixed : N -> nat -> string.

Lemma length_consecutivePairs (points : list (Point N)) :
  length (consecutivePairs points) = length points.
Proof.
  destruct points as [|first rest]; [reflexivity|].
  unfold consecutivePairs. rewrite length_zip_with.
  rewrite length_app. cbn [length]. lia.
Qed.

(** The partner of the point at [i] in [consecutivePairs] is the point at
    [(i + 1) % length]. *)
Lemma lookup_next (first : Point N) (rest : list (Point N)) (i : nat) :
  i < S (length rest) ->
  (first :: rest) !! ((i + 1) mod S (length rest)) = (rest ++ [first]) !! i.
Proof.
  intros Hi. destruct (decide (i = length rest)) as [->|Hne].
  - replace (length rest + 1) with (S (length rest)) by lia.
    rewrite Nat.Div0.mod_same. simpl.
    rewrite lookup_app_r by lia. now rewrite Nat.sub_diag.
  - rewrite Nat.mod_small by lia.
    replace (i + 1) with (S i) by lia. simpl.
    rewrite lookup_app_l by lia. reflexivity.
Qed.

Lemma lookup_consecutivePairs (points : list (Point N)) (i : nat)
    (current next : Point N) :
  consecutivePairs points !! i = Some (current, next) <->
  points !! i = Some current
  /\ points !! ((i + 1) mod length points) = Some next.
Proof.
  destruct points as [|first rest]; [simpl; split; [discriminate | intros [H0 _]; discriminate H0]|].
  unfold consecutivePairs. rewrite lookup_zip_with.
  split.
  - intros Hz.
    destruct ((first :: rest) !! i) as [c|] eqn:Hc; [|discriminate Hz].
    assert (Hi : i < S (length rest)).
    { apply lookup_lt_Some in Hc. simpl in Hc. exact Hc. }
    simpl length. rewrite (lookup_next _ _ _ Hi).
    simpl in Hz.
    destruct ((rest ++ [first]) !! i) as [n|]; [|discriminate Hz].
    simpl in Hz. injection Hz as -> ->. split; reflexivity.
  - intros [Hc Hn].
    assert (Hi : i < S (length rest)).
    { apply lookup_lt_Some in Hc. simpl in Hc. exact Hc. }
    simpl length in Hn. rewrite (lookup_next _ _ _ Hi) in Hn.
    rewrite Hc. simpl. rewrite Hn. reflexivity.
Qed.

(** The loop, from index [k] on, appends the curves of the pairs from
    [k] on, and does not throw. *)
Lemma radarPathLoop_curves (points : list (Point N)) (m : nat) :
  forall (k : nat) (path : string),
  k + m = length points ->
  radarPathLoop toFixed points (seq k m) path
  = Some (path ++ joinAll (map (fun cn => curveTo toFixed (fst cn) (snd cn))
                             (drop k (consecutivePairs points))))%string.
Proof.
  induction m as [|m IH]; intros k path Hk.
  - rewrite drop_ge by (rewrite length_consecutivePairs; lia).
    simpl. now rewrite append_empty_r.
  - assert (Hlt : k < length (consecutivePairs points))
      by (rewrite length_consecutivePairs; lia).
    destruct (lookup_lt_is_Some_2 _ _ Hlt) as [[current next] Hpair].
    pose proof (proj1 (lookup_consecutivePairs _ _ _ _) Hpair) as [Hc Hn].
    simpl. rewrite Hc. simpl. rewrite Hn. simpl.
    rewrite IH by lia.
    rewrite (drop_S _ _ _ Hpair). simpl.
    now rewrite append_assoc.
Qed.

(** C9.  [radarPath] of the empty list is the empty string.  For a
    non-empty list it returns (without throwing) the path of the
    specification: the move command at [points[0]], then one cubic curve
    per pair of consecutive points, the pair at index [i] being
    [(points[i], points[(i+1) % length])], so that the last point is paired
    with the first, then the closing marker [Z].  The control points of a
    curve are [current + delta * 0.15] and [next - delta * 0.15], with
    [delta = next - current]. *)
Theorem radarPath_spec :
  radarPath toFixed [] = Some ""
  /\ (forall (first : Point N) (rest : list (Point N)),
        let points := first :: rest in
        radarPath toFixed points = Some (smoothClosedPath_spec toFixed points)
        /\ smoothClosedPath_spec toFixed points
           = ("M " ++ toFixed (x first) 2 ++ " " ++ toFixed (y first) 2
              ++ joinAll (map (fun cn => curveTo toFixed (fst cn) (snd cn))
                            (consecutivePairs points))
              ++ " Z")%string
        /\ length (consecutivePairs points) = length points
        /\ (forall i current next,
              consecutivePairs points !! i = Some (current, next) <->
              points !! i = Some current
              /\ points !! ((i + 1) mod length points) = Some next))
  /\ (forall current next : Point N,
        let dx := (x next - x current)%js in
        let dy := (y next - y current)%js in
        curveTo toFixed current next
        = (" C " ++ toFixed (x current + dx * lit 0.15)%js 2
           ++ " " ++ toFixed (y current + dy * lit 0.15)%js 2
           ++ ", " ++ toFixed (x next - dx * lit 0.15)%js 2
           ++ " " ++ toFixed (y next - dy * lit 0.15)%js 2
           ++ ", " ++ toFixed (x next) 2 ++ " " ++ toFixed (y next) 2)%string).
Proof.
  split; [reflexivity|]. split; [|reflexivity].
  intros first rest points. split; [|split; [|split]].
  - unfold radarPath, points.
    change (Nat.eqb (length (first :: rest)) 0) with false.
    change ((first :: rest) !! 0) with (Some first).
    cbn [mbind option_bind].
    rewrite (radarPathLoop_curves (first :: rest) (length (first :: rest)) 0
               (moveTo toFixed first) eq_refl).
    cbn [mbind option_bind]. rewrite drop_0.
    unfold smoothClosedPath_spec. now rewrite append_assoc.
  - unfold smoothClosedPath_spec, points, moveTo.
    now rewrite !append_assoc.
  - apply length_consecutivePairs.
  - intros i current next. apply lookup_consecutivePairs.
Qed.

End PathBuilder.

End ChartFacts.

(* ===================================================================== *)
(** ** The Validator: further properties *)
(* ===================================================================== *)

Module ValidatorExtra.
Import JsString Validator JsNumberOrder ValidatorFacts ValidatorTerms.

(** A name validated without error was a non-empty string, not seen
    before in any case; it is recorded. *)
Lemma validateDataPointName_no_error (v : JsValue) (index : nat)
    (seen : gset string) :
  n_errors (fst (validateDataPointName v index seen)) = [] ->
  exists s,
    v = JStr s /\ s <> ""
    /\ processedName (fst (validateDataPointName v index seen))
       = expectedName index s
    /\ (toLowerCase (expectedName index s) ∉ seen)
    /\ snd (validateDataPointName v index seen)
       = {[ toLowerCase (expectedName index s) ]} ∪ seen.
Proof.
  unfold validateDataPointName, expectedName.
  destruct (negb (truthy v) || negb (String.eqb (typeof v) "string")) eqn:Hguard;
    [discriminate|].
  destruct v as [| | b | n | s | props | items | | | z];
    try (simpl in Hguard; rewrite ?orb_true_r in Hguard; discriminate Hguard).
  intros Herr. exists s. split; [reflexivity|]. split.
  { intros ->. discriminate Hguard. }
  destruct (Nat.eqb (String.length (trim s)) 0);
    destruct (decide _) as [Hin|Hout]; simpl in *;
    first [discriminate Herr | repeat split; assumption].
Qed.

(** The guard of [validateDataPointName] rejects what is not an accepted
    name. *)
Lemma name_guard (v : JsValue) :
  negb (truthy v) || negb (String.eqb (typeof v) "string")
  = negb (acceptedName v).
Proof.
  destruct v as [| | b | n | s | props | items | | | z]; simpl;
    rewrite ?orb_true_r, ?orb_false_r; reflexivity.
Qed.

(** What [validateDataPointName] reports carries its index and the field
    [name]; a name that is not accepted gets the type error, alone. *)
Lemma validateDataPointName_reports (v : JsValue) (index : nat)
    (seen : gset string) :
  let r := fst (validateDataPointName v index seen) in
  Forall (fun e => e_index e = Some index
                   /\ (e_type e = INVALID_DATA_TYPE
                       \/ e_type e = DUPLICATE_NAMES)) (n_errors r)
  /\ Forall (fun w => w_index w = Some index) (n_warnings r)
  /\ (acceptedName v = false ->
      exists e, n_errors r = [e] /\ reportsDefect (Some "name") index e).
Proof.
  unfold validateDataPointName. rewrite name_guard.
  destruct (acceptedName v); simpl.
  - set (trimmed := trim _).
    destruct (Nat.eqb (String.length trimmed) 0);
      destruct (decide _); simpl;
      (split; [|split; [|discriminate]]);
      repeat match goal with
             | |- context [if ?c then _ else _] => destruct c; simpl
             end;
      repeat (apply Forall_cons; split; [simpl; auto|]);
      apply Forall_nil_2.
  - split; [|split].
    + apply Forall_cons. split; [|apply Forall_nil_2]. simpl. auto.
    + apply Forall_nil_2.
    + intros _. eexists. split; [reflexivity|]. repeat split.
Qed.

Section WithNumberToString.
Variable show : float -> string.

(** What [validateDataPointValue] reports carries its index; a value that
    is not accepted gets the type error. *)
Lemma validateDataPointValue_reports (v : JsValue) (index : nat)
    (maxValue minValue : float) :
  let r := validateDataPointValue show v index maxValue minValue in
  Forall (fun e => e_index e = Some index
                   /\ (e_type e = INVALID_DATA_TYPE
                       \/ e_type e = DUPLICATE_NAMES)) (v_errors r)
  /\ Forall (fun w => w_index w = Some index) (v_warnings r)
  /\ (acceptedValue v = false ->
      exists e, v_errors r = [e] /\ reportsDefect (Some "value") index e).
Proof.
  unfold validateDataPointValue.
  destruct v as [| | b | n | s | props | items | | | z]; simpl;
    try (split; [|split];
         [ apply Forall_cons; split; [simpl; auto | apply Forall_nil_2]
         | apply Forall_nil_2
         | intros _; eexists; split; [reflexivity | repeat split] ]).
  destruct (PrimFloat.is_nan n); simpl.
  { split; [|split];
      [ apply Forall_cons; split; [simpl; auto | apply Forall_nil_2]
      | apply Forall_nil_2
      | intros _; eexists; split; [reflexivity | repeat split] ]. }
  destruct (n <? minValue)%float; [|destruct (maxValue <? n)%float]; simpl;
    (split; [apply Forall_nil_2 | split; [|discriminate]]);
    repeat first [ apply Forall_nil_2 | apply Forall_cons; split; [reflexivity|] ].
Qed.

(** The clamping does not depend on the index. *)
Lemma processedValue_clamp (v : float) (index : nat) (maxValue minValue : float) :
  processedValue (validateDataPointValue show (JNum v) index maxValue minValue)
  = clamp show maxValue minValue v.
Proof.
  unfold clamp, validateDataPointValue. simpl.
  destruct (PrimFloat.is_nan v); [reflexivity|].
  destruct (v <? minValue)%float; [reflexivity|].
  destruct (maxValue <? v)%float; reflexivity.
Qed.

(** A value validated without error was a number, not NaN. *)
Lemma validateDataPointValue_no_error (v : JsValue) (index : nat)
    (maxValue minValue : float) :
  v_errors (validateDataPointValue show v index maxValue minValue) = [] ->
  exists n, v = JNum n /\ PrimFloat.is_nan n = false.
Proof.
  destruct v as [| | b | n | s | props | items | | | z]; try discriminate.
  unfold validateDataPointValue. simpl.
  destruct (PrimFloat.is_nan n) eqn:Hn; [discriminate|].
  intros _. exists n. split; [reflexivity | exact Hn].
Qed.

(** One visit that leaves no error: the element was an object with an
    accepted, unseen name and an accepted value, and its point, with the
    name trimmed and the value clamped, is the one appended. *)
Lemma visitPoint_trace (maxValue minValue : float)
    (point : JsValue) (index : nat) (st : LoopState) :
  st_errors (visitPoint show maxValue minValue point index st) = [] ->
  st_errors st = []
  /\ exists s v,
       getProp point "name" = JStr s /\ s <> ""
       /\ getProp point "value" = JNum v /\ PrimFloat.is_nan v = false
       /\ (toLowerCase (expectedName index s) ∉ st_seenNames st)
       /\ st_seenNames (visitPoint show maxValue minValue point index st)
          = {[ toLowerCase (expectedName index s) ]} ∪ st_seenNames st
       /\ st_processedData (visitPoint show maxValue minValue point index st)
          = st_processedData st
              ++ [mkPoint (expectedName index s)
                    (clamp show maxValue minValue v)].
Proof.
  unfold visitPoint.
  destruct (negb (truthy point) || negb (String.eqb (typeof point) "object")).
  { simpl. intros H. apply app_eq_nil in H as [_ H]. discriminate H. }
  pose proof (processedName_truthy (getProp point "name") index (st_seenNames st))
    as Htruthy.
  pose proof (validateDataPointName_no_error (getProp point "name") index
                (st_seenNames st)) as Hname.
  destruct (validateDataPointName (getProp point "name") index (st_seenNames st))
    as [nameValidation seenNames'].
  simpl in Htruthy, Hname. simpl. intros H.
  apply app_eq_nil in H as [Hst H]. apply app_eq_nil in H as [Hn Hv].
  split; [exact Hst|].
  destruct (Hname Hn) as (s & Hs & Hne & Hpn & Hnew & Hseen).
  destruct (validateDataPointValue_no_error _ _ _ _ Hv) as (v & Hval & Hnan).
  exists s, v. rewrite Hval.
  repeat split; try assumption.
  unfold truthy, isNaN.
  rewrite Htruthy, processedValue_not_nan, processedValue_clamp, Hpn.
  reflexivity.
Qed.

(** The loop, when it ends without error: one point is appended for each
    visit, the point appended for the visit of the element at [i] is the
    expected one, and the names stay distinct in lower case. *)
Lemma forEachPoint_trace (maxValue minValue : float)
    (points : list (option JsValue)) :
  forall (index : nat) (st : LoopState),
  st_errors (forEachPoint show maxValue minValue points index st) = [] ->
  st_errors st = []
  /\ exists added,
       st_processedData (forEachPoint show maxValue minValue points index st)
       = st_processedData st ++ added
       /\ length added = length (visited points index)
       /\ (forall k i point,
             visited points index !! k = Some (i, point) ->
             exists s v,
               getProp point "name" = JStr s /\ s <> ""
               /\ getProp point "value" = JNum v
               /\ PrimFloat.is_nan v = false
               /\ added !! k
                  = Some (mkPoint (expectedName i s)
                            (clamp show maxValue minValue v)))
       /\ (NoDup (map nameKey (st_processedData st)) ->
           (forall p, p ∈ st_processedData st -> nameKey p ∈ st_seenNames st) ->
           NoDup (map nameKey (st_processedData st ++ added))).
Proof.
  induction points as [|[point|] rest IH]; intros index st; simpl.
  - intros Hst. split; [exact Hst|].
    exists []. rewrite app_nil_r.
    split; [reflexivity|]. split; [reflexivity|]. split; [|auto].
    intros k i point Hk. discriminate Hk.
  - intros H. destruct (IH _ _ H) as (Hvisit & added & Hpd & Hlen & Hlook & Hdup).
    destruct (visitPoint_trace _ _ _ _ _ Hvisit)
      as (Hst & s & v & Hname & Hne & Hval & Hnan & Hnew & Hseen & Hp).
    split; [exact Hst|].
    exists (mkPoint (expectedName index s) (clamp show maxValue minValue v)
              :: added).
    rewrite Hpd, Hp, <- app_assoc. simpl.
    split; [reflexivity|]. split; [now rewrite Hlen|]. split.
    + intros [|k] i p Hk; simpl in Hk.
      * injection Hk as <- <-. exists s, v.
        repeat split; assumption.
      * exact (Hlook k i p Hk).
    + intros Hnd Hin.
      change (st_processedData st
              ++ mkPoint (expectedName index s)
                   (clamp show maxValue minValue v) :: added)
        with (st_processedData st
              ++ [mkPoint (expectedName index s)
                    (clamp show maxValue minValue v)] ++ added).
      rewrite app_assoc, <- Hp. apply Hdup.
      * rewrite Hp, map_app. simpl. apply NoDup_app. repeat split.
        -- exact Hnd.
        -- intros k Hk Hk'. apply list_elem_of_singleton in Hk'. subst k.
           apply (list_elem_of_fmap nameKey) in Hk as (p & Hkey & Hp').
           apply Hnew. unfold nameKey in Hkey. simpl in Hkey.
           rewrite Hkey. apply Hin, Hp'.
        -- apply NoDup_singleton.
      * intros p Hp'. rewrite Hseen. rewrite Hp in Hp'.
        apply elem_of_app in Hp' as [Hold|Hnew'].
        -- apply elem_of_union_r, Hin, Hold.
        -- apply list_elem_of_singleton in Hnew'. subst p.
           apply elem_of_union_l, elem_of_singleton. reflexivity.
  - intros H. exact (IH _ _ H).
Qed.

(** The guard of the loop body rejects what is not an object point. *)
Lemma point_guard (point : JsValue) :
  negb (truthy point) || negb (String.eqb (typeof point) "object")
  = negb (isObjectPoint point).
Proof. unfold isObjectPoint. now rewrite negb_andb. Qed.

Lemma defectsReported_mono (point : JsValue) (index : nat)
    (errs errs' : list ValidationError) :
  (forall e, e ∈ errs -> e ∈ errs') ->
  defectsReported point index errs -> defectsReported point index errs'.
Proof.
  intros Hsub (H1 & H2 & H3). repeat split.
  - intros Hp. destruct (H1 Hp) as (e & He & Hr). exists e. auto.
  - intros Hp Hn. destruct (H2 Hp Hn) as (e & He & Hr). exists e. auto.
  - intros Hp Hv. destruct (H3 Hp Hv) as (e & He & Hr). exists e. auto.
Qed.

(** What one visit reports. *)
Lemma visitPoint_reports (maxValue minValue : float)
    (point : JsValue) (index : nat) (st : LoopState) :
  exists newErrors newWarnings,
    st_errors (visitPoint show maxValue minValue point index st)
    = st_errors st ++ newErrors
    /\ st_warnings (visitPoint show maxValue minValue point index st)
       = st_warnings st ++ newWarnings
    /\ Forall (loopError index 1) newErrors
    /\ Forall (loopWarning index 1) newWarnings
    /\ defectsReported point index newErrors.
Proof.
  assert (Hwiden : forall e : ValidationError,
            e_index e = Some index
            /\ (e_type e = INVALID_DATA_TYPE \/ e_type e = DUPLICATE_NAMES) ->
            loopError index 1 e).
  { intros e [Hi Ht]. split; [|exact Ht]. exists index. split; [exact Hi | lia]. }
  assert (Hwiden' : forall w : ValidationWarning,
            w_index w = Some index -> loopWarning index 1 w).
  { intros w Hi. exists index. split; [exact Hi | lia]. }
  unfold visitPoint. rewrite point_guard.
  destruct (isObjectPoint point) eqn:Hobj; simpl.
  - pose proof (validateDataPointName_reports (getProp point "name") index
                  (st_seenNames st)) as (Hne & Hnw & Hnd).
    pose proof (validateDataPointValue_reports (getProp point "value") index
                  maxValue minValue) as (Hve & Hvw & Hvd).
    destruct (validateDataPointName (getProp point "name") index (st_seenNames st))
      as [nameValidation seenNames'].
    simpl in *.
    exists (n_errors nameValidation
            ++ v_errors (validateDataPointValue show (getProp point "value")
                           index maxValue minValue)),
           (n_warnings nameValidation
            ++ v_warnings (validateDataPointValue show (getProp point "value")
                             index maxValue minValue)).
    split; [reflexivity|]. split; [reflexivity|]. split; [|split].
    + apply Forall_app. split; eapply Forall_impl; eauto.
    + apply Forall_app. split; eapply Forall_impl; eauto.
    + repeat split.
      * rewrite Hobj. discriminate.
      * intros _ Hname. destruct (Hnd Hname) as (e & -> & Hr).
        exists e. split; [|exact Hr]. apply elem_of_app. left.
        apply list_elem_of_singleton. reflexivity.
      * intros _ Hvalue. destruct (Hvd Hvalue) as (e & -> & Hr).
        exists e. split; [|exact Hr]. apply elem_of_app. right.
        apply list_elem_of_singleton. reflexivity.
  - eexists. exists []. split; [reflexivity|].
    split; [now rewrite app_nil_r|]. split; [|split].
    + apply Forall_cons. split; [|apply Forall_nil_2].
      apply Hwiden. simpl. auto.
    + apply Forall_nil_2.
    + repeat split; try (rewrite Hobj; discriminate).
      intros _. eexists. split; [apply list_elem_of_singleton; reflexivity|].
      repeat split.
Qed.

(** What the loop reports: errors and warnings are only ever added, each
    carries the index of an element visited, and every defect of every
    element visited has its error. *)
Lemma forEachPoint_reports (maxValue minValue : float)
    (points : list (option JsValue)) :
  forall (index : nat) (st : LoopState),
  exists newErrors newWarnings,
    st_errors (forEachPoint show maxValue minValue points index st)
    = st_errors st ++ newErrors
    /\ st_warnings (forEachPoint show maxValue minValue points index st)
       = st_warnings st ++ newWarnings
    /\ Forall (loopError index (length points)) newErrors
    /\ Forall (loopWarning index (length points)) newWarnings
    /\ (forall j point,
          points !! j = Some (Some point) ->
          defectsReported point (index + j) newErrors).
Proof.
  induction points as [|[point|] rest IH]; intros index st; simpl.
  - exists [], []. rewrite !app_nil_r.
    split; [reflexivity|]. split; [reflexivity|].
    split; [apply Forall_nil_2|]. split; [apply Forall_nil_2|].
    intros j point Hj. discriminate Hj.
  - destruct (visitPoint_reports maxValue minValue point index st)
      as (e1 & w1 & He1 & Hw1 & Hfe1 & Hfw1 & Hd1).
    destruct (IH (S index) (visitPoint show maxValue minValue point index st))
      as (e2 & w2 & He2 & Hw2 & Hfe2 & Hfw2 & Hd2).
    exists (e1 ++ e2), (w1 ++ w2).
    rewrite He2, He1, Hw2, Hw1, <- !app_assoc.
    split; [reflexivity|]. split; [reflexivity|]. split; [|split].
    + apply Forall_app. split; (eapply Forall_impl; [eassumption|]).
      * intros e [(i & Hi & Hb) Ht]. split; [|exact Ht].
        exists i. split; [exact Hi | lia].
      * intros e [(i & Hi & Hb) Ht]. split; [|exact Ht].
        exists i. split; [exact Hi | lia].
    + apply Forall_app. split; (eapply Forall_impl; [eassumption|]).
      * intros w (i & Hi & Hb). exists i. split; [exact Hi | lia].
      * intros w (i & Hi & Hb). exists i. split; [exact Hi | lia].
    + intros [|j] p Hj; simpl in Hj.
      * injection Hj as <-. rewrite Nat.add_0_r.
        eapply defectsReported_mono; [|exact Hd1].
        intros e He. apply elem_of_app. now left.
      * replace (index + S j) with (S index + j) by lia.
        eapply defectsReported_mono; [|exact (Hd2 j p Hj)].
        intros e He. apply elem_of_app. now right.
  - destruct (IH (S index) st) as (e2 & w2 & He2 & Hw2 & Hfe2 & Hfw2 & Hd2).
    exists e2, w2.
    split; [exact He2|]. split; [exact Hw2|]. split; [|split].
    + eapply Forall_impl; [eassumption|].
      intros e [(i & Hi & Hb) Ht]. split; [|exact Ht].
      exists i. split; [exact Hi | lia].
    + eapply Forall_impl; [eassumption|].
      intros w (i & Hi & Hb). exists i. split; [exact Hi | lia].
    + intros [|j] p Hj; simpl in Hj; [discriminate Hj|].
      replace (index + S j) with (S index + j) by lia.
      exact (Hd2 j p Hj).
Qed.

(** The errors and warnings of a result on an array: those of the loop,
    then at most the final error. *)
Lemma result_reports (items : list (option JsValue))
    (maxValue minValue : option float) :
  items <> [] ->
  let r := validateRadarChartData show (JArr items) maxValue minValue in
  exists loopErrors final,
    errors r = loopErrors ++ final
    /\ Forall (loopError 0 (length items)) loopErrors
    /\ Forall (fun e => e_type e = EMPTY_VALUES /\ e_index e = None) final
    /\ Forall (loopWarning 0 (length items)) (warnings r)
    /\ (forall j point,
          items !! j = Some (Some point) ->
          defectsReported point j loopErrors).
Proof.
  intros Hne. unfold validateRadarChartData. simpl.
  destruct items as [|item items']; [contradiction|].
  change (Nat.eqb (length (item :: items')) 0) with false. cbv iota.
  set (items := item :: items') in *.
  destruct (forEachPoint_reports (default 5%float maxValue)
              (default 0%float minValue) items 0 (mkState [] [] [] ∅))
    as (e & w & He & Hw & Hfe & Hfw & Hd).
  cbn [st_errors st_warnings app] in He, Hw.
  set (st := forEachPoint _ _ _ _ _ _) in *.
  exists e.
  destruct (Nat.eqb (length (st_processedData st)) 0); simpl.
  - eexists. rewrite He. split; [reflexivity|].
    split; [exact Hfe|]. split; [|split; [rewrite Hw; exact Hfw | exact Hd]].
    apply Forall_cons. split; [split; reflexivity | apply Forall_nil_2].
  - exists []. rewrite He, app_nil_r. split; [reflexivity|].
    split; [exact Hfe|]. split; [|split; [rewrite Hw; exact Hfw | exact Hd]].
    apply Forall_nil_2.
Qed.

(** X4. Every index that a result reports, in an error or in a warning, is
    the index of an element of the input array; and no error has the type
    INVALID_RANGE. *)
Theorem reported_indices_in_bounds
    (raw : JsValue) (maxValue minValue : option float) :
  let r := validateRadarChartData show raw maxValue minValue in
  (forall e i, e ∈ errors r -> e_index e = Some i ->
     exists items, raw = JArr items /\ i < length items)
  /\ (forall w i, w ∈ warnings r -> w_index w = Some i ->
      exists items, raw = JArr items /\ i < length items)
  /\ (forall e, e ∈ errors r -> e_type e <> INVALID_RANGE).
Proof.
  destruct raw as [| | b | n | s | props | items | | | z];
    try (rewrite not_array_missing_data by reflexivity; simpl;
         repeat split;
         [ intros e i He Hi; apply list_elem_of_singleton in He; subst e;
           discriminate Hi
         | intros w i Hw; inversion Hw
         | intros e He; apply list_elem_of_singleton in He; subst e;
           discriminate ]).
  destruct items as [|item items'].
  { simpl. repeat split.
    - intros e i He Hi. apply list_elem_of_singleton in He. subst e.
      discriminate Hi.
    - intros w i Hw. inversion Hw.
    - intros e He. apply list_elem_of_singleton in He. subst e. discriminate. }
  set (items := item :: items').
  assert (Hne : items <> []) by discriminate.
  pose proof (result_reports items maxValue minValue Hne) as Hrep.
  cbv zeta in Hrep. destruct Hrep as (le & fin & He & Hle & Hfin & Hw & _).
  intros r. subst r. rewrite He.
  rewrite Forall_forall in Hle. rewrite Forall_forall in Hfin.
  rewrite Forall_forall in Hw. repeat split.
  - intros e i Hin Hi. exists items. split; [reflexivity|].
    apply elem_of_app in Hin as [Hin|Hin].
    + destruct (Hle e Hin) as [(i' & Hi' & Hb) _]. rewrite Hi in Hi'.
      injection Hi' as <-. lia.
    + destruct (Hfin e Hin) as [_ Hnone]. congruence.
  - intros w i Hin Hi. exists items. split; [reflexivity|].
    destruct (Hw w Hin) as (i' & Hi' & Hb). rewrite Hi in Hi'.
    injection Hi' as <-. lia.
  - intros e Hin. apply elem_of_app in Hin as [Hin|Hin].
    + destruct (Hle e Hin) as [_ [Ht|Ht]]; rewrite Ht; discriminate.
    + destruct (Hfin e Hin) as [Ht _]. rewrite Ht. discriminate.
Qed.

(** X5. No defect is passed over: whatever the other elements are, an
    element that is not an object has its type error in the result, under
    its index; so has an object whose name is not a non-empty string; so
    has an object whose value is not a number other than NaN. *)
Theorem every_defect_reported
    (items : list (option JsValue)) (maxValue minValue : option float)
    (i : nat) (point : JsValue) :
  items !! i = Some (Some point) ->
  defectsReported point i
    (errors (validateRadarChartData show (JArr items) maxValue minValue)).
Proof.
  intros Hi.
  assert (Hne : items <> []) by (intros ->; discriminate Hi).
  pose proof (result_reports items maxValue minValue Hne) as Hrep.
  cbv zeta in Hrep. destruct Hrep as (le & fin & He & _ & _ & _ & Hd).
  rewrite He. eapply defectsReported_mono; [|exact (Hd i point Hi)].
  intros e Hin. apply elem_of_app. now left.
Qed.

(** A number validated without warning lies within the bounds and is
    handed back as it is. *)
Lemma validateDataPointValue_no_warning
    (v : float) (index : nat) (maxValue minValue : float) :
  PrimFloat.is_nan v = false ->
  v_warnings (validateDataPointValue show (JNum v) index maxValue minValue) = [] ->
  (v <? minValue)%float = false /\ (maxValue <? v)%float = false
  /\ clamp show maxValue minValue v = v.
Proof.
  intros Hv. unfold clamp, validateDataPointValue. simpl. rewrite Hv.
  destruct (v <? minValue)%float; simpl; [discriminate|].
  destruct (maxValue <? v)%float; simpl; [discriminate|].
  intros _. repeat split.
Qed.

(** X6. On a number other than NaN, [validateDataPointValue] reports no
    error, and a warning, the single DATA_CLAMPED of its index, exactly
    when the value is changed, that is when it lies below [minValue] or
    above [maxValue]. *)
Theorem clamp_warning_iff_changed
    (v : float) (index : nat) (maxValue minValue : float) :
  PrimFloat.is_nan v = false ->
  let r := validateDataPointValue show (JNum v) index maxValue minValue in
  v_errors r = []
  /\ (v_warnings r = [] <-> processedValue r = v)
  /\ (v_warnings r = [] <->
      (v <? minValue)%float = false /\ (maxValue <? v)%float = false)
  /\ (v_warnings r = []
      \/ exists message,
           v_warnings r
           = [mkWarning DATA_CLAMPED message (Some "value") (Some index)]).
Proof.
  intros Hv. unfold validateDataPointValue. simpl. rewrite Hv.
  destruct (v <? minValue)%float eqn:Hlo; simpl.
  { repeat split; try discriminate.
    - intros <-. rewrite ltb_irrefl in Hlo. discriminate Hlo.
    - intros [H _]. discriminate H.
    - right. eexists. reflexivity. }
  destruct (maxValue <? v)%float eqn:Hhi; simpl.
  - repeat split; try discriminate.
    + intros ->. rewrite ltb_irrefl in Hhi. discriminate Hhi.
    + intros [_ H]. discriminate H.
    + right. eexists. reflexivity.
  - repeat split; auto.
Qed.

(** A string validated as a name without warning keeps letters after
    trimming, at most 20 of them, none of them special. *)
Lemma validateDataPointName_no_warning (s : string) (index : nat)
    (seen : gset string) :
  s <> "" ->
  n_warnings (fst (validateDataPointName (JStr s) index seen)) = [] ->
  expectedName index s = trim s
  /\ 1 <= String.length (trim s) <= MAX_NAME_LENGTH
  /\ testSpecial (trim s) = false.
Proof.
  intros Hs. unfold validateDataPointName, expectedName.
  rewrite name_guard. simpl.
  destruct (String.eqb_spec s "") as [->|_]; [contradiction|]. simpl.
  destruct (Nat.eqb (String.length (trim s)) 0) eqn:Hlen;
    destruct (decide _); simpl; try discriminate;
    (destruct (Nat.ltb MAX_NAME_LENGTH (String.length (trim s))) eqn:Hlong;
     simpl; [discriminate|]);
    (destruct (testSpecial (trim s)) eqn:Hspecial; simpl; [discriminate|]);
    intros _; apply Nat.eqb_neq in Hlen; apply Nat.ltb_ge in Hlong;
    repeat split; auto; lia.
Qed.

(** One visit that leaves neither error nor warning. *)
Lemma visitPoint_clean (maxValue minValue : float)
    (point : JsValue) (index : nat) (st : LoopState) :
  st_errors (visitPoint show maxValue minValue point index st) = [] ->
  st_warnings (visitPoint show maxValue minValue point index st) = [] ->
  forall s v,
    getProp point "name" = JStr s ->
    getProp point "value" = JNum v ->
    expectedName index s = trim s
    /\ 1 <= String.length (trim s) <= MAX_NAME_LENGTH
    /\ testSpecial (trim s) = false
    /\ (v <? minValue)%float = false /\ (maxValue <? v)%float = false
    /\ clamp show maxValue minValue v = v.
Proof.
  intros Herr Hwarn s v Hname Hval.
  destruct (visitPoint_trace _ _ _ _ _ Herr)
    as (_ & s' & v' & Hname' & Hne & Hval' & Hnan & _).
  rewrite Hname in Hname'. injection Hname' as <-.
  rewrite Hval in Hval'. injection Hval' as <-.
  revert Hwarn. unfold visitPoint. rewrite point_guard.
  destruct (isObjectPoint point) eqn:Hobj; simpl.
  - rewrite Hname, Hval.
    pose proof (validateDataPointName_no_warning s index (st_seenNames st) Hne)
      as Hclean.
    destruct (validateDataPointName (JStr s) index (st_seenNames st))
      as [nameValidation seenNames'].
    simpl in *. intros Hwarn.
    apply app_eq_nil in Hwarn as [_ Hwarn].
    apply app_eq_nil in Hwarn as [Hnw Hvw].
    destruct (Hclean Hnw) as (Hexp & Hlen & Hspecial).
    destruct (validateDataPointValue_no_warning v index maxValue minValue
                Hnan Hvw) as (Hlo & Hhi & Hclamp).
    repeat split; try assumption; lia.
  - revert Herr. unfold visitPoint. rewrite point_guard, Hobj. simpl.
    intros Herr. apply app_eq_nil in Herr as [_ Herr]. discriminate Herr.
Qed.

(** The loop, when it ends with neither error nor warning. *)
Lemma forEachPoint_clean (maxValue minValue : float)
    (points : list (option JsValue)) :
  forall (index : nat) (st : LoopState),
  st_errors (forEachPoint show maxValue minValue points index st) = [] ->
  st_warnings (forEachPoint show maxValue minValue points index st) = [] ->
  forall j point s v,
    points !! j = Some (Some point) ->
    getProp point "name" = JStr s ->
    getProp point "value" = JNum v ->
    expectedName (index + j) s = trim s
    /\ 1 <= String.length (trim s) <= MAX_NAME_LENGTH
    /\ testSpecial (trim s) = false
    /\ (v <? minValue)%float = false /\ (maxValue <? v)%float = false
    /\ clamp show maxValue minValue v = v.
Proof.
  induction points as [|[point|] rest IH];
    intros index st Herr Hwarn j p s v Hj.
  - discriminate Hj.
  - simpl in Herr, Hwarn.
    destruct (forEachPoint_reports maxValue minValue rest (S index)
                (visitPoint show maxValue minValue point index st))
      as (e & w & He & Hw & _).
    assert (Herr1 : st_errors (visitPoint show maxValue minValue point index st)
                    = []).
    { rewrite He in Herr. now apply app_eq_nil in Herr as [H _]. }
    assert (Hwarn1 : st_warnings (visitPoint show maxValue minValue point index st)
                     = []).
    { rewrite Hw in Hwarn. now apply app_eq_nil in Hwarn as [H _]. }
    destruct j as [|j]; simpl in Hj.
    + injection Hj as <-. rewrite Nat.add_0_r.
      apply (visitPoint_clean _ _ _ _ _ Herr1 Hwarn1).
    + replace (index + S j) with (S index + j) by lia.
      apply (IH _ _ Herr Hwarn j p s v Hj).
  - simpl in Herr, Hwarn.
    destruct j as [|j]; simpl in Hj; [discriminate Hj|].
    replace (index + S j) with (S index + j) by lia.
    apply (IH _ _ Herr Hwarn j p s v Hj).
Qed.

(** X7. A valid result without warning is the elements of the input, in
    order, with their names trimmed: one point for each element visited,
    its value within the bounds and unchanged, its name between 1 and 20
    characters long once trimmed, none of them special. *)
Theorem valid_result_without_warning
    (raw : JsValue) (maxValue minValue : option float) :
  let r := validateRadarChartData show raw maxValue minValue in
  isValid r = true ->
  warnings r = [] ->
  exists slots pd,
    raw = JArr slots /\ processedData r = Some pd
    /\ length pd = length (visited slots 0)
    /\ forall k i point,
         visited slots 0 !! k = Some (i, point) ->
         slots !! i = Some (Some point)
         /\ exists s v,
              getProp point "name" = JStr s
              /\ getProp point "value" = JNum v
              /\ pd !! k = Some (mkPoint (trim s) v)
              /\ 1 <= String.length (trim s) <= 20
              /\ testSpecial (trim s) = false
              /\ (v <? default 0%float minValue)%float = false
              /\ (default 5%float maxValue <? v)%float = false.
Proof.
  intros r Hvalid Hwarn.
  destruct (validateRadarChartData_valid show raw maxValue minValue Hvalid)
    as (slots & st & -> & Hst & Herr & _ & Hpd).
  exists slots, (st_processedData st).
  split; [reflexivity|]. split; [exact Hpd|].
  assert (Hw : st_warnings st = []).
  { revert Hvalid Hwarn. subst r st. unfold validateRadarChartData. simpl.
    destruct (Nat.eqb (length slots) 0); [discriminate|]. simpl. auto. }
  subst st.
  destruct (forEachPoint_trace _ _ _ _ _ Herr)
    as (_ & added & Hadded & Hlen & Hlook & _).
  rewrite Hadded. simpl. split; [exact Hlen|].
  intros k i point Hk.
  destruct (lookup_visited _ _ _ _ _ Hk) as (_ & _ & Hi).
  rewrite Nat.sub_0_r in Hi. split; [exact Hi|].
  destruct (Hlook k i point Hk) as (s & v & Hname & _ & Hval & _ & Hadd).
  destruct (forEachPoint_clean _ _ _ _ _ Herr Hw i point s v Hi Hname Hval)
    as (Hexp & Hlen' & Hspecial & Hlo & Hhi & Hclamp).
  exists s, v. simpl in *. rewrite Hadd, Hexp, Hclamp.
  unfold MAX_NAME_LENGTH in Hlen'. destruct Hlen' as [Hlen1 Hlen2].
  repeat split; assumption.
Qed.


(** X2. In a valid result no two processed names are equal up to case. *)
Theorem valid_result_names_distinct
    (raw : JsValue) (maxValue minValue : option float) :
  let r := validateRadarChartData show raw maxValue minValue in
  isValid r = true ->
  exists pd, processedData r = Some pd /\ NoDup (map nameKey pd).
Proof.
  intros r Hvalid.
  destruct (validateRadarChartData_valid show raw maxValue minValue Hvalid)
    as (items & st & -> & Hst & Herr & _ & Hpd).
  exists (st_processedData st). split; [exact Hpd|].
  subst st.
  destruct (forEachPoint_trace _ _ _ _ _ Herr)
    as (_ & added & Hadded & _ & _ & Hdup).
  rewrite Hadded. apply Hdup.
  - simpl. constructor.
  - simpl. intros p Hp. inversion Hp.
Qed.

Lemma isValid_iff_errors_nil
    (raw : JsValue) (maxValue minValue : option float) :
  isValid (validateRadarChartData show raw maxValue minValue) = true
  <-> errors (validateRadarChartData show raw maxValue minValue) = [].
Proof.
  destruct raw as [| | b | n | s | props | items | | | z];
    try (rewrite not_array_missing_data by reflexivity;
         split; discriminate).
  unfold validateRadarChartData. simpl.
  destruct (Nat.eqb (length items) 0); simpl; [split; discriminate|].
  set (st := forEachPoint _ _ _ _ _ _).
  destruct (st_processedData st) as [|p pd]; simpl.
  - rewrite length_app. simpl.
    replace (Nat.eqb (length (st_errors st) + 1) 0) with false
      by (symmetry; apply Nat.eqb_neq; lia).
    simpl. split; [discriminate|].
    intros H. apply app_eq_nil in H as [_ H]. discriminate H.
  - rewrite andb_true_r. destruct (st_errors st); simpl; split;
      first [reflexivity | discriminate].
Qed.

(** X3. A result is valid exactly when it carries no error: an invalid
    result always says why. *)
Theorem valid_iff_no_error
    (raw : JsValue) (maxValue minValue : option float) :
  let r := validateRadarChartData show raw maxValue minValue in
  isValid r = true <-> errors r = [].
Proof. apply isValid_iff_errors_nil. Qed.

End WithNumberToString.


(** [valid_result_names_distinct] on two points. *)
Lemma valid_result_names_distinct_witness :
  exists pd,
    processedData
      (validateRadarChartData DoubleToString.integralToString
         (JArr [Some (rawPoint (JStr "Speed") (JNum 3%float));
                Some (rawPoint (JStr "Power") (JNum 4%float))])
         None None)
    = Some pd
    /\ NoDup (map nameKey pd).
Proof.
  apply (valid_result_names_distinct DoubleToString.integralToString
           (JArr [Some (rawPoint (JStr "Speed") (JNum 3%float));
                  Some (rawPoint (JStr "Power") (JNum 4%float))])
           None None).
  reflexivity.
Defined.

(** [every_defect_reported] for a number in the place of a point, after a
    proper point. *)
Lemma every_defect_reported_witness :
  defectsReported (JNum 3%float) 1
    (errors
       (validateRadarChartData DoubleToString.integralToString
          (JArr [Some (rawPoint (JStr "A") (JNum 1%float)); Some (JNum 3%float)])
          None None)).
Proof.
  apply (every_defect_reported DoubleToString.integralToString
           [Some (rawPoint (JStr "A") (JNum 1%float)); Some (JNum 3%float)]
           None None 1 (JNum 3%float)).
  reflexivity.
Defined.

(** [clamp_warning_iff_changed] for the value 7 and the bounds 0 and 5. *)
Lemma clamp_warning_iff_changed_witness :
  v_errors
    (validateDataPointValue DoubleToString.integralToString
       (JNum 7%float) 0 5%float 0%float) = []
  /\ exists message,
       v_warnings
         (validateDataPointValue DoubleToString.integralToString
            (JNum 7%float) 0 5%float 0%float)
       = [mkWarning DATA_CLAMPED message (Some "value") (Some 0)].
Proof.
  destruct (clamp_warning_iff_changed DoubleToString.integralToString
              7%float 0 5%float 0%float eq_refl)
    as (Herr & _ & _ & [Hnone|Hwarn]).
  - discriminate Hnone.
  - split; [exact Herr | exact Hwarn].
Defined.

(** [valid_result_without_warning] on two points and a hole between
    them. *)
Lemma valid_result_without_warning_witness :
  exists pd,
    processedData
      (validateRadarChartData DoubleToString.integralToString
         (JArr [Some (rawPoint (JStr " Speed") (JNum 3%float)); None;
                Some (rawPoint (JStr "Power") (JNum 4%float))])
         None None)
    = Some pd
    /\ length pd = 2
    /\ pd !! 1 = Some (mkPoint (trim "Power") 4%float).
Proof.
  destruct (valid_result_without_warning DoubleToString.integralToString
              (JArr [Some (rawPoint (JStr " Speed") (JNum 3%float)); None;
                     Some (rawPoint (JStr "Power") (JNum 4%float))])
              None None eq_refl eq_refl)
    as (slots & pd & Hraw & Hpd & Hlen & Hlook).
  injection Hraw as <-.
  exists pd. split; [exact Hpd|]. split; [exact Hlen|].
  destruct (Hlook 1 2 (rawPoint (JStr "Power") (JNum 4%float)) eq_refl)
    as (_ & s & v & Hname & Hval & Hk & _).
  injection Hname as <-. injection Hval as <-. exact Hk.
Defined.

End ValidatorExtra.

(* ===================================================================== *)
(** ** Formatting of errors: properties *)
(* ===================================================================== *)

Module FormatExtra.
Import JsString Validator ValidationFormat.

Lemma groupStep_lookup (acc : gmap string (list ValidationError))
    (e : ValidationError) (key : string) :
  groupStep acc e !! key
  = if decide (typeName (e_type e) = key)
    then Some (default [] (acc !! key) ++ [e])
    else acc !! key.
Proof.
  unfold groupStep. rewrite lookup_insert.
  destruct (decide (typeName (e_type e) = key)) as [<-|Hne]; reflexivity.
Qed.

Lemma fold_groupStep_lookup (errors : list ValidationError) (key : string) :
  forall acc : gmap string (list ValidationError),
  fold_left groupStep errors acc !! key
  = match errorsUnder key errors with
    | [] => acc !! key
    | under => Some (default [] (acc !! key) ++ under)
    end.
Proof.
  unfold errorsUnder.
  induction errors as [|e rest IH]; intros acc; [reflexivity|].
  simpl fold_left. rewrite IH, groupStep_lookup, filter_cons.
  destruct (decide (typeName (e_type e) = key)) as [Heq|Hne].
  - destruct (filter _ rest) as [|e' under]; simpl.
    + reflexivity.
    + now rewrite <- app_assoc.
  - reflexivity.
Qed.

(** [errorsByType[key]] holds the errors of that type, in order, and is
    absent when there is none. *)
Lemma groupByType_lookup (errors : list ValidationError) (key : string) :
  groupByType errors !! key = groupOf (errorsUnder key errors).
Proof.
  unfold groupByType. rewrite fold_groupStep_lookup, lookup_empty.
  destruct (errorsUnder key errors); reflexivity.
Qed.

Lemma groupOf_permutation (l l' : list ValidationError) :
  l ≡ₚ l' ->
  (groupOf l = None <-> groupOf l' = None)
  /\ (forall g g', groupOf l = Some g -> groupOf l' = Some g' ->
      length g = length g').
Proof.
  intros Hperm. pose proof (Permutation_length Hperm) as Hlen.
  destruct l, l'; simpl in *; try discriminate; split;
    try (split; discriminate); try (split; reflexivity).
  - intros g g' H. discriminate H.
  - intros g g' [= <-] [= <-]. exact Hlen.
Qed.

(** X8. The message depends on the errors only through how many there are
    of each type: reordering them leaves it unchanged. *)
Theorem formatValidationErrors_permutation (errors errors' : list ValidationError) :
  errors ≡ₚ errors' ->
  formatValidationErrors errors = formatValidationErrors errors'.
Proof.
  intros Hperm. unfold formatValidationErrors.
  rewrite (Permutation_length Hperm).
  destruct (Nat.eqb (length errors') 0); [reflexivity|].
  rewrite !groupByType_lookup.
  assert (Hunder : forall key,
            errorsUnder key errors ≡ₚ errorsUnder key errors').
  { intros key. unfold errorsUnder. now rewrite Hperm. }
  assert (Hsame : forall key (A : Type) (a b : A),
            match groupOf (errorsUnder key errors) with
            | Some _ => a | None => b end
            = match groupOf (errorsUnder key errors') with
              | Some _ => a | None => b end).
  { intros key A a b.
    destruct (groupOf_permutation _ _ (Hunder key)) as [Hnone _].
    destruct (groupOf (errorsUnder key errors)) as [g|],
             (groupOf (errorsUnder key errors')) as [g'|]; try reflexivity.
    - destruct Hnone as [_ H]. discriminate (H eq_refl).
    - destruct Hnone as [H _]. discriminate (H eq_refl). }
  rewrite !Hsame.
  destruct (groupOf_permutation _ _ (Hunder "INVALID_DATA_TYPE")) as [Hnone Hlen].
  destruct (groupOf (errorsUnder "INVALID_DATA_TYPE" errors)) as [g|],
           (groupOf (errorsUnder "INVALID_DATA_TYPE" errors')) as [g'|].
  - now rewrite (Hlen g g' eq_refl eq_refl).
  - destruct Hnone as [_ H]. discriminate (H eq_refl).
  - destruct Hnone as [H _]. discriminate (H eq_refl).
  - reflexivity.
Qed.

Lemma concat_nonempty (sep : string) (parts : list string) :
  parts <> [] -> Forall (fun m => m <> "") parts ->
  String.concat sep parts <> "".
Proof.
  destruct parts as [|m rest]; [contradiction|].
  intros _ Hall. apply Forall_cons in Hall as [Hm _].
  destruct m as [|c m]; [contradiction|].
  simpl. destruct rest; discriminate.
Qed.

Lemma append_nonempty_r (a b : string) : b <> "" -> (a ++ b)%string <> "".
Proof.
  destruct a as [|c a]; [trivial|]. intros _. discriminate.
Qed.

Lemma format_empty_iff (errors : list ValidationError) :
  formatValidationErrors errors = "" <-> errors = [].
Proof.
  split; [|intros ->; reflexivity].
  destruct errors as [|e rest]; [reflexivity|].
  intros Hfmt. exfalso. revert Hfmt.
  unfold formatValidationErrors.
  change (Nat.eqb (length (e :: rest)) 0) with false. cbv iota.
  rewrite !groupByType_lookup.
  apply concat_nonempty.
  - assert (Hin : forall key, typeName (e_type e) = key ->
              exists g, groupOf (errorsUnder key (e :: rest)) = Some g).
    { intros key Hkey. unfold errorsUnder. rewrite filter_cons.
      destruct (decide (typeName (e_type e) = key)); [|contradiction].
      eexists. reflexivity. }
    destruct (Hin _ eq_refl) as [g Hg].
    destruct (e_type e); simpl typeName in Hg; rewrite Hg;
      repeat match goal with
             | |- context [match groupOf ?l with _ => _ end] =>
                 destruct (groupOf l)
             end; discriminate.
  - repeat match goal with
           | |- context [match groupOf ?l with _ => _ end] =>
               destruct (groupOf l)
           end;
      repeat (apply Forall_cons; split;
              [first [ discriminate
                     | apply append_nonempty_r; discriminate ] |]);
      apply Forall_nil_2.
Qed.

(** X9. The message is empty exactly when there is no error: whatever the
    errors, some sentence describes them. *)
Theorem formatValidationErrors_empty_iff (errors : list ValidationError) :
  formatValidationErrors errors = "" <-> errors = [].
Proof. apply format_empty_iff. Qed.

(** [formatValidationErrors_permutation] for two errors of different
    types, swapped. *)
Lemma formatValidationErrors_permutation_witness :
  formatValidationErrors
    [mkError DUPLICATE_NAMES "d" (Some "name") (Some 1);
     mkError INVALID_DATA_TYPE "t" (Some "value") (Some 0)]
  = formatValidationErrors
      [mkError INVALID_DATA_TYPE "t" (Some "value") (Some 0);
       mkError DUPLICATE_NAMES "d" (Some "name") (Some 1)].
Proof.
  apply (formatValidationErrors_permutation
           [mkError DUPLICATE_NAMES "d" (Some "name") (Some 1);
            mkError INVALID_DATA_TYPE "t" (Some "value") (Some 0)]
           [mkError INVALID_DATA_TYPE "t" (Some "value") (Some 0);
            mkError DUPLICATE_NAMES "d" (Some "name") (Some 1)]).
  apply perm_swap.
Defined.

(** X10. Validation and formatting together: the message formatted from
    the errors of a validation result is empty exactly when the result is
    valid, so an invalid result always comes with a message to show. *)
Theorem invalid_result_has_message
    (Number_toString : float -> string)
    (raw : JsValue) (maxValue minValue : option float) :
  let r := validateRadarChartData Number_toString raw maxValue minValue in
  formatValidationErrors (errors r) = "" <-> isValid r = true.
Proof.
  intros r. subst r.
  rewrite format_empty_iff.
  symmetry. apply ValidatorExtra.isValid_iff_errors_nil.
Qed.

End FormatExtra.

(* ===================================================================== *)
(** ** The chart hook: further properties *)
(* ===================================================================== *)

Module HookExtra.
Import JsString CHART_DEFAULTS ANIMATION_CONFIG Chart ChartHook ChartFacts.

Section Shape.
Context {N : Type} `{JsNumber N} `{JsTrig N}.
Variable toFixed : N -> nat -> string.

Lemma length_normalizedData (data : list (RadarChartDataPoint N)) :
  length (normalizedData data) = Nat.max (length data) 5.
Proof.
  unfold normalizedData.
  rewrite (normalizeLoop_pads (MINIMUM_SPOKES - length data)) by reflexivity.
  rewrite length_app, length_map, length_seq. unfold MINIMUM_SPOKES. lia.
Qed.

Lemma append_nonempty_l (a b : string) : a <> "" -> (a ++ b)%string <> "".
Proof. destruct a as [|c a]; [contradiction|]. intros _. discriminate. Qed.

(** On a non-empty list the path is built without throwing, and is the
    path the specification words. *)
Lemma radarPath_total (first : Point N) (rest : list (Point N)) :
  radarPath toFixed (first :: rest)
  = Some (smoothClosedPath_spec toFixed (first :: rest)).
Proof.
  unfold radarPath.
  change (Nat.eqb (length (first :: rest)) 0) with false.
  change ((first :: rest) !! 0) with (Some first).
  cbn [mbind option_bind].
  rewrite (radarPathLoop_curves toFixed (first :: rest)
             (length (first :: rest)) 0 (moveTo toFixed first) eq_refl).
  cbn [mbind option_bind]. rewrite drop_0.
  unfold smoothClosedPath_spec. now rewrite append_assoc.
Qed.

(** X11. Whatever the data, the hook hands back lists of one common
    length, [max (length data) 5]: the normalized data, the animated
    points and the spokes; five grid polygons; and a path, built without
    throwing, that is never empty. *)
Theorem useChartCalculations_shape (width height : N)
    (data : list (RadarChartDataPoint N)) (maxValue animationProgress : N) :
  let c :=
    useChartCalculations toFixed width height data maxValue animationProgress in
  let n := Nat.max (length data) 5 in
  length (c_normalizedData c) = n
  /\ length (c_dataPoints c) = n
  /\ length (c_spokes c) = n
  /\ length (c_gridPolygons c) = 5
  /\ spokeCount (c_dimensions c) = ofNat n
  /\ exists path,
       c_radarPath c = Some path
       /\ path = smoothClosedPath_spec toFixed (c_dataPoints c)
       /\ path <> "".
Proof.
  intros c n. subst c n. unfold useChartCalculations.
  cbn [c_normalizedData c_dataPoints c_spokes c_gridPolygons c_dimensions
       c_radarPath].
  pose proof (length_normalizedData data) as Hlen.
  assert (Hpoints : length (dataPoints
                              (staticDataPoints
                                 (dimensions width height (normalizedData data))
                                 (normalizedData data) maxValue)
                              animationProgress)
                    = Nat.max (length data) 5).
  { unfold dataPoints, staticDataPoints.
    now rewrite length_map, length_imap. }
  split; [exact Hlen|]. split; [exact Hpoints|].
  split; [unfold spokes; now rewrite length_map, length_seq|].
  split; [unfold gridPolygons; now rewrite length_map, length_seq|].
  split; [unfold dimensions; cbn [spokeCount]; now rewrite Hlen|].
  destruct (dataPoints _ _) as [|first rest] eqn:Hdp.
  { simpl in Hpoints. lia. }
  eexists. split; [apply radarPath_total|]. split; [reflexivity|].
  unfold smoothClosedPath_spec, moveTo.
  repeat apply append_nonempty_l. discriminate.
Qed.

End Shape.

Section Geometry.
Local Open Scope R_scope.

Lemma gridVertex_real (dims : ChartDimensions R) (r : R) (i : nat) :
  gridVertex dims r i
  = mkXY (centerX dims + r * cos (INR i * angleStep dims - PI / 2))
         (centerY dims + r * sin (INR i * angleStep dims - PI / 2)).
Proof.
  unfold gridVertex. rewrite ofNat_real.
  change 2%Q with (inject_Z 2). rewrite lit_real_integer. reflexivity.
Qed.

Lemma spoke_real (dims : ChartDimensions R) (i : nat) :
  spoke dims i
  = mkSpoke (centerX dims) (centerY dims)
      (centerX dims + radius dims * cos (INR i * angleStep dims - PI / 2))
      (centerY dims + radius dims * sin (INR i * angleStep dims - PI / 2)).
Proof.
  unfold spoke. rewrite ofNat_real.
  change 2%Q with (inject_Z 2). rewrite lit_real_integer. reflexivity.
Qed.

Lemma levelRadius_real (dims : ChartDimensions R) (level : nat) :
  levelRadius dims level = radius dims * INR level / 5.
Proof.
  unfold levelRadius, GRID_LEVELS. rewrite !ofNat_real. simpl INR at 2.
  simpl. f_equal. lra.
Qed.

(** X13. Every spoke starts at the center and ends on the vertex, of its
    index, of the outermost grid polygon, at distance [radius] from the
    center; the vertices of the grid level [level] lie at the distance
    [radius * level / 5]. *)
Theorem spoke_ends_on_outer_grid (dims : ChartDimensions R) (i : nat) :
  let s := spoke dims i in
  x1 s = centerX dims /\ y1 s = centerY dims
  /\ mkXY (x2 s) (y2 s) = gridVertex dims (levelRadius dims GRID_LEVELS) i
  /\ (x2 s - centerX dims) ^ 2 + (y2 s - centerY dims) ^ 2 = radius dims ^ 2
  /\ forall level,
       let v := gridVertex dims (levelRadius dims level) i in
       (x v - centerX dims) ^ 2 + (y v - centerY dims) ^ 2
       = (radius dims * INR level / 5) ^ 2.
Proof.
  intros s. subst s. rewrite spoke_real. cbn [x1 y1 x2 y2].
  split; [reflexivity|]. split; [reflexivity|]. split; [|split].
  - rewrite gridVertex_real, levelRadius_real. unfold GRID_LEVELS. simpl INR.
    f_equal; field.
  - pose proof (sin2_cos2 (INR i * angleStep dims - PI / 2)) as Hsc.
    unfold Rsqr in Hsc.
    transitivity
      (radius dims ^ 2
       * (sin (INR i * angleStep dims - PI / 2)
          * sin (INR i * angleStep dims - PI / 2)
          + cos (INR i * angleStep dims - PI / 2)
            * cos (INR i * angleStep dims - PI / 2))); [ring|].
    rewrite Hsc. ring.
  - intros level. rewrite gridVertex_real, levelRadius_real.
    cbn [x y].
    pose proof (sin2_cos2 (INR i * angleStep dims - PI / 2)) as Hsc.
    unfold Rsqr in Hsc.
    transitivity
      ((radius dims * INR level / 5) ^ 2
       * (sin (INR i * angleStep dims - PI / 2)
          * sin (INR i * angleStep dims - PI / 2)
          + cos (INR i * angleStep dims - PI / 2)
            * cos (INR i * angleStep dims - PI / 2))); [ring|].
    rewrite Hsc. ring.
Qed.

Lemma dimensions_real (width height : R)
    (normalizedData : list (RadarChartDataPoint R)) :
  dimensions width height normalizedData
  = mkDimensions (width / 2) (height / 2) (Rmin width height / 2 - 60)
      (INR (length normalizedData)) (2 * PI / INR (length normalizedData)).
Proof.
  unfold dimensions, PADDING. rewrite ofNat_real.
  change 2%Q with (inject_Z 2). change 60%Q with (inject_Z 60).
  rewrite !lit_real_integer. reflexivity.
Qed.

Lemma INR_max_5 (n : nat) : INR (Nat.max n 5) = Rmax 5 (INR n).
Proof.
  destruct (le_dec n 5) as [Hle|Hgt].
  - rewrite Nat.max_r by exact Hle. rewrite Rmax_left; [simpl; lra|].
    apply le_INR in Hle. simpl in Hle. lra.
  - rewrite Nat.max_l by lia. rewrite Rmax_right; [reflexivity|].
    assert (H5 : (5 <= n)%nat) by lia. apply le_INR in H5. simpl in H5. lra.
Qed.

(** X12. The dimensions computed inside the hook, from the normalized
    data, are those of [useChartDimensions] called with the length of the
    data as they came. *)
Theorem dimensions_agree (width height : R)
    (data : list (RadarChartDataPoint R)) :
  dimensions width height (normalizedData data)
  = useChartDimensions width height (ofNat (length data)).
Proof.
  rewrite dimensions_real, useChartDimensions_real, length_normalizedData.
  rewrite ofNat_real, INR_max_5. reflexivity.
Qed.

(** X14. The spokes divide the full turn evenly, starting at the top:
    the first spoke ends straight above the center, and with [n] spokes
    the vertex of index [i + n] would fall on the vertex of index [i]. *)
Theorem spokes_divide_full_turn (width height : R)
    (data : list (RadarChartDataPoint R)) (r : R) (i : nat) :
  let dims := dimensions width height (normalizedData data) in
  let n := length (normalizedData data) in
  spoke dims 0
  = mkSpoke (centerX dims) (centerY dims)
      (centerX dims) (centerY dims - radius dims)
  /\ gridVertex dims r (i + n) = gridVertex dims r i.
Proof.
  intros dims n. split.
  - rewrite spoke_real. simpl INR.
    replace (0 * angleStep dims - PI / 2) with (- (PI / 2)) by ring.
    rewrite cos_neg, sin_neg, cos_PI2, sin_PI2. f_equal; ring.
  - rewrite !gridVertex_real.
    assert (Hn : INR n <> 0).
    { subst n. rewrite length_normalizedData. apply not_0_INR. lia. }
    assert (Hangle : INR (i + n) * angleStep dims - PI / 2
                     = INR i * angleStep dims - PI / 2 + 2 * PI).
    { subst dims. rewrite dimensions_real. cbn [angleStep]. fold n.
      rewrite plus_INR. field. exact Hn. }
    rewrite Hangle, cos_plus, sin_plus, cos_2PI, sin_2PI.
    f_equal; ring.
Qed.

(** X15. Under [maxValue > 0]: a point of full score, or more, is drawn at
    progress 1 on the end of its spoke; a point whose value is zero or
    less stays on the center throughout the animation, and so does every
    padding point. *)
Theorem full_score_on_spoke_end (dims : ChartDimensions R) (maxValue : R)
    (i : nat) (dataPoint : RadarChartDataPoint R) :
  0 < maxValue ->
  let sp := staticDataPoint dims maxValue i dataPoint in
  (maxValue <= value dataPoint ->
   animatedPoint 1 sp = mkXY (x2 (spoke dims i)) (y2 (spoke dims i)))
  /\ (value dataPoint <= 0 ->
      forall progress,
        animatedPoint progress sp = mkXY (centerX dims) (centerY dims))
  /\ (forall len progress,
        animatedPoint progress
          (staticDataPoint dims maxValue i (paddingPoint len))
        = mkXY (centerX dims) (centerY dims)).
Proof.
  intros Hmax sp. subst sp. split; [|split].
  - intros Hfull. rewrite staticDataPoint_real, spoke_real.
    unfold animatedPoint. simpl.
    rewrite Rmin_left by exact Hfull. rewrite Rmax_right by lra.
    f_equal; field; lra.
  - intros Hzero progress. rewrite staticDataPoint_real.
    unfold animatedPoint. simpl.
    rewrite Rmin_right by lra. rewrite Rmax_left by exact Hzero.
    f_equal; field; lra.
  - intros len progress. rewrite staticDataPoint_real.
    unfold animatedPoint, paddingPoint. simpl.
    change 0%Q with (inject_Z 0). rewrite lit_real_integer.
    rewrite Rmin_right by lra. rewrite Rmax_left by lra.
    f_equal; field; lra.
Qed.

(** [full_score_on_spoke_end] for a score of 7 on a scale of 5. *)
Lemma full_score_on_spoke_end_witness :
  let dims := useChartDimensions 400 400 8 in
  0 < 5
  /\ animatedPoint 1 (staticDataPoint dims 5 2 (mkPoint "A" 7))
     = mkXY (x2 (spoke dims 2)) (y2 (spoke dims 2)).
Proof.
  intros dims.
  assert (H5 : 0 < 5) by lra.
  split; [exact H5|].
  apply (proj1 (full_score_on_spoke_end dims 5 2 (mkPoint "A" 7) H5)).
  simpl. lra.
Defined.

(** The share of the radius at which a value is drawn. *)
Lemma maxRadius_share (dims : ChartDimensions R) (maxValue : R)
    (i : nat) (dataPoint : RadarChartDataPoint R) :
  0 < maxValue ->
  s_maxRadius (staticDataPoint dims maxValue i dataPoint)
  = radius dims * (Rmax 0 (Rmin maxValue (value dataPoint)) / maxValue)
  /\ 0 <= Rmax 0 (Rmin maxValue (value dataPoint)) / maxValue <= 1.
Proof.
  intros Hmax. rewrite staticDataPoint_real. simpl.
  set (clamped := Rmax 0 (Rmin maxValue (value dataPoint))).
  assert (H0 : 0 <= clamped) by apply Rmax_l.
  assert (H1 : clamped <= maxValue).
  { unfold clamped. apply Rmax_lub; [lra | apply Rmin_l]. }
  split; [unfold Rdiv; ring|]. split.
  - apply Rmult_le_pos; [exact H0 | left; apply Rinv_0_lt_compat; exact Hmax].
  - apply (Rmult_le_reg_r maxValue); [exact Hmax|].
    unfold Rdiv. rewrite Rmult_assoc, Rinv_l by lra. lra.
Qed.

(** X16. While the progress runs from 0 to 1 no point leaves the circle of
    the chart: its distance to the center is at most [radius]. *)
Theorem animated_point_within_radius (dims : ChartDimensions R) (maxValue : R)
    (i : nat) (dataPoint : RadarChartDataPoint R) (progress : R) :
  0 < maxValue ->
  0 <= progress <= 1 ->
  let p := animatedPoint progress (staticDataPoint dims maxValue i dataPoint) in
  (x p - centerX dims) ^ 2 + (y p - centerY dims) ^ 2 <= radius dims ^ 2.
Proof.
  intros Hmax Hprogress p. subst p.
  destruct (maxRadius_share dims maxValue i dataPoint Hmax) as [Hr Hshare].
  revert Hr. rewrite staticDataPoint_real. unfold animatedPoint. simpl.
  set (angle := INR i * angleStep dims - PI / 2).
  set (share := Rmax 0 (Rmin maxValue (value dataPoint)) / maxValue) in *.
  intros ->.
  pose proof (sin2_cos2 angle) as Hsc. unfold Rsqr in Hsc.
  apply Rle_trans with (radius dims ^ 2 * (share * progress) ^ 2).
  { right.
    transitivity (radius dims ^ 2 * (share * progress) ^ 2
                  * (sin angle * sin angle + cos angle * cos angle)); [ring|].
    rewrite Hsc. ring. }
  assert (Hsp : 0 <= share * progress <= 1) by nra.
  assert (Hsq : (share * progress) ^ 2 <= 1) by nra.
  assert (Hr2 : 0 <= radius dims ^ 2) by nra.
  nra.
Qed.

(** [animated_point_within_radius] half way through the animation. *)
Lemma animated_point_within_radius_witness :
  let dims := useChartDimensions 400 400 8 in
  let p := animatedPoint (1 / 2) (staticDataPoint dims 5 2 (mkPoint "A" 3)) in
  0 < 5 /\ 0 <= 1 / 2 <= 1
  /\ (x p - centerX dims) ^ 2 + (y p - centerY dims) ^ 2 <= radius dims ^ 2.
Proof.
  intros dims p.
  assert (H5 : 0 < 5) by lra.
  assert (Hhalf : 0 <= 1 / 2 <= 1) by lra.
  split; [exact H5|]. split; [exact Hhalf|].
  exact (animated_point_within_radius dims 5 2 (mkPoint "A" 3) (1 / 2) H5 Hhalf).
Defined.

(** X17. A larger value is drawn farther from the center, never nearer:
    the distance [maxRadius] grows with the value. *)
Theorem larger_value_farther_out (dims : ChartDimensions R) (maxValue : R)
    (i j : nat) (p q : RadarChartDataPoint R) :
  0 < maxValue ->
  0 <= radius dims ->
  value p <= value q ->
  s_maxRadius (staticDataPoint dims maxValue i p)
  <= s_maxRadius (staticDataPoint dims maxValue j q).
Proof.
  intros Hmax Hradius Hle. rewrite !staticDataPoint_real. simpl.
  assert (Hclamped : Rmax 0 (Rmin maxValue (value p))
                     <= Rmax 0 (Rmin maxValue (value q))).
  { apply Rle_max_compat_l. apply Rle_min_compat_l. exact Hle. }
  unfold Rdiv. apply Rmult_le_compat_r.
  - left. apply Rinv_0_lt_compat. exact Hmax.
  - apply Rmult_le_compat_l; assumption.
Qed.

(** [larger_value_farther_out] for the values 2 and 4 on a scale of 5. *)
Lemma larger_value_farther_out_witness :
  let dims := useChartDimensions 400 400 8 in
  s_maxRadius (staticDataPoint dims 5 0 (mkPoint "A" 2))
  <= s_maxRadius (staticDataPoint dims 5 1 (mkPoint "B" 4)).
Proof.
  intros dims.
  apply (larger_value_farther_out dims 5 0 1 (mkPoint "A" 2) (mkPoint "B" 4)).
  - lra.
  - subst dims. rewrite useChartDimensions_real. simpl.
    rewrite Rmin_left by lra. lra.
  - simpl. lra.
Defined.

End Geometry.

End HookExtra.

(* ===================================================================== *)
(** ** The tooltip inside its container *)
(* ===================================================================== *)

Module TooltipExtra.
Import Tooltip TOOLTIP_CONFIG ChartFacts.

Section Placement.
Local Open Scope R_scope.

(** Case analysis on the comparisons of the goal, innermost first. *)
Ltac split_tests :=
  repeat match goal with
         | |- context [Rlt_dec ?a ?b] =>
             lazymatch a with
             | context [Rlt_dec] => fail
             | _ => destruct (Rlt_dec a b)
             end
         end.

(** [calculateTooltipPosition] over the reals, literals evaluated. *)
Lemma calculateTooltipPosition_real (mouseX mouseY : R) (rect : DOMRect R) :
  calculateTooltipPosition mouseX mouseY rect
  = mkXY
      (let x0 := mouseX - 80 / 2 + 20 in
       let x1 := if Rlt_dec (rect_width rect) (x0 + 80)
                 then mouseX - 80 - 10 else x0 in
       if Rlt_dec x1 0 then mouseX + 10 else x1)
      (let y0 := mouseY - 32 - 10 in
       if Rlt_dec y0 0 then mouseY + 10 else y0).
Proof.
  unfold calculateTooltipPosition, js_gt, js_lt, JsCompare_real,
    WIDTH, HEIGHT, MARGIN, RIGHT_OFFSET.
  change 80%Q with (inject_Z 80). change 32%Q with (inject_Z 32).
  change 10%Q with (inject_Z 10). change 20%Q with (inject_Z 20).
  change 2%Q with (inject_Z 2). change 0%Q with (inject_Z 0).
  rewrite !lit_real_integer. simpl.
  split_tests; reflexivity.
Qed.

(** X18. For a pointer at non-negative coordinates the tooltip never
    starts left of or above the container. It ends inside the right edge
    when the pointer is inside and the container is at least 150 wide, and
    inside the lower edge when the container is at least 84 high (80 by 32
    being the size of the tooltip). *)
Theorem tooltip_inside_container (mouseX mouseY : R) (rect : DOMRect R) :
  0 <= mouseX -> 0 <= mouseY ->
  let p := calculateTooltipPosition mouseX mouseY rect in
  0 <= x p /\ 0 <= y p
  /\ (150 <= rect_width rect -> mouseX <= rect_width rect ->
      x p + 80 <= rect_width rect)
  /\ (84 <= rect_height rect -> mouseY <= rect_height rect ->
      y p + 32 <= rect_height rect).
Proof.
  intros HX HY p. subst p. rewrite calculateTooltipPosition_real.
  cbn [x y]. cbv zeta.
  split_tests;
    (split; [lra|]); (split; [lra|]); split; intros; lra.
Qed.

(** [tooltip_inside_container] for a pointer near the right edge of a 400
    by 400 container. *)
Lemma tooltip_inside_container_witness :
  let p := calculateTooltipPosition 390 5 (mkRect 400 400) in
  0 <= x p /\ 0 <= y p /\ x p + 80 <= 400 /\ y p + 32 <= 400.
Proof.
  intros p.
  assert (HX : 0 <= 390) by lra.
  assert (HY : 0 <= 5) by lra.
  destruct (tooltip_inside_container 390 5 (mkRect 400 400) HX HY)
    as (Hx & Hy & Hright & Hlow).
  split; [exact Hx|]. split; [exact Hy|]. split.
  - apply Hright; simpl; lra.
  - apply Hlow; simpl; lra.
Defined.

(** X19. In a container narrower than 150 the tooltip can leave on the
    right: some pointer position inside the container puts its right edge
    beyond the width, whatever the height of the pointer. *)
Theorem tooltip_overflows_narrow_container (rect : DOMRect R) :
  0 <= rect_width rect < 150 ->
  exists mouseX,
    0 <= mouseX <= rect_width rect
    /\ forall mouseY,
         rect_width rect
         < x (calculateTooltipPosition mouseX mouseY rect) + 80.
Proof.
  intros Hw.
  destruct (Rlt_dec (rect_width rect) 90) as [Hsmall|Hlarge].
  - exists (rect_width rect). split; [lra|]. intros mouseY.
    rewrite calculateTooltipPosition_real. cbn [x]. cbv zeta.
    split_tests; lra.
  - exists ((rect_width rect + 30) / 2). split; [lra|]. intros mouseY.
    rewrite calculateTooltipPosition_real. cbn [x]. cbv zeta.
    split_tests; lra.
Qed.

(** [tooltip_overflows_narrow_container] for a container 100 wide. *)
Lemma tooltip_overflows_narrow_container_witness :
  exists mouseX,
    0 <= mouseX <= 100
    /\ forall mouseY,
         100 < x (calculateTooltipPosition mouseX mouseY (mkRect 100 300)) + 80.
Proof.
  apply (tooltip_overflows_narrow_container (mkRect 100 300)).
  simpl. lra.
Defined.

End Placement.

End TooltipExtra.

(* ===================================================================== *)
(** ** The states of the data source exclude one another *)
(* ===================================================================== *)

Module DataSourceExtra.
Import DataSource.

Lemma truthy_js_and (a b : JsValue) :
  truthy (js_and a b) = truthy a && truthy b.
Proof. unfold js_and. destruct (truthy a) eqn:E; simpl; [reflexivity | exact E]. Qed.

Lemma strictEqualsString_inj (v : JsValue) (s t : string) :
  strictEqualsString v s = true -> strictEqualsString v t = true -> s = t.
Proof.
  destruct v; simpl; try discriminate.
  intros Hs Ht. apply String.eqb_eq in Hs, Ht. congruence.
Qed.

(** X20. Whatever the data source is, at most one of
    [isDataSourceLoading], [isDataSourceAvailable] and
    [hasDataSourceError] gives a truthy result, and
    [isDataSourceAvailable] gives one only for a data source with truthy
    [items]. *)
Theorem data_source_states_exclusive (dataSource : JsValue) :
  let loading := truthy (isDataSourceLoading dataSource) in
  let available := truthy (isDataSourceAvailable dataSource) in
  let failed := truthy (hasDataSourceError dataSource) in
  loading && available = false
  /\ loading && failed = false
  /\ available && failed = false
  /\ (available = true -> truthy (getProp dataSource "items") = true).
Proof.
  intros loading available failed. subst loading available failed.
  unfold isDataSourceLoading, isDataSourceAvailable, hasDataSourceError.
  rewrite !truthy_js_and. cbn [truthy].
  destruct (strictEqualsString (getProp dataSource "status") "loading") eqn:L;
  destruct (strictEqualsString (getProp dataSource "status") "available") eqn:A;
  destruct (strictEqualsString (getProp dataSource "status") "unavailable") eqn:U;
    try (pose proof (strictEqualsString_inj _ _ _ L A); discriminate);
    try (pose proof (strictEqualsString_inj _ _ _ L U); discriminate);
    try (pose proof (strictEqualsString_inj _ _ _ A U); discriminate);
    destruct (truthy dataSource); simpl;
    (split; [reflexivity|]); (split; [reflexivity|]);
    (split; [try reflexivity; apply andb_false_r|]);
    intros H; try discriminate H; exact H.
Qed.

End DataSourceExtra.

(* ===================================================================== *)
(** ** The accessible descriptions *)
(* ===================================================================== *)

Module A11yExtra.
Import JsString CHART_DEFAULTS Chart A11y JsNumberOrder DoubleArith ChartFacts.

(** *** The label does not see the padding *)

Lemma getPolygonType_max (n : nat) :
  getPolygonType (Nat.max n 5) = getPolygonType n.
Proof.
  unfold getPolygonType.
  replace (Nat.max 5 (Nat.max n 5)) with (Nat.max 5 n) by lia. reflexivity.
Qed.

Lemma normalizedData_padding (data : list (RadarChartDataPoint float)) :
  normalizedData data
  = data ++ map paddingPoint (seq (length data) (MINIMUM_SPOKES - length data)).
Proof.
  unfold normalizedData. now apply normalizeLoop_pads.
Qed.

Lemma filter_padding (l : list nat) :
  List.filter isPositive (map (paddingPoint (N := float)) l) = [].
Proof. induction l as [|n l IH]; [reflexivity | exact IH]. Qed.

(** X21. The label of the chart is the same for the data as they came and
    for the normalized data the chart is drawn from: the padding points
    change neither the polygon named nor the number of data points
    counted. *)
Theorem generateAriaLabel_ignores_padding
    (data : list (RadarChartDataPoint float))
    (title : option string) (hasClickAction : option bool) :
  generateAriaLabel (normalizedData data) title hasClickAction
  = generateAriaLabel data title hasClickAction.
Proof.
  unfold generateAriaLabel.
  assert (Hlen : length (normalizedData data) = Nat.max (length data) 5).
  { rewrite normalizedData_padding, length_app, length_map, length_seq.
    unfold MINIMUM_SPOKES. lia. }
  rewrite Hlen, getPolygonType_max.
  rewrite normalizedData_padding, List.filter_app, filter_padding, app_nil_r.
  reflexivity.
Qed.

(** *** An update that changes nothing *)

(** The difference of a double with itself is never above 0.5: it is
    zero, or NaN for an infinite value or NaN. *)
Lemma self_difference_small (v : float) :
  js_gt (PrimFloat.abs (v - v)%float) 0.5%float = false.
Proof.
  unfold js_gt, js_lt, JsCompare_double.
  rewrite FloatAxioms.ltb_spec, abs_spec, sub_spec.
  destruct (Prim2SF v) as [s|s| |s m e].
  - destruct s; reflexivity.
  - destruct s; reflexivity.
  - reflexivity.
  - unfold SF64sub, SFsub. rewrite Z.sub_diag. reflexivity.
Qed.

Lemma In_combine_seq {A : Type} (l : list A) :
  forall (start i : nat) (a : A),
    In (i, a) (combine (seq start (length l)) l) ->
    (start <= i)%nat /\ l !! (i - start)%nat = Some a.
Proof.
  induction l as [|b l IH]; intros start i a Hin; [destruct Hin|].
  destruct Hin as [Heq|Hin].
  - injection Heq as <- <-. rewrite Nat.sub_diag. split; [lia | reflexivity].
  - apply IH in Hin as [Hle Hl]. split; [lia|].
    replace (i - start)%nat with (S (i - S start)) by lia. exact Hl.
Qed.

Lemma significantChanges_same (data : list (RadarChartDataPoint float)) :
  significantChanges data data = [].
Proof.
  unfold significantChanges.
  assert (Hall : forall l : list (nat * RadarChartDataPoint float),
             (forall i p, In (i, p) l -> data !! i = Some p) ->
             List.filter
               (fun '(index, newPoint) =>
                  match data !! index with
                  | Some oldPoint =>
                      js_gt (PrimFloat.abs
                               (value newPoint - value oldPoint)%float)
                            0.5%float
                  | None => false
                  end) l = []).
  { induction l as [|[i p] l IH]; intros Hl; [reflexivity|].
    cbn [List.filter]. rewrite (Hl i p) by (left; reflexivity).
    rewrite self_difference_small. apply IH.
    intros j q Hin. apply Hl. right. exact Hin. }
  rewrite Hall; [reflexivity|].
  intros i p Hin. apply In_combine_seq in Hin as [_ Hl].
  now rewrite Nat.sub_0_r in Hl.
Qed.

(** X22. Announcing as new the data already shown reports no significant
    change, whatever the values are (infinite and NaN included): the
    message is the plain one. *)
Theorem unchanged_data_plain_update (data : list (RadarChartDataPoint float)) :
  data <> [] ->
  generateLiveRegionUpdate data data = "Chart data updated."%string.
Proof.
  intros Hne. unfold generateLiveRegionUpdate.
  destruct data as [|p data]; [contradiction|].
  rewrite Nat.eqb_refl, significantChanges_same. reflexivity.
Qed.

(** [unchanged_data_plain_update] for a point of value NaN and one of
    infinite value. *)
Lemma unchanged_data_plain_update_witness :
  generateLiveRegionUpdate
    [mkPoint "A" PrimFloat.nan; mkPoint "B" PrimFloat.infinity]
    [mkPoint "A" PrimFloat.nan; mkPoint "B" PrimFloat.infinity]
  = "Chart data updated."%string.
Proof.
  apply (unchanged_data_plain_update
           [mkPoint "A" PrimFloat.nan; mkPoint "B" PrimFloat.infinity]).
  discriminate.
Defined.

(** *** The extremes named by the summary *)

Lemma SFleb_trans (x y z : spec_float) :
  SFleb x y = true -> SFleb y z = true -> SFleb x z = true.
Proof.
  unfold SFleb.
  destruct x as [sx|sx| |sx mx ex], y as [sy|sy| |sy my ey],
    z as [sz|sz| |sz mz ez]; simpl; try discriminate; try reflexivity;
    repeat match goal with s : bool |- _ => destruct s end;
    simpl; try discriminate; try reflexivity;
    change (Pos.compare_cont Eq mx my) with (Pos.compare mx my);
    change (Pos.compare_cont Eq my mz) with (Pos.compare my mz);
    change (Pos.compare_cont Eq mx mz) with (Pos.compare mx mz);
    destruct (Z.compare_spec ex ey), (Z.compare_spec ey ez),
      (Z.compare_spec ex ez); try lia; try discriminate; try reflexivity;
    destruct (Pos.compare_spec mx my), (Pos.compare_spec my mz),
      (Pos.compare_spec mx mz); simpl; try lia; try discriminate;
    reflexivity.
Qed.

Lemma leb_trans (a b c : float) :
  (a <=? b)%float = true -> (b <=? c)%float = true -> (a <=? c)%float = true.
Proof. rewrite !FloatAxioms.leb_spec. apply SFleb_trans. Qed.

Lemma isPositive_plain (p : RadarChartDataPoint float) :
  isPositive p = true -> plain (value p).
Proof.
  unfold isPositive, js_gt, js_lt, JsCompare_double. intros Hpos.
  split; [apply (ltb_not_nan _ _ Hpos)|].
  revert Hpos. unfold PrimFloat.is_zero.
  rewrite FloatAxioms.ltb_spec, FloatAxioms.eqb_spec.
  change (Prim2SF 0) with (S754_zero false).
  destruct (Prim2SF (value p)) as [s|s| |s m e]; simpl; try discriminate;
    try reflexivity; destruct s; intros; reflexivity.
Qed.

(** [Math.max] of two plain numbers is one of them, the larger. *)
Lemma max_cases (a b : float) :
  plain a -> PrimFloat.is_nan b = false ->
  (Double.max a b = a /\ (b <=? a)%float = true)
  \/ (Double.max a b = b /\ (a <=? b)%float = true).
Proof.
  intros [Ha Hz] Hb. unfold Double.max. rewrite Ha, Hb, Hz. simpl.
  destruct (a <? b)%float eqn:Hab.
  - right. split; [reflexivity | now apply ltb_leb].
  - destruct (b <? a)%float eqn:Hba.
    + left. split; [reflexivity | now apply ltb_leb].
    + left. split; [reflexivity | now apply not_ltb_leb].
Qed.

(** [Math.min] of two plain numbers is one of them, the smaller. *)
Lemma min_cases (a b : float) :
  plain a -> PrimFloat.is_nan b = false ->
  (Double.min a b = a /\ (a <=? b)%float = true)
  \/ (Double.min a b = b /\ (b <=? a)%float = true).
Proof.
  intros [Ha Hz] Hb. unfold Double.min. rewrite Ha, Hb, Hz. simpl.
  destruct (a <? b)%float eqn:Hab.
  - left. split; [reflexivity | now apply ltb_leb].
  - destruct (b <? a)%float eqn:Hba.
    + right. split; [reflexivity | now apply ltb_leb].
    + left. split; [reflexivity | now apply not_ltb_leb].
Qed.

Lemma fold_max_spec (l : list float) :
  forall acc : float,
    plain acc -> Forall plain l ->
    let r := fold_left Double.max l acc in
    (r = acc \/ In r l)
    /\ (acc <=? r)%float = true
    /\ Forall (fun v => (v <=? r)%float = true) l.
Proof.
  induction l as [|b l IH]; intros acc Hacc Hl; simpl.
  - split; [left; reflexivity|]. split; [|constructor].
    apply leb_refl, Hacc.
  - pose proof (Forall_inv Hl) as Hb. pose proof (Forall_inv_tail Hl) as Hl'.
    assert (Hm : plain (Double.max acc b)
                 /\ (Double.max acc b = acc \/ Double.max acc b = b)
                 /\ (acc <=? Double.max acc b)%float = true
                 /\ (b <=? Double.max acc b)%float = true).
    { destruct (max_cases acc b Hacc (proj1 Hb)) as [[-> Hle]|[-> Hle]].
      - repeat split; try apply Hacc; auto. apply leb_refl, Hacc.
      - repeat split; try apply Hb; auto. apply leb_refl, Hb. }
    destruct Hm as (Hplain & Hwhich & Hle1 & Hle2).
    destruct (IH _ Hplain Hl') as (Hin & Hle & Hall).
    split; [|split].
    + destruct Hin as [->|Hin]; [|right; right; exact Hin].
      destruct Hwhich as [->| ->]; [left | right; left]; reflexivity.
    + eapply leb_trans; eassumption.
    + constructor; [eapply leb_trans; eassumption | exact Hall].
Qed.

Lemma fold_min_spec (l : list float) :
  forall acc : float,
    plain acc -> Forall plain l ->
    let r := fold_left Double.min l acc in
    (r = acc \/ In r l)
    /\ (r <=? acc)%float = true
    /\ Forall (fun v => (r <=? v)%float = true) l.
Proof.
  induction l as [|b l IH]; intros acc Hacc Hl; simpl.
  - split; [left; reflexivity|]. split; [|constructor].
    apply leb_refl, Hacc.
  - pose proof (Forall_inv Hl) as Hb. pose proof (Forall_inv_tail Hl) as Hl'.
    assert (Hm : plain (Double.min acc b)
                 /\ (Double.min acc b = acc \/ Double.min acc b = b)
                 /\ (Double.min acc b <=? acc)%float = true
                 /\ (Double.min acc b <=? b)%float = true).
    { destruct (min_cases acc b Hacc (proj1 Hb)) as [[-> Hle]|[-> Hle]].
      - repeat split; try apply Hacc; auto. apply leb_refl, Hacc.
      - repeat split; try apply Hb; auto. apply leb_refl, Hb. }
    destruct Hm as (Hplain & Hwhich & Hle1 & Hle2).
    destruct (IH _ Hplain Hl') as (Hin & Hle & Hall).
    split; [|split].
    + destruct Hin as [->|Hin]; [|right; right; exact Hin].
      destruct Hwhich as [->| ->]; [left | right; left]; reflexivity.
    + eapply leb_trans; eassumption.
    + constructor; [eapply leb_trans; eassumption | exact Hall].
Qed.

Lemma leb_neg_infinity (v : float) :
  (v <=? PrimFloat.neg_infinity)%float = true -> v = PrimFloat.neg_infinity.
Proof.
  rewrite FloatAxioms.leb_spec. intros H. apply Prim2SF_inj. revert H.
  change (Prim2SF PrimFloat.neg_infinity) with (S754_infinity true).
  unfold SFleb.
  destruct (Prim2SF v) as [s|s| |s m e]; simpl; try discriminate;
    destruct s; simpl; try discriminate; reflexivity.
Qed.

Lemma infinity_leb (v : float) :
  (PrimFloat.infinity <=? v)%float = true -> v = PrimFloat.infinity.
Proof.
  rewrite FloatAxioms.leb_spec. intros H. apply Prim2SF_inj. revert H.
  change (Prim2SF PrimFloat.infinity) with (S754_infinity false).
  unfold SFleb.
  destruct (Prim2SF v) as [s|s| |s m e]; simpl; try discriminate;
    destruct s; simpl; try discriminate; reflexivity.
Qed.

Lemma plain_infinities :
  plain PrimFloat.neg_infinity /\ plain PrimFloat.infinity.
Proof. repeat split; reflexivity. Qed.

(** [Math.max(...values)] of plain numbers, at least one: a member of
    [values] that no member exceeds. *)
Lemma Math_max_of_spec (values : list float) :
  values <> [] -> Forall plain values ->
  In (Math_max_of values) values
  /\ Forall (fun v => (v <=? Math_max_of values)%float = true) values.
Proof.
  intros Hne Hall. unfold Math_max_of.
  destruct (fold_max_spec values _ (proj1 plain_infinities) Hall)
    as (Hin & _ & Hle).
  split; [|exact Hle].
  destruct Hin as [Heq|Hin]; [|exact Hin].
  destruct values as [|v values]; [contradiction|].
  pose proof (Forall_inv Hle) as Hv. cbv beta in Hv.
  rewrite Heq in Hv. apply leb_neg_infinity in Hv. subst v.
  rewrite Heq. left. reflexivity.
Qed.

Lemma Math_min_of_spec (values : list float) :
  values <> [] -> Forall plain values ->
  In (Math_min_of values) values
  /\ Forall (fun v => (Math_min_of values <=? v)%float = true) values.
Proof.
  intros Hne Hall. unfold Math_min_of.
  destruct (fold_min_spec values _ (proj2 plain_infinities) Hall)
    as (Hin & _ & Hle).
  split; [|exact Hle].
  destruct Hin as [Heq|Hin]; [|exact Hin].
  destruct values as [|v values]; [contradiction|].
  pose proof (Forall_inv Hle) as Hv. cbv beta in Hv.
  rewrite Heq in Hv. apply infinity_leb in Hv. subst v.
  rewrite Heq. left. reflexivity.
Qed.

(** The search by value finds a point when the value is one of the list. *)
Lemma categoryOf_found (validData : list (RadarChartDataPoint float))
    (v : float) :
  PrimFloat.is_nan v = false ->
  In v (map value validData) ->
  exists p, In p validData
            /\ categoryOf validData v = Some (name p)
            /\ (value p =? v)%float = true.
Proof.
  intros Hnan Hin. unfold categoryOf.
  destruct (List.find (fun point => (value point =? v)%float) validData)
    as [p|] eqn:Hfind.
  - apply List.find_some in Hfind as [Hp Heq]. eauto.
  - apply in_map_iff in Hin as (q & <- & Hq).
    pose proof (List.find_none _ _ Hfind q Hq) as Hfalse. cbv beta in Hfalse.
    apply is_nan_false in Hnan.
    rewrite FloatAxioms.eqb_spec in Hfalse. unfold SFeqb in Hfalse.
    rewrite (SFcompare_refl _ Hnan) in Hfalse. discriminate Hfalse.
Qed.

(** Two doubles that [===] equates are the same double, zeros apart. *)
Lemma eqb_plain_eq (a b : float) :
  PrimFloat.is_zero a = false -> (a =? b)%float = true -> a = b.
Proof.
  unfold PrimFloat.is_zero. rewrite !FloatAxioms.eqb_spec.
  change (Prim2SF 0) with (S754_zero false).
  intros Hz Heq. apply Prim2SF_inj. revert Hz Heq. unfold SFeqb.
  destruct (Prim2SF a) as [sa|sa| |sa ma ea],
    (Prim2SF b) as [sb|sb| |sb mb eb]; simpl; try discriminate;
    destruct sa, sb; simpl; try discriminate; try reflexivity;
    intros _; destruct (Z.compare_spec ea eb); try discriminate; subst eb;
    change (Pos.compare_cont Eq ma mb) with (Pos.compare ma mb);
    destruct (Pos.compare_spec ma mb); simpl; try discriminate; subst mb;
    reflexivity.
Qed.

(** The extremes of the positive values and the points they are found
    at. *)
Lemma extremes_found (data : list (RadarChartDataPoint float)) :
  let validData := List.filter isPositive data in
  let highest := Math_max_of (map value validData) in
  let lowest := Math_min_of (map value validData) in
  validData <> [] ->
  (exists p, In p validData
             /\ categoryOf validData highest = Some (name p)
             /\ value p = highest)
  /\ (exists p, In p validData
                /\ categoryOf validData lowest = Some (name p)
                /\ value p = lowest)
  /\ (forall q, In q validData ->
                (lowest <=? value q)%float = true
                /\ (value q <=? highest)%float = true).
Proof.
  intros validData highest lowest Hne.
  assert (Hvalues : map value validData <> []).
  { destruct validData; [contradiction | discriminate]. }
  assert (Hpoints : forall p, In p validData -> plain (value p)).
  { intros p Hp. apply List.filter_In in Hp as [_ Hp].
    now apply isPositive_plain. }
  assert (Hplain : Forall plain (map value validData)).
  { apply List.Forall_forall. intros v Hv.
    apply in_map_iff in Hv as (p & <- & Hp). now apply Hpoints. }
  destruct (Math_max_of_spec _ Hvalues Hplain) as [Hmax_in Hmax_le].
  destruct (Math_min_of_spec _ Hvalues Hplain) as [Hmin_in Hmin_le].
  fold highest in Hmax_in, Hmax_le. fold lowest in Hmin_in, Hmin_le.
  assert (Hnan : forall v, In v (map value validData) ->
                           PrimFloat.is_nan v = false).
  { intros v Hv. rewrite List.Forall_forall in Hplain.
    apply (Hplain v Hv). }
  split; [|split].
  - destruct (categoryOf_found validData highest (Hnan _ Hmax_in) Hmax_in)
      as (p & Hp & Hcat & Heq).
    exists p. split; [exact Hp|]. split; [exact Hcat|].
    apply eqb_plain_eq; [apply (Hpoints p Hp) | exact Heq].
  - destruct (categoryOf_found validData lowest (Hnan _ Hmin_in) Hmin_in)
      as (p & Hp & Hcat & Heq).
    exists p. split; [exact Hp|]. split; [exact Hcat|].
    apply eqb_plain_eq; [apply (Hpoints p Hp) | exact Heq].
  - intros q Hq.
    assert (Hv : In (value q) (map value validData)) by now apply in_map.
    rewrite List.Forall_forall in Hmax_le, Hmin_le.
    split; [apply (Hmin_le _ Hv) | apply (Hmax_le _ Hv)].
Qed.

(** X23. When some value of the data is positive, the summary names real
    extremes: the sentence is built from two points [hi] and [lo] of the
    data with positive values, named and printed as the highest and the
    lowest, such that every positive value of the data lies between
    theirs. In particular neither category reads [undefined]. *)
Theorem generateChartSummary_names_extremes
    (Number_toFixed : float -> nat -> string)
    (data : list (RadarChartDataPoint float)) :
  List.filter isPositive data <> [] ->
  exists (hi lo : RadarChartDataPoint float) (average : float),
    In hi data /\ isPositive hi = true
    /\ In lo data /\ isPositive lo = true
    /\ (forall q, In q data -> isPositive q = true ->
                  (value lo <=? value q)%float = true
                  /\ (value q <=? value hi)%float = true)
    /\ generateChartSummary Number_toFixed data
       = ("Average score: " ++ Number_toFixed average 1
          ++ ". Highest: " ++ name hi
          ++ " (" ++ Number_toFixed (value hi) 1
          ++ "). Lowest: " ++ name lo
          ++ " (" ++ Number_toFixed (value lo) 1 ++ ").")%string.
Proof.
  intros Hne.
  destruct (extremes_found data Hne)
    as ((hi & Hhi & Hhi_cat & Hhi_eq) & (lo & Hlo & Hlo_cat & Hlo_eq) & Hle).
  exists hi, lo.
  exists (fold_left PrimFloat.add
            (map value (List.filter isPositive data)) 0
          / ofNat (length (map value (List.filter isPositive data))))%float.
  pose proof Hhi as Hhi'. pose proof Hlo as Hlo'.
  apply List.filter_In in Hhi' as [Hhi_in Hhi_pos].
  apply List.filter_In in Hlo' as [Hlo_in Hlo_pos].
  split; [exact Hhi_in|]. split; [exact Hhi_pos|].
  split; [exact Hlo_in|]. split; [exact Hlo_pos|]. split.
  - intros q Hq Hpos. rewrite Hhi_eq, Hlo_eq. apply Hle.
    apply List.filter_In. split; assumption.
  - assert (Hdata : Nat.eqb (length data) 0 = false).
    { destruct data; [contradiction | reflexivity]. }
    assert (Hvalid : Nat.eqb (length (List.filter isPositive data)) 0 = false).
    { destruct (List.filter isPositive data); [contradiction | reflexivity]. }
    unfold generateChartSummary. rewrite Hdata, Hvalid. cbv zeta.
    rewrite Hhi_cat, Hlo_cat, Hhi_eq, Hlo_eq. reflexivity.
Qed.

(** [generateChartSummary_names_extremes] for three points, one of value
    zero. *)
Lemma generateChartSummary_names_extremes_witness :
  exists (hi lo : RadarChartDataPoint float) (average : float),
    In hi [mkPoint "A" 3%float; mkPoint "B" 0%float; mkPoint "C" 1%float]
    /\ isPositive hi = true
    /\ In lo [mkPoint "A" 3%float; mkPoint "B" 0%float; mkPoint "C" 1%float]
    /\ isPositive lo = true
    /\ (forall q,
          In q [mkPoint "A" 3%float; mkPoint "B" 0%float; mkPoint "C" 1%float] ->
          isPositive q = true ->
          (value lo <=? value q)%float = true
          /\ (value q <=? value hi)%float = true)
    /\ generateChartSummary (fun v _ => DoubleToString.integralToString v)
         [mkPoint "A" 3%float; mkPoint "B" 0%float; mkPoint "C" 1%float]
       = ("Average score: " ++ DoubleToString.integralToString average
          ++ ". Highest: " ++ name hi
          ++ " (" ++ DoubleToString.integralToString (value hi)
          ++ "). Lowest: " ++ name lo
          ++ " (" ++ DoubleToString.integralToString (value lo) ++ ").")%string.
Proof.
  apply (generateChartSummary_names_extremes
           (fun v _ => DoubleToString.integralToString v)
           [mkPoint "A" 3%float; mkPoint "B" 0%float; mkPoint "C" 1%float]).
  vm_compute. discriminate.
Defined.

End A11yExtra.
